(** * LayersList: the ordered, named layer collection of
      gui/components/_layers_list/model.py

    A shallow embedding of the Python class [LayersList] and of the list
    primitives it relies on, followed by the properties of the collection
    that the specification states. *)

From Stdlib Require Import String Ascii ZArith Bool Lia Arith List Permutation.
Import ListNotations.
Open Scope Z_scope.

(* ================================================================= *)
(** ** Python values, exceptions and list primitives *)

(** Object identity of a [Layer] instance. *)
Definition loc := nat.

(** The values that reach the collection's methods as arguments. *)
#[warnings="-register-all"]
Inductive pyobj :=
| PInt (z : Z)
| PStr (s : string)
| PLayer (l : loc)
| PSlice (start stop step : option Z)
| PSeq (items : list pyobj)      (* a list or tuple *)
| PObject.                       (* anything else, [None] included *)

Inductive value_error :=
| VE_query (q : pyobj)                        (* ValueError(query) *)
| VE_not_in_list                              (* list.index, list.remove *)
| VE_slice_step_zero
| VE_duplicate_index (o : Z)                  (* 'duplicate index: o' *)
| VE_indices_not_provided (missing : list Z). (* 'indices (..) not provided' *)

Inductive exn :=
| TypeError
| IndexError
| AttributeError
| OverflowError
| KeyError (query : pyobj)
| ValueError (d : value_error).

Inductive result (A : Type) :=
| Ok (a : A)
| Err (e : exn).
Arguments Ok {A} a.
Arguments Err {A} e.

Module PyList.

(** [sys.maxsize], the largest C [Py_ssize_t], of a 64-bit build. *)
Definition max_ssize_t : Z := 2 ^ 63 - 1.

Section Ops.
Context {A : Type}.

Definition len (l : list A) : Z := Z.of_nat (length l).

(** [insert] and [pop] convert their int argument to a C [Py_ssize_t] and
    raise OverflowError for an int that does not fit.  The length of a list
    always fits, which the bound used here maintains for the lists of the
    model, whose length nothing limits. *)
Definition fits_ssize_t (l : list A) (i : Z) : bool :=
  let bound := Z.max max_ssize_t (len l) in
  (- bound - 1 <=? i) && (i <=? bound).

(** [range(n)] *)
Definition range (n : nat) : list Z := map Z.of_nat (seq 0 n).

(** Position denoted by a subscript: negative subscripts count from the
    end; [None] when it falls outside the list. *)
Definition norm_index (l : list A) (i : Z) : option nat :=
  let j := if i <? 0 then i + len l else i in
  if (0 <=? j) && (j <? len l) then Some (Z.to_nat j) else None.

(** [l[i]] *)
Definition getitem (l : list A) (i : Z) : option A :=
  match norm_index l i with
  | Some k => nth_error l k
  | None => None
  end.

Fixpoint replace_nth (k : nat) (x : A) (l : list A) : list A :=
  match l, k with
  | [], _ => []
  | _ :: t, O => x :: t
  | h :: t, S k' => h :: replace_nth k' x t
  end.

(** [l[i] = x] *)
Definition setitem (l : list A) (i : Z) (x : A) : option (list A) :=
  match norm_index l i with
  | Some k => Some (replace_nth k x l)
  | None => None
  end.

(** [l.insert(i, x)]: a subscript that fits is clamped to [0 .. len l]. *)
Definition insert (l : list A) (i : Z) (x : A) : result (list A) :=
  if fits_ssize_t l i then
    let n := len l in
    let j := if i <? 0 then Z.max (i + n) 0 else Z.min i n in
    Ok (firstn (Z.to_nat j) l ++ x :: skipn (Z.to_nat j) l)
  else Err OverflowError.

(** [l.pop(i)] *)
Definition pop (l : list A) (i : Z) : result (A * list A) :=
  if fits_ssize_t l i then
    match norm_index l i with
    | Some k =>
        match nth_error l k with
        | Some x => Ok (x, firstn k l ++ skipn (S k) l)
        | None => Err IndexError
        end
    | None => Err IndexError
    end
  else Err OverflowError.

(** Bound of a slice, as CPython's PySlice_AdjustIndices computes it. *)
Definition adjust (n step i : Z) : Z :=
  if i <? 0 then
    let j := i + n in
    if j <? 0 then (if step <? 0 then -1 else 0) else j
  else if n <=? i then (if step <? 0 then n - 1 else n)
  else i.

Definition opt_list (o : option A) : list A :=
  match o with Some x => [x] | None => [] end.

(** [l[start:stop:step]] for a step other than zero. *)
Definition slice (l : list A) (start stop : option Z) (step : Z) : list A :=
  let n := len l in
  let lo := match start with
            | Some i => adjust n step i
            | None => if step <? 0 then n - 1 else 0
            end in
  let hi := match stop with
            | Some i => adjust n step i
            | None => if step <? 0 then -1 else n
            end in
  let count :=
    if step <? 0
    then (if hi <? lo then (lo - hi - 1) / (- step) + 1 else 0)
    else (if lo <? hi then (hi - lo - 1) / step + 1 else 0) in
  flat_map (fun k => opt_list (nth_error l (Z.to_nat (lo + Z.of_nat k * step))))
           (seq 0 (Z.to_nat count)).

Variable eqb : A -> A -> bool.

Fixpoint find_from (i : Z) (x : A) (l : list A) : option Z :=
  match l with
  | [] => None
  | y :: t => if eqb y x then Some i else find_from (i + 1) x t
  end.

(** [l.index(x, start, stop)] *)
Definition index (l : list A) (x : A) (start stop : option Z) : option Z :=
  let n := len l in
  let clamp i := if i <? 0 then Z.max (i + n) 0 else i in
  let lo := match start with Some i => clamp i | None => 0 end in
  let hi := match stop with Some i => Z.min (clamp i) n | None => n end in
  find_from lo x (skipn (Z.to_nat lo) (firstn (Z.to_nat hi) l)).

(** [l.remove(x)]: drops the first occurrence. *)
Fixpoint remove (x : A) (l : list A) : option (list A) :=
  match l with
  | [] => None
  | y :: t =>
      if eqb y x then Some t
      else match remove x t with
           | Some t' => Some (y :: t')
           | None => None
           end
  end.
End Ops.
End PyList.

(* ================================================================= *)
(** ** The objects: layers, the viewer, the collection *)

(** What the collection reads and writes on a [Layer]: its name, its
    selection flag, its draw order, its viewer, and the callbacks connected
    to its [select] and [deselect] emitters (viewers, by identity). *)
Record Layer := mkLayer {
  name : string;
  selected : bool;
  _order : Z;
  layer_viewer : option nat;
  select_callbacks : list nat;
  deselect_callbacks : list nat
}.

Record Canvas := mkCanvas {
  draw_order_clears : nat;   (* calls of canvas._draw_order.clear() *)
  updates : nat              (* calls of canvas.update() *)
}.

Record Viewer := mkViewer {
  viewer_id : nat;
  _canvas : Canvas
}.

(** A [weakref.ref]: calling it gives the referent, or [None] once the
    referent has been collected. *)
Definition weakref := option Viewer.

(** The notifications of [self.events]. *)
Inductive event :=
| add_item (item : loc) (index : Z)
| remove_item (item : loc)
| reorder_event.

(** The collection together with the objects it refers to.  [layers] is the
    object store: the list holds references, and an object reached through
    two references is one object.  [emitted] records the notifications in
    the order they were sent.  The emitter is vispy's, which is not part of
    the repository: whether an exception raised by a callback reaches the
    emitting call is its setting [ignore_callback_errors], which is [True]
    unless [events.ignore_callback_errors] has been assigned otherwise. *)
Record state := mkState {
  _list : list loc;
  _viewer : option weakref;
  layers : loc -> Layer;
  emitted : list event;
  ignore_callback_errors : bool
}.

Definition with_list (l : list loc) (s : state) : state :=
  mkState l (_viewer s) (layers s) (emitted s) (ignore_callback_errors s).

Definition with_viewer (v : option weakref) (s : state) : state :=
  mkState (_list s) v (layers s) (emitted s) (ignore_callback_errors s).

Definition with_emitted (e : list event) (s : state) : state :=
  mkState (_list s) (_viewer s) (layers s) e (ignore_callback_errors s).

Definition with_layers (lay : loc -> Layer) (s : state) : state :=
  mkState (_list s) (_viewer s) lay (emitted s) (ignore_callback_errors s).

Definition store_update (l : loc) (f : Layer -> Layer) (lay : loc -> Layer)
  : loc -> Layer :=
  fun l' => if Nat.eqb l' l then f (lay l') else lay l'.

(** Attribute assignment on the layer object [l]. *)
Definition update_layer (l : loc) (f : Layer -> Layer) (s : state) : state :=
  with_layers (store_update l f (layers s)) s.

Definition set_order (z : Z) (y : Layer) : Layer :=
  mkLayer (name y) (selected y) z (layer_viewer y)
          (select_callbacks y) (deselect_callbacks y).

Definition set_selected (b : bool) (y : Layer) : Layer :=
  mkLayer (name y) b (_order y) (layer_viewer y)
          (select_callbacks y) (deselect_callbacks y).

Definition set_layer_viewer (v : option nat) (y : Layer) : Layer :=
  mkLayer (name y) (selected y) (_order y) v
          (select_callbacks y) (deselect_callbacks y).

Definition set_select_callbacks (c : list nat) (y : Layer) : Layer :=
  mkLayer (name y) (selected y) (_order y) (layer_viewer y)
          c (deselect_callbacks y).

Definition set_deselect_callbacks (c : list nat) (y : Layer) : Layer :=
  mkLayer (name y) (selected y) (_order y) (layer_viewer y)
          (select_callbacks y) c.

(** An emitter holds a callback once; disconnecting one it does not hold
    does nothing. *)
Definition connect (cb : nat) (cbs : list nat) : list nat :=
  if existsb (Nat.eqb cb) cbs then cbs else cb :: cbs.

Definition disconnect (cb : nat) (cbs : list nat) : list nat :=
  match PyList.remove Nat.eqb cb cbs with
  | Some cbs' => cbs'
  | None => cbs
  end.

(* ================================================================= *)
(** ** Computations that may raise *)

Inductive outcome (A : Type) :=
| Return (a : A) (s : state)
| Raise (e : exn) (s : state).
Arguments Return {A} a s.
Arguments Raise {A} e s.

Definition M (A : Type) := state -> outcome A.

Definition ret {A} (a : A) : M A := fun s => Return a s.
Definition raise {A} (e : exn) : M A := fun s => Raise e s.

Definition bind {A B} (m : M A) (k : A -> M B) : M B :=
  fun s => match m s with
           | Return a s' => k a s'
           | Raise e s' => Raise e s'
           end.

Notation "x <- m ;; k" := (bind m (fun x => k))
  (at level 61, m at next level, right associativity).
Notation "m ;;; k" := (bind m (fun _ => k))
  (at level 61, right associativity).

Definition gets {A} (f : state -> A) : M A := fun s => Return (f s) s.
Definition modify (f : state -> state) : M unit := fun s => Return tt (f s).

(** A read that may raise. *)
Definition lift {A} (f : state -> result A) : M A :=
  fun s => match f s with
           | Ok a => Return a s
           | Err e => Raise e s
           end.

(** The state a call leaves behind, whether it returned or raised. *)
Definition final {A} (o : outcome A) : state :=
  match o with
  | Return _ s => s
  | Raise _ s => s
  end.

Definition returned {A} (o : outcome A) : bool :=
  match o with
  | Return _ _ => true
  | Raise _ _ => false
  end.

Fixpoint for_each {A} (l : list A) (body : A -> M unit) : M unit :=
  match l with
  | [] => ret tt
  | x :: t => body x ;;; for_each t body
  end.

(* ================================================================= *)
(** ** The class LayersList *)

Module LayersList.

Definition _check_layer (obj : pyobj) (error : bool) : result bool :=
  let result := match obj with PLayer _ => true | _ => false end in
  if error && negb result then Err TypeError else Ok result.

Definition __len__ (s : state) : Z := PyList.len (_list s).

(** The [viewer] property: the referent of the weak reference, if any. *)
Definition viewer (s : state) : option Viewer :=
  match _viewer s with
  | None => None
  | Some w => w
  end.


(** The loop of [_name_match] over the enumerated slice.  A layer object is
    true in a condition, so [if ignore] asks whether one was given. *)
Fixpoint name_scan (lay : loc -> Layer) (nm : string) (ignore : option loc)
         (start i : Z) (l : list loc) : option (Z * loc) :=
  match l with
  | [] => None
  | layer :: rest =>
      if match ignore with
         | Some ig => Nat.eqb layer ig
         | None => false
         end
      then name_scan lay nm ignore start (i + 1) rest
      else if String.eqb (name (lay layer)) nm
           then Some (i + start, layer)
           else name_scan lay nm ignore start (i + 1) rest
  end.

Definition _name_match (s : state) (nm : string) (start stop : option Z)
           (ignore : option loc) : option (Z * loc) :=
  let start := match start with
               | None => 0
               | Some z => z
               end in
  name_scan (layers s) nm ignore start 0
            (PyList.slice (_list s) (Some start) stop 1).

(** What a subscript of the list gives: one layer, or a list for a slice. *)
Inductive item :=
| a_layer (l : loc)
| a_list (ls : list loc).

(** [self._list[query]] *)
Definition list_subscript (l : list loc) (query : pyobj) : result item :=
  match query with
  | PInt i =>
      match PyList.getitem l i with
      | Some x => Ok (a_layer x)
      | None => Err IndexError
      end
  | PSlice a b c =>
      let step := match c with
                  | Some z => z
                  | None => 1
                  end in
      if step =? 0 then Err (ValueError VE_slice_step_zero)
      else Ok (a_list (PyList.slice l a b step))
  | _ => Err TypeError
  end.

Definition __getitem__ (s : state) (query : pyobj) : result item :=
  (* the try block: [Ok None] when it ends without returning *)
  let attempt :=
    match query with
    | PStr q =>
        match _name_match s q None None None with
        | Some (_, layer) => Ok (Some (a_layer layer))
        | None => Ok None
        end
    | _ =>
        match list_subscript (_list s) query with
        | Ok x => Ok (Some x)
        | Err IndexError => Ok None
        | Err e => Err e
        end
    end in
  match attempt with
  | Ok (Some x) => Ok x
  | Ok None => Err (KeyError query)
  | Err e => Err e
  end.

Definition __contains__ (s : state) (item : pyobj) : result bool :=
  match __getitem__ s item with
  | Ok _ => Ok true
  | Err (KeyError _) => Ok false
  | Err e => Err e
  end.

Definition index (s : state) (query : pyobj) (start stop : option Z)
  : result Z :=
  match query with
  | PStr q =>
      match _name_match s q start stop None with
      | None => Err (ValueError (VE_query query))
      | Some (i, _) => Ok i
      end
  | _ =>
      let start := match stop, start with
                   | Some _, None => Some 0
                   | _, _ => start
                   end in
      match query with
      | PLayer l =>
          match PyList.index Nat.eqb (_list s) l start stop with
          | Some i => Ok i
          | None => Err (ValueError VE_not_in_list)
          end
      | _ => Err (ValueError VE_not_in_list)  (* equal to no layer *)
      end
  end.

Definition is_str (obj : pyobj) : bool :=
  match obj with PStr _ => true | _ => false end.

Definition _to_index (s : state) (obj : pyobj) : result Z :=
  match _check_layer obj false with
  | Err e => Err e
  | Ok is_layer =>
      if is_layer || is_str obj then index s obj None None
      else match obj with
           | PInt z => Ok z
           | _ => Err TypeError
           end
  end.

(** The generator [_reordered_list], run to its end.  [_to_index] always
    gives an int, so the isinstance test on [o] never fails. *)
Fixpoint reordered_from (s : state) (expected : list Z) (ordering : list pyobj)
  : result (list loc) :=
  match ordering with
  | [] =>
      match expected with
      | [] => Ok []
      | _ :: _ => Err (ValueError (VE_indices_not_provided expected))
      end
  | obj :: rest =>
      match _to_index s obj with
      | Err e => Err e
      | Ok o =>
          match PyList.remove Z.eqb o expected with
          | None => Err (ValueError (VE_duplicate_index o))
          | Some expected' =>
              match PyList.getitem (_list s) o with
              | None => Err IndexError
              | Some layer =>
                  match reordered_from s expected' rest with
                  | Ok t => Ok (layer :: t)
                  | Err e => Err e
                  end
              end
          end
      end
  end.

Definition _reordered_list (s : state) (ordering : list pyobj)
  : result (list loc) :=
  reordered_from s (PyList.range (length (_list s))) ordering.

(** [self[i]] where the code goes on to use the result as a layer. *)
Definition layer_at (i : Z) (s : state) : result loc :=
  match __getitem__ s (PInt i) with
  | Ok (a_layer l) => Ok l
  | Ok (a_list _) => Err AttributeError
  | Err e => Err e
  end.

(** [self.viewer.<attribute>]: fails on [None]. *)
Definition viewer_attribute : M Viewer :=
  fun s => match viewer s with
           | Some v => Return v s
           | None => Raise AttributeError s
           end.

Definition _add (layer : loc) : M unit :=
  n <- gets __len__ ;;
  modify (update_layer layer (set_order (- n))) ;;;
  v <- gets viewer ;;
  modify (update_layer layer (set_layer_viewer (option_map viewer_id v))) ;;;
  cb <- viewer_attribute ;;
  modify (update_layer layer (fun y =>
    set_select_callbacks (connect (viewer_id cb) (select_callbacks y)) y)) ;;;
  cb <- viewer_attribute ;;
  modify (update_layer layer (fun y =>
    set_deselect_callbacks (connect (viewer_id cb) (deselect_callbacks y)) y)).

Definition _remove (layer : loc) : M unit :=
  modify (update_layer layer (set_layer_viewer None)) ;;;
  modify (update_layer layer (set_order 0)) ;;;
  cb <- viewer_attribute ;;
  modify (update_layer layer (fun y =>
    set_select_callbacks (disconnect (viewer_id cb) (select_callbacks y)) y)) ;;;
  cb <- viewer_attribute ;;
  modify (update_layer layer (fun y =>
    set_deselect_callbacks (disconnect (viewer_id cb) (deselect_callbacks y)) y)).

Definition clear_and_update (c : Canvas) : Canvas :=
  mkCanvas (S (draw_order_clears c)) (S (updates c)).

Definition _reorder : M unit :=
  n <- gets (fun s => length (_list s)) ;;
  for_each (PyList.range n) (fun i =>
    l <- lift (layer_at i) ;;
    modify (update_layer l (set_order (- i)))) ;;;
  v <- viewer_attribute ;;
  modify (with_viewer
            (Some (Some (mkViewer (viewer_id v) (clear_and_update (_canvas v)))))).

(** The collection's own callback for each notification. *)
Definition callback (ev : event) : M unit :=
  match ev with
  | add_item l _ => _add l
  | remove_item l => _remove l
  | reorder_event => _reorder
  end.

(** [self.events.<kind>(...)]: the notification is sent and the collection's
    callback runs before the call returns. *)
Definition emit (ev : event) : M unit :=
  fun s =>
    match callback ev (with_emitted (emitted s ++ [ev]) s) with
    | Return _ s' => Return tt s'
    | Raise e s' =>
        if ignore_callback_errors s' then Return tt s' else Raise e s'
    end.

Definition append (layer : pyobj) : M unit :=
  lift (fun _ => _check_layer layer true) ;;;
  match layer with
  | PLayer l =>
      modify (fun s => with_list (_list s ++ [l]) s) ;;;
      n <- gets __len__ ;;
      emit (add_item l (n - 1))
  | _ => raise TypeError
  end.

Definition list_insert (i : Z) (x : loc) : M unit :=
  fun s => match PyList.insert (_list s) i x with
           | Ok l' => Return tt (with_list l' s)
           | Err e => Raise e s
           end.

Definition insert (id layer : pyobj) : M unit :=
  lift (fun _ => _check_layer layer true) ;;;
  index <- lift (fun s => _to_index s id) ;;
  match layer with
  | PLayer l =>
      list_insert index l ;;;
      emit (add_item l (index - 1))
  | _ => raise TypeError
  end.

Definition list_pop (i : Z) : M loc :=
  fun s => match PyList.pop (_list s) i with
           | Ok (x, l') => Return x (with_list l' s)
           | Err e => Raise e s
           end.

Definition pop (id : pyobj) : M loc :=
  index <- lift (fun s => _to_index s id) ;;
  layer <- list_pop index ;;
  emit (remove_item layer) ;;;
  ret layer.

(** [pop()] with its default argument. *)
Definition pop_last : M loc := pop (PInt (-1)).

Definition remove (id : pyobj) : M unit := pop id ;;; ret tt.

Definition __delitem__ (id : pyobj) : M unit := remove id.

Definition list_get (i : Z) : M loc :=
  fun s => match PyList.getitem (_list s) i with
           | Some x => Return x s
           | None => Raise IndexError s
           end.

Definition list_set (i : Z) (x : loc) : M unit :=
  fun s => match PyList.setitem (_list s) i x with
           | Some l' => Return tt (with_list l' s)
           | None => Raise IndexError s
           end.

Definition swap (a b : pyobj) : M unit :=
  i <- lift (fun s => _to_index s a) ;;
  j <- lift (fun s => _to_index s b) ;;
  xj <- list_get j ;;
  xi <- list_get i ;;
  list_set i xj ;;;
  list_set j xi ;;;
  emit reorder_event.

Definition is_identifier (obj : pyobj) : bool :=
  match obj with
  | PInt _ | PStr _ | PLayer _ => true
  | _ => false
  end.

(** [reorder]: [args] is the tuple of its positional arguments.  The
    slice assignment runs the generator to its end before it touches the
    list. *)
Definition reorder (args : list pyobj) : M unit :=
  match args with
  | [] => raise IndexError
  | first :: _ =>
      ordering <- (if is_identifier first then ret args
                   else match first with
                        | PSeq items => ret items
                        | _ => raise TypeError
                        end) ;;
      new <- lift (fun s => _reordered_list s ordering) ;;
      modify (with_list new) ;;;
      emit reorder_event
  end.

(** [for i in selected: indices.remove(i)] *)
Fixpoint remove_each (selected indices : list Z) : option (list Z) :=
  match selected with
  | [] => Some indices
  | i :: t =>
      match PyList.remove Z.eqb i indices with
      | Some indices' => remove_each t indices'
      | None => None
      end
  end.

(** [for insert_idx, elem_idx in enumerate(selected, start): ...] *)
Fixpoint insert_each (insert_idx : Z) (selected indices : list Z)
  : result (list Z) :=
  match selected with
  | [] => Ok indices
  | elem_idx :: t =>
      match PyList.insert indices insert_idx elem_idx with
      | Ok indices' => insert_each (insert_idx + 1) t indices'
      | Err e => Err e
      end
  end.

Definition is_selected (s : state) (i : Z) : bool :=
  match layer_at i s with
  | Ok l => selected (layers s l)
  | Err _ => false
  end.

Definition _move_layers (index insert : Z) : M unit :=
  total <- gets (fun s => length (_list s)) ;;
  let indices := PyList.range total in
  primary <- lift (layer_at index) ;;
  primary_selected <- gets (fun s => selected (layers s primary)) ;;
  selected <- (if primary_selected
               then gets (fun s => filter (is_selected s) (PyList.range total))
               else ret [index]) ;;
  match remove_each selected indices with
  | None => raise (ValueError VE_not_in_list)
  | Some indices =>
      let offset := PyList.len (filter (fun i => i <? insert) selected) in
      match insert_each (insert - offset) selected indices with
      | Err e => raise e
      | Ok indices => reorder [PSeq (map PInt indices)]
      end
  end.

(** [unselect_all]: the loop runs over the list as it is; the assignment to
    [layer.selected] is the write of the flag (what the layer's own select
    and deselect emitters then tell their subscribers stays outside). *)
Definition unselect_all : M unit :=
  l <- gets _list ;;
  for_each l (fun layer =>
    sel <- gets (fun s => selected (layers s layer)) ;;
    if sel then modify (update_layer layer (set_selected false))
    else ret tt).

Definition remove_selected : M unit :=
  n <- gets (fun s => length (_list s)) ;;
  to_delete <- gets (fun s => filter (is_selected s) (PyList.range n)) ;;
  for_each (rev to_delete) (fun i => pop (PInt i) ;;; ret tt).

(** [_coerce_name]: the while loop, with [fuel] bounding its iterations.
    [inc_name_count] lives in util/naming.py, outside the collection. *)
Section Naming.
Variable inc_name_count : string -> string.

Fixpoint _coerce_name (fuel : nat) (s : state) (nm : string)
         (layer : option loc) : option string :=
  match fuel with
  | O => None
  | S fuel' =>
      match _name_match s nm None None layer with
      | Some _ => _coerce_name fuel' s (inc_name_count nm) layer
      | None => Some nm
      end
  end.
End Naming.

End LayersList.


(* ================================================================= *)
(** ** Auxiliary definitions for the statements *)

(** What the loop of [_reorder] leaves in the store: the layers of [l] get
    the orders [-i], [-(i+1)], ... in turn. *)
Fixpoint renumber (i : Z) (l : list loc) (lay : loc -> Layer) : loc -> Layer :=
  match l with
  | [] => lay
  | x :: t => renumber (i + 1) t (store_update x (set_order (- i)) lay)
  end.

(** Every layer has the draw order that its position gives it. *)
Definition order_invariant (s : state) : Prop :=
  forall (i : nat) (l : loc),
    nth_error (_list s) i = Some l -> _order (layers s l) = - Z.of_nat i.

(** The two operations that rearrange the layers in place. *)
Inductive rearrangement :=
| by_swap (a b : pyobj)
| by_reorder (args : list pyobj).

Definition rearrange (r : rearrangement) : M unit :=
  match r with
  | by_swap a b => LayersList.swap a b
  | by_reorder args => LayersList.reorder args
  end.

(** The operations that change the sequence, each with its arguments.
    [pop], [remove] and [__delitem__] differ only in what they return. *)
Inductive operation :=
| op_append (layer : pyobj)
| op_insert (id layer : pyobj)
| op_remove (id : pyobj)
| op_swap (a b : pyobj)
| op_reorder (args : list pyobj)
| op_move (index insert : Z).

Definition run (op : operation) : M unit :=
  match op with
  | op_append layer => LayersList.append layer
  | op_insert id layer => LayersList.insert id layer
  | op_remove id => LayersList.remove id
  | op_swap a b => LayersList.swap a b
  | op_reorder args => LayersList.reorder args
  | op_move index insert => LayersList._move_layers index insert
  end.

(** The notification that an operation sends. *)
Definition notifies (op : operation) (ev : event) : Prop :=
  match op, ev with
  | op_append (PLayer l), add_item l' _ => l' = l
  | op_insert _ (PLayer l), add_item l' _ => l' = l
  | op_remove _, remove_item _ => True
  | op_swap _ _, reorder_event => True
  | op_reorder _, reorder_event => True
  | op_move _ _, reorder_event => True
  | _, _ => False
  end.

(** The callbacks of the collection run to their end when a viewer is there;
    failing that, the emitter has to swallow what they raise. *)
Definition callbacks_return (s : state) : Prop :=
  LayersList.viewer s <> None \/ ignore_callback_errors s = true.

(** First position of [k] in [p]. *)
Fixpoint position_of (k : Z) (p : list Z) : Z :=
  match p with
  | [] => 0
  | x :: t => if Z.eqb x k then 0 else 1 + position_of k t
  end.

(** The inverse of the ordering [p]: at [k], the position [p] gives to [k]. *)
Definition inverse_ordering (p : list Z) : list Z :=
  map (fun k => position_of k p) (PyList.range (length p)).

(** [p] lists each of the positions [0 .. n-1] once. *)
Definition is_ordering (n : nat) (p : list Z) : Prop :=
  NoDup p /\ forall k, In k p <-> 0 <= k < Z.of_nat n.

(** The positions of [0 .. n-1] that [os] leaves out, in ascending order. *)
Definition omitted (n : nat) (os : list Z) : list Z :=
  filter (fun k => negb (existsb (Z.eqb k) os)) (PyList.range n).

(** The layer that the subscript [o] picks in [l]. *)
Definition pick (l : list loc) (o : Z) : loc := nth (Z.to_nat o) l 0%nat.

(** An ordering as the argument of [reorder]. *)
Definition positions (p : list Z) : pyobj := PSeq (map PInt p).

(** No layer of the collection other than [layer] is named [nm]. *)
Definition unused (s : state) (layer : option loc) (nm : string) : Prop :=
  forall x, In x (_list s) -> Some x <> layer -> name (layers s x) <> nm.

(** The names [nm], [inc nm], [inc (inc nm)], ... that the loop of
    [_coerce_name] goes through. *)
Fixpoint candidates (inc : string -> string) (nm : string) (n : nat)
  : list string :=
  match n with
  | O => []
  | S n' => nm :: candidates inc (inc nm) n'
  end.

Module Naming.
Definition is_digit (c : ascii) : bool :=
  let n := nat_of_ascii c in (48 <=? n)%nat && (n <=? 57)%nat.

Fixpoint span_digits (l : list ascii) : list ascii * list ascii :=
  match l with
  | [] => ([], [])
  | c :: t =>
      if is_digit c
      then let (d, r) := span_digits t in (c :: d, r)
      else ([], l)
  end.

(** Successor of a decimal numeral, lowest digit first. *)
Fixpoint inc_digits (d : list ascii) : list ascii :=
  match d with
  | [] => ["1"%char]
  | c :: t =>
      if Ascii.eqb c "9" then "0"%char :: inc_digits t
      else ascii_of_nat (S (nat_of_ascii c)) :: t
  end.

(** The trailing counter of a name " [digits]", if it has one: the digits,
    lowest first, and what comes before the counter, reversed. *)
Definition counter (nm : string) : option (list ascii * list ascii) :=
  match rev (list_ascii_of_string nm) with
  | "]"%char :: t =>
      match span_digits t with
      | (d :: ds, "["%char :: " "%char :: base) => Some (d :: ds, base)
      | _ => None
      end
  | _ => None
  end.

(** Modelled from the spec: [inc_name_count] of util/naming.py, which is
    not among the sources.  The spec has it increment a trailing counter:
    "foo" becomes "foo [1]" and "foo [1]" becomes "foo [2]". *)
Definition inc_name_count (nm : string) : string :=
  match counter nm with
  | Some (ds, base) =>
      string_of_list_ascii
        (rev ("]"%char :: inc_digits ds ++ "["%char :: " "%char :: base))
  | None => (nm ++ " [1]")%string
  end.

Definition digit_value (c : ascii) : nat := (nat_of_ascii c - 48)%nat.

(** Value of a decimal numeral, lowest digit first. *)
Fixpoint numeral_value (d : list ascii) : nat :=
  match d with
  | [] => 0%nat
  | c :: t => (digit_value c + 10 * numeral_value t)%nat
  end.

(** Zero for a name without a counter, else the counter plus one. *)
Definition rank (nm : string) : nat :=
  match counter nm with
  | Some (ds, _) => S (numeral_value ds)
  | None => 0%nat
  end.
End Naming.

(** Small collections for the examples: the layer objects 0 .. 4 are named
    A .. E, [sel] says which of them are selected, and the object [l] starts
    with the order [-l]. *)
Module Sample.
Definition letter (l : loc) : string :=
  match l with
  | 0%nat => "A"
  | 1%nat => "B"
  | 2%nat => "C"
  | 3%nat => "D"
  | _ => "E"
  end.

Definition store (sel : list loc) (l : loc) : Layer :=
  mkLayer (letter l) (existsb (Nat.eqb l) sel) (- Z.of_nat l) None [] [].

Definition a_viewer : Viewer := mkViewer 0 (mkCanvas 0 0).

(** A collection bound to a viewer. *)
Definition bound (l sel : list loc) : state :=
  mkState l (Some (Some a_viewer)) (store sel) [] false.

(** A collection without a viewer whose emitter has been set to let the
    exceptions of callbacks through. *)
Definition unbound (l sel : list loc) : state :=
  mkState l None (store sel) [] false.

Definition names (s : state) : list string :=
  map (fun l => name (layers s l)) (_list s).

Definition orders (s : state) : list Z :=
  map (fun l => _order (layers s l)) (_list s).
End Sample.


(** The position that the subscript [i] denotes in the collection: a
    negative subscript counts from the end. *)
Definition position (s : state) (i : Z) : Z :=
  if i <? 0 then i + LayersList.__len__ s else i.

(** First position of the layer [x] in [l]. *)
Definition locate (l : list loc) (x : loc) : Z :=
  match PyList.find_from Nat.eqb 0 x l with
  | Some j => j
  | None => 0
  end.

(** The operations that only rearrange the layers. *)
Definition rearranges (op : operation) : Prop :=
  match op with
  | op_swap _ _ | op_reorder _ | op_move _ _ => True
  | _ => False
  end.

(** The layer [x] answers the query [q] of [index]: it is the layer asked
    for, or it carries the name asked for. *)
Definition answers (s : state) (q : pyobj) (x : loc) : Prop :=
  match q with
  | PLayer l => x = l
  | PStr nm => name (layers s x) = nm
  | _ => False
  end.

(** The draw orders go strictly down along the sequence. *)
Definition orders_decreasing (s : state) : Prop :=
  forall (i j : nat) (x y : loc),
    (i < j)%nat ->
    nth_error (_list s) i = Some x -> nth_error (_list s) j = Some y ->
    _order (layers s y) < _order (layers s x).
(* ================================================================= *)
(** ** Facts about the list primitives *)

Section PyListFacts.
Context {A : Type}.
Implicit Types l : list A.

Lemma norm_index_nat l (k : nat) :
  (k < length l)%nat -> PyList.norm_index l (Z.of_nat k) = Some k.
Proof.
  intros Hk. unfold PyList.norm_index, PyList.len.
  replace (Z.of_nat k <? 0) with false by (symmetry; apply Z.ltb_ge; lia).
  replace (0 <=? Z.of_nat k) with true by (symmetry; apply Z.leb_le; lia).
  replace (Z.of_nat k <? Z.of_nat (length l)) with true
    by (symmetry; apply Z.ltb_lt; lia).
  simpl. now rewrite Nat2Z.id.
Qed.

Lemma norm_index_bound l i k :
  PyList.norm_index l i = Some k -> (k < length l)%nat.
Proof.
  unfold PyList.norm_index, PyList.len.
  destruct (i <? 0) eqn:Hi;
    match goal with
    | |- context [(0 <=? ?j) && (?j <? ?n)] =>
        destruct (0 <=? j) eqn:H0; destruct (j <? n) eqn:H1
    end; simpl; try discriminate;
    intros [= <-]; apply Z.leb_le in H0; apply Z.ltb_lt in H1; lia.
Qed.

Lemma fits_ssize_t_within l i :
  - PyList.len l - 1 <= i <= PyList.len l -> PyList.fits_ssize_t l i = true.
Proof.
  intros H. unfold PyList.fits_ssize_t. apply andb_true_iff.
  split; apply Z.leb_le; lia.
Qed.

Lemma fits_ssize_t_small l i :
  - PyList.max_ssize_t - 1 <= i <= PyList.max_ssize_t ->
  PyList.fits_ssize_t l i = true.
Proof.
  intros H. unfold PyList.fits_ssize_t. apply andb_true_iff.
  split; apply Z.leb_le; lia.
Qed.

(** On a list that CPython can hold, the test is the one of the
    conversion to [Py_ssize_t]. *)
Lemma fits_ssize_t_exact l i :
  PyList.len l <= PyList.max_ssize_t ->
  PyList.fits_ssize_t l i
  = (- PyList.max_ssize_t - 1 <=? i) && (i <=? PyList.max_ssize_t).
Proof.
  intros H. unfold PyList.fits_ssize_t. now rewrite Z.max_l by lia.
Qed.

Lemma fits_ssize_t_beyond l i :
  PyList.len l <= PyList.max_ssize_t ->
  i < - PyList.max_ssize_t - 1 \/ PyList.max_ssize_t < i ->
  PyList.fits_ssize_t l i = false.
Proof.
  intros H Hi. rewrite fits_ssize_t_exact by exact H.
  apply andb_false_iff.
  destruct Hi; [left; apply Z.leb_gt|right; apply Z.leb_gt]; lia.
Qed.

Lemma norm_index_too_large l i :
  PyList.len l <= i -> PyList.norm_index l i = None.
Proof.
  intros Hi. unfold PyList.norm_index.
  assert (0 <= PyList.len l) by (unfold PyList.len; lia).
  replace (i <? 0) with false by (symmetry; apply Z.ltb_ge; lia).
  replace (i <? PyList.len l) with false by (symmetry; apply Z.ltb_ge; lia).
  now rewrite andb_false_r.
Qed.

Lemma getitem_nat l (k : nat) x :
  nth_error l k = Some x -> PyList.getitem l (Z.of_nat k) = Some x.
Proof.
  intros H. unfold PyList.getitem.
  rewrite norm_index_nat; [assumption|].
  apply nth_error_Some. congruence.
Qed.

Lemma getitem_too_large l i :
  PyList.len l <= i -> PyList.getitem l i = None.
Proof.
  intros H. unfold PyList.getitem. now rewrite norm_index_too_large.
Qed.

Lemma flat_map_nth_error pre l :
  flat_map (fun k => PyList.opt_list (nth_error (pre ++ l) k))
           (seq (length pre) (length l)) = l.
Proof.
  revert pre. induction l as [|a l IH]; intros pre; [reflexivity|].
  simpl. rewrite nth_error_app2 by lia. rewrite Nat.sub_diag. simpl.
  f_equal.
  specialize (IH (pre ++ [a])).
  rewrite <- app_assoc in IH. simpl in IH.
  rewrite length_app in IH. simpl in IH.
  rewrite Nat.add_1_r in IH. exact IH.
Qed.

(** [l[0:]] is the whole list. *)
Lemma slice_whole l : PyList.slice l (Some 0) None 1 = l.
Proof.
  unfold PyList.slice, PyList.adjust.
  set (n := PyList.len l).
  assert (Hn : n = Z.of_nat (length l)) by reflexivity.
  change (1 <? 0) with false. change (0 <? 0) with false. cbv iota.
  assert (Hlo : (if n <=? 0 then n else 0) = 0).
  { destruct (n <=? 0) eqn:E; [apply Z.leb_le in E; lia | reflexivity]. }
  rewrite Hlo.
  assert (Hc : Z.to_nat (if 0 <? n then (n - 0 - 1) / 1 + 1 else 0)
               = length l).
  { destruct (0 <? n) eqn:E.
    - rewrite Z.div_1_r. lia.
    - apply Z.ltb_ge in E. lia. }
  rewrite Hc.
  rewrite (flat_map_ext _ (fun k => PyList.opt_list (nth_error l k))).
  - exact (flat_map_nth_error [] l).
  - intros k. do 2 f_equal. lia.
Qed.
End PyListFacts.

(* ================================================================= *)
(** ** Lookup *)

Import LayersList.

Lemma name_scan_none lay nm ignore start i l :
  (forall x, In x l -> Some x <> ignore -> name (lay x) <> nm) ->
  name_scan lay nm ignore start i l = None.
Proof.
  revert i. induction l as [|x l IH]; intros i H; [reflexivity|].
  simpl.
  assert (Hrest : name_scan lay nm ignore start (i + 1) l = None).
  { apply IH. intros y Hy. apply H. now right. }
  destruct ignore as [ig|].
  - destruct (Nat.eqb x ig) eqn:E; [exact Hrest|].
    apply Nat.eqb_neq in E.
    destruct (String.eqb (name (lay x)) nm) eqn:En; [|exact Hrest].
    apply String.eqb_eq in En. exfalso.
    apply (H x); [now left | congruence | exact En].
  - destruct (String.eqb (name (lay x)) nm) eqn:En; [|exact Hrest].
    apply String.eqb_eq in En. exfalso.
    apply (H x); [now left | discriminate | exact En].
Qed.

Lemma name_scan_none_inv lay nm ignore start i l :
  name_scan lay nm ignore start i l = None ->
  forall x, In x l -> Some x <> ignore -> name (lay x) <> nm.
Proof.
  revert i. induction l as [|x l IH]; intros i H y Hy Hig; [destruct Hy|].
  simpl in H.
  destruct Hy as [<-|Hy].
  - destruct ignore as [ig|].
    + destruct (Nat.eqb x ig) eqn:E.
      * apply Nat.eqb_eq in E. congruence.
      * destruct (String.eqb (name (lay x)) nm) eqn:En; [discriminate|].
        now apply String.eqb_neq in En.
    + destruct (String.eqb (name (lay x)) nm) eqn:En; [discriminate|].
      now apply String.eqb_neq in En.
  - destruct (match ignore with Some ig => Nat.eqb x ig | None => false end).
    + eapply IH; eassumption.
    + destruct (String.eqb (name (lay x)) nm); [discriminate|].
      eapply IH; eassumption.
Qed.

(** With its default interval, [_name_match] finds nothing exactly when no
    layer other than [ignore] carries the name. *)
Lemma name_match_none_iff s nm ignore :
  _name_match s nm None None ignore = None <-> unused s ignore nm.
Proof.
  unfold unused, _name_match. rewrite slice_whole. split.
  - apply name_scan_none_inv.
  - apply name_scan_none.
Qed.

Lemma getitem_unknown_name s nm :
  (forall x, In x (_list s) -> name (layers s x) <> nm) ->
  __getitem__ s (PStr nm) = Err (KeyError (PStr nm)).
Proof.
  intros H. unfold __getitem__.
  replace (_name_match s nm None None None) with (@None (Z * loc));
    [reflexivity|].
  symmetry. apply name_match_none_iff. intros x Hx _. now apply H.
Qed.

Lemma getitem_out_of_range s i :
  __len__ s <= i -> __getitem__ s (PInt i) = Err (KeyError (PInt i)).
Proof.
  intros H. unfold __getitem__, list_subscript.
  now rewrite getitem_too_large.
Qed.

(** C6: when no layer is named "nonexistent" and the collection holds at most
    99 layers, [collection["nonexistent"]] and [collection[99]] both raise
    KeyError, the lookup by position not raising IndexError. *)
Theorem getitem_failures_are_KeyError (s : state) :
  (forall x, In x (_list s) -> name (layers s x) <> "nonexistent"%string) ->
  (length (_list s) <= 99)%nat ->
  __getitem__ s (PStr "nonexistent") = Err (KeyError (PStr "nonexistent")) /\
  __getitem__ s (PInt 99) = Err (KeyError (PInt 99)).
Proof.
  intros Hname Hlen. split.
  - now apply getitem_unknown_name.
  - apply getitem_out_of_range. unfold __len__, PyList.len. lia.
Qed.

Lemma getitem_failures_are_KeyError_witness :
  let s := Sample.bound [0; 1; 2]%nat [] in
  __getitem__ s (PStr "nonexistent") = Err (KeyError (PStr "nonexistent")) /\
  __getitem__ s (PInt 99) = Err (KeyError (PInt 99)).
Proof.
  intros s. apply (getitem_failures_are_KeyError s).
  - intros x [<-|[<-|[<-|[]]]]; discriminate.
  - simpl. lia.
Defined.

(** C10: [layer in collection] raises TypeError for every collection and
    every layer object, whether or not the layer is in the collection: the
    subscript of the list by a layer is a TypeError, which neither
    [__getitem__] nor [__contains__] catches. *)
Theorem contains_layer_raises_TypeError (s : state) (l : loc) :
  __getitem__ s (PLayer l) = Err TypeError /\
  __contains__ s (PLayer l) = Err TypeError.
Proof. split; reflexivity. Qed.

(* ================================================================= *)
(** ** The callbacks and the notifications *)

Lemma skipn_cons_nth {A} (k : nat) (l : list A) x rest :
  skipn k l = x :: rest -> nth_error l k = Some x /\ skipn (S k) l = rest.
Proof.
  revert l. induction k as [|k IH]; intros [|a l] H; simpl in *;
    try discriminate.
  - now inversion H.
  - now apply IH.
Qed.

Lemma layer_at_nat s (k : nat) x :
  nth_error (_list s) k = Some x -> layer_at (Z.of_nat k) s = Ok x.
Proof.
  intros H. unfold layer_at, __getitem__, list_subscript.
  now rewrite (getitem_nat _ _ _ H).
Qed.

Lemma renumber_loop rest : forall (k : nat) s,
  skipn k (_list s) = rest ->
  for_each (map Z.of_nat (seq k (length rest)))
           (fun i => l <- lift (layer_at i) ;;
                     modify (update_layer l (set_order (- i)))) s
  = Return tt (with_layers (renumber (Z.of_nat k) rest (layers s)) s).
Proof.
  induction rest as [|x rest IH]; intros k s H.
  - destruct s; reflexivity.
  - apply skipn_cons_nth in H. destruct H as [Hx Hrest].
    cbn [length seq map for_each]. unfold bind at 1. unfold bind at 1.
    unfold lift at 1. rewrite (layer_at_nat _ _ _ Hx).
    unfold modify at 1.
    rewrite (IH (S k) (update_layer x (set_order (- Z.of_nat k)) s) Hrest).
    rewrite Nat2Z.inj_succ, <- Z.add_1_r. reflexivity.
Qed.

Lemma _reorder_run s :
  _reorder s =
  let s1 := with_layers (renumber 0 (_list s) (layers s)) s in
  match viewer s with
  | Some v =>
      Return tt (with_viewer
                   (Some (Some (mkViewer (viewer_id v)
                                         (clear_and_update (_canvas v))))) s1)
  | None => Raise AttributeError s1
  end.
Proof.
  unfold _reorder, PyList.range. unfold bind at 1. unfold gets at 1.
  unfold bind at 1.
  rewrite (renumber_loop (_list s) 0 s eq_refl). cbn zeta.
  unfold bind, viewer_attribute, modify, viewer. simpl.
  destruct (_viewer s) as [[v|]|]; reflexivity.
Qed.

Ltac run_callback s :=
  unfold emit, callback; try rewrite _reorder_run;
  destruct s as [?l [[?v|]|] ?lay ?em []];
  unfold _add, _remove, bind, gets, modify, viewer_attribute, viewer;
  simpl.

(** No callback touches the sequence, and each notification is recorded. *)
Lemma emit_list ev s : _list (final (emit ev s)) = _list s.
Proof. destruct ev; run_callback s; reflexivity. Qed.

Lemma emit_emitted ev s : emitted (final (emit ev s)) = emitted s ++ [ev].
Proof. destruct ev; run_callback s; reflexivity. Qed.

Lemma emit_returned ev s : callbacks_return s -> returned (emit ev s) = true.
Proof.
  unfold callbacks_return, viewer. intros H.
  destruct ev; run_callback s; try reflexivity;
    destruct H as [H|H]; simpl in H; congruence.
Qed.

Lemma emit_raises ev s :
  viewer s = None -> ignore_callback_errors s = false ->
  exists s', emit ev s = Raise AttributeError s'.
Proof.
  unfold viewer. intros Hv Hi.
  destruct ev; run_callback s; try discriminate; eexists; reflexivity.
Qed.

Lemma emit_reorder_layers s :
  layers (final (emit reorder_event s)) = renumber 0 (_list s) (layers s).
Proof. run_callback s; reflexivity. Qed.

Lemma emit_add_order l i s :
  _order (layers (final (emit (add_item l i) s)) l) = - __len__ s.
Proof.
  run_callback s; unfold store_update; rewrite ?Nat.eqb_refl; reflexivity.
Qed.

Lemma emit_add_other_layers l i s x :
  x <> l -> layers (final (emit (add_item l i) s)) x = layers s x.
Proof.
  intros H. apply Nat.eqb_neq in H.
  run_callback s; unfold store_update; rewrite ?H; reflexivity.
Qed.

Lemma emit_remove_order l s :
  _order (layers (final (emit (remove_item l) s)) l) = 0.
Proof.
  run_callback s; unfold store_update; rewrite ?Nat.eqb_refl; reflexivity.
Qed.

Lemma emit_remove_other_layers l s x :
  x <> l -> layers (final (emit (remove_item l) s)) x = layers s x.
Proof.
  intros H. apply Nat.eqb_neq in H.
  run_callback s; unfold store_update; rewrite ?H; reflexivity.
Qed.

(** The store after the loop of [_reorder]. *)
Lemma renumber_outside l : forall i lay x,
  ~ In x l -> renumber i l lay x = lay x.
Proof.
  induction l as [|y l IH]; intros i lay x H; [reflexivity|].
  simpl. rewrite IH by (intros ?; apply H; now right).
  unfold store_update.
  destruct (Nat.eqb x y) eqn:E; [|reflexivity].
  apply Nat.eqb_eq in E. exfalso. apply H. now left.
Qed.

Lemma renumber_order l : forall i lay (k : nat) x,
  NoDup l -> nth_error l k = Some x ->
  _order (renumber i l lay x) = - (i + Z.of_nat k).
Proof.
  induction l as [|y l IH]; intros i lay k x Hnd Hk.
  - destruct k; discriminate.
  - inversion Hnd as [|? ? Hy Hnd']; subst. destruct k as [|k]; simpl in *.
    + injection Hk as <-. rewrite renumber_outside by assumption.
      unfold store_update. rewrite Nat.eqb_refl. simpl. f_equal. lia.
    + rewrite (IH _ _ k x Hnd' Hk). lia.
Qed.

Lemma renumber_name l : forall i lay x,
  name (renumber i l lay x) = name (lay x) /\
  selected (renumber i l lay x) = selected (lay x).
Proof.
  induction l as [|y l IH]; intros i lay x; [now split|].
  simpl. destruct (IH (i + 1) (store_update y (set_order (- i)) lay) x)
    as [-> ->].
  unfold store_update. destruct (Nat.eqb x y); now split.
Qed.

Lemma order_invariant_after_emit_reorder s :
  NoDup (_list s) -> order_invariant (final (emit reorder_event s)).
Proof.
  intros Hnd i l Hi. rewrite emit_list in Hi.
  rewrite emit_reorder_layers.
  now rewrite (renumber_order _ 0 _ i l Hnd Hi).
Qed.

(* ================================================================= *)
(** ** Adding layers *)

Lemma callbacks_return_with_list l s :
  callbacks_return (with_list l s) <-> callbacks_return s.
Proof. reflexivity. Qed.

Lemma append_run l s :
  append (PLayer l) s =
  emit (add_item l (PyList.len (_list s ++ [l]) - 1))
       (with_list (_list s ++ [l]) s).
Proof. reflexivity. Qed.

Lemma insert_run s id l p new :
  _to_index s id = Ok p ->
  PyList.insert (_list s) p l = Ok new ->
  insert id (PLayer l) s = emit (add_item l (p - 1)) (with_list new s).
Proof.
  intros H Hn. unfold insert, bind, lift, list_insert. simpl.
  rewrite H. now rewrite Hn.
Qed.

Lemma insert_fails s id l p e :
  _to_index s id = Ok p ->
  PyList.insert (_list s) p l = Err e ->
  insert id (PLayer l) s = Raise e s.
Proof.
  intros H Hn. unfold insert, bind, lift, list_insert. simpl.
  rewrite H. now rewrite Hn.
Qed.

Lemma list_insert_within {A} (l : list A) (p : Z) (x : A) :
  0 <= p <= PyList.len l ->
  PyList.insert l p x
  = Ok (firstn (Z.to_nat p) l ++ x :: skipn (Z.to_nat p) l).
Proof.
  intros H. unfold PyList.insert.
  rewrite fits_ssize_t_within by lia.
  replace (p <? 0) with false by (symmetry; apply Z.ltb_ge; lia).
  now rewrite Z.min_l by lia.
Qed.

(** C8: when the identifier resolves to a position [p] of the collection (or
    to its length), [insert] puts the layer at position [p] and sends one
    add_item notification, whose index is [p - 1]; the call returns whenever
    the callbacks do. *)
Theorem insert_reports_index_before_slot (s : state) (id : pyobj) (l : loc) (p : Z) :
  _to_index s id = Ok p ->
  0 <= p <= __len__ s ->
  let o := insert id (PLayer l) s in
  _list (final o)
    = firstn (Z.to_nat p) (_list s) ++ l :: skipn (Z.to_nat p) (_list s) /\
  nth_error (_list (final o)) (Z.to_nat p) = Some l /\
  emitted (final o) = emitted s ++ [add_item l (p - 1)] /\
  (callbacks_return s -> returned o = true).
Proof.
  intros Hid Hp o. unfold o.
  rewrite (insert_run _ _ _ _ _ Hid (list_insert_within _ _ _ Hp)).
  rewrite emit_list, emit_emitted. cbn [_list emitted with_list].
  unfold __len__, PyList.len in Hp.
  split; [reflexivity|]. split; [|split; [reflexivity|]].
  - rewrite nth_error_app2; rewrite length_firstn, Nat.min_l by lia.
    + now rewrite Nat.sub_diag.
    + lia.
  - intros H. now apply emit_returned.
Qed.

Lemma insert_reports_index_before_slot_witness :
  let s := Sample.bound [0; 1; 2]%nat [] in
  let o := insert (PStr "B") (PLayer 3%nat) s in
  _list (final o) = [0; 3; 1; 2]%nat /\
  emitted (final o) = [add_item 3%nat 0] /\
  returned o = true.
Proof.
  intros s o.
  assert (Hid : _to_index s (PStr "B") = Ok 1) by reflexivity.
  assert (Hp : 0 <= 1 <= __len__ s) by (vm_compute; split; discriminate).
  destruct (insert_reports_index_before_slot s (PStr "B") 3%nat 1 Hid Hp)
    as (Hl & _ & He & Hr).
  split; [exact Hl|]. split; [exact He|].
  apply Hr. left. discriminate.
Defined.

(* ================================================================= *)
(** ** Reordering: how the calls run *)

Lemma reorder_run s ordering new :
  _reordered_list s ordering = Ok new ->
  reorder [PSeq ordering] s = emit reorder_event (with_list new s).
Proof.
  intros H. unfold reorder, bind, lift, modify, ret. simpl. now rewrite H.
Qed.

Lemma reorder_fails s ordering e :
  _reordered_list s ordering = Err e ->
  reorder [PSeq ordering] s = Raise e s.
Proof.
  intros H. unfold reorder, bind, lift, modify, ret. simpl. now rewrite H.
Qed.

(** The positional form of the call, given at least one identifier. *)
Lemma reorder_positional s first rest :
  is_identifier first = true ->
  reorder (first :: rest) s = reorder [PSeq (first :: rest)] s.
Proof.
  intros H. unfold reorder. now rewrite H.
Qed.

(* ================================================================= *)
(** ** Moving layers by drag and drop *)

(** C2 (amended): on [A, B, C, D] with nothing selected,
    [_move_layers(0, 3)] leaves [B, C, A, D]: the layer lands before the
    layer that was at position 3. *)
Theorem move_first_before_fourth (s : state) (a b c d : loc) :
  _list s = [a; b; c; d] ->
  (forall x, In x (_list s) -> selected (layers s x) = false) ->
  let o := _move_layers 0 3 s in
  _list (final o) = [b; c; a; d] /\
  (callbacks_return s -> returned o = true).
Proof.
  intros Hl Hsel o.
  assert (Ha : selected (layers s a) = false).
  { apply Hsel. rewrite Hl. now left. }
  assert (Hrun : o = emit reorder_event (with_list [b; c; a; d] s)).
  { unfold o. rewrite <- (reorder_run s (map PInt [1; 2; 0; 3])).
    - destruct s as [lst v lay em ig]. simpl in Hl, Ha. subst lst.
      cbv -[selected]. rewrite Ha. reflexivity.
    - destruct s as [lst v lay em ig]. simpl in Hl. subst lst. reflexivity. }
  rewrite Hrun, emit_list. split; [reflexivity|].
  intros H. now apply emit_returned.
Qed.

Lemma move_first_before_fourth_witness :
  let o := _move_layers 0 3 (Sample.bound [0; 1; 2; 3]%nat []) in
  _list (final o) = [1; 2; 0; 3]%nat /\ returned o = true.
Proof.
  intros o.
  destruct (move_first_before_fourth
              (Sample.bound [0; 1; 2; 3]%nat []) 0%nat 1%nat 2%nat 3%nat
              eq_refl (fun x _ => eq_refl)) as [Hl Hr].
  split; [exact Hl|]. apply Hr. left. discriminate.
Defined.

(** C2 as the specification has it fails: the call returns and the layers
    are named B, C, A, D, not B, C, D, A. *)
Lemma move_first_to_3_is_not_BCDA :
  let o := _move_layers 0 3 (Sample.bound [0; 1; 2; 3]%nat []) in
  returned o = true /\
  Sample.names (final o) = ["B"; "C"; "A"; "D"]%string /\
  Sample.names (final o) <> ["B"; "C"; "D"; "A"]%string.
Proof.
  cbv zeta. repeat split; try reflexivity. vm_compute. discriminate.
Qed.

(** C3 (amended): on [A, B, C, D, E] with B and D selected,
    [_move_layers(1, 4)] leaves [A, C, B, D, E]: the selected layers end up
    side by side before the layer that was at position 4, in their former
    order, the other layers keep theirs, and no selection flag changes. *)
Theorem move_selected_pair_before_fifth (s : state) (a b c d e : loc) :
  _list s = [a; b; c; d; e] ->
  selected (layers s a) = false ->
  selected (layers s b) = true ->
  selected (layers s c) = false ->
  selected (layers s d) = true ->
  selected (layers s e) = false ->
  let o := _move_layers 1 4 s in
  _list (final o) = [a; c] ++ [b; d] ++ [e] /\
  (forall x, selected (layers (final o) x) = selected (layers s x)) /\
  filter (fun x => selected (layers (final o) x)) (_list (final o)) = [b; d] /\
  filter (fun x => negb (selected (layers (final o) x))) (_list (final o))
    = [a; c; e] /\
  (callbacks_return s -> returned o = true).
Proof.
  intros Hl Ha Hb Hc Hd He o.
  assert (Hrun : o = emit reorder_event (with_list [a; c; b; d; e] s)).
  { unfold o. rewrite <- (reorder_run s (map PInt [0; 2; 1; 3; 4])).
    - destruct s as [lst v lay em ig]. simpl in Hl, Ha, Hb, Hc, Hd, He.
      subst lst.
      cbv -[selected]. rewrite Hb.
      cbv -[selected]. rewrite Ha, Hb, Hc, Hd, He. reflexivity.
    - destruct s as [lst v lay em ig]. simpl in Hl. subst lst. reflexivity. }
  assert (Hflags : forall x,
             selected (layers (final o) x) = selected (layers s x)).
  { intros x. rewrite Hrun, emit_reorder_layers.
    now destruct (renumber_name (_list (with_list [a; c; b; d; e] s)) 0
                                (layers (with_list [a; c; b; d; e] s)) x). }
  assert (Hlist : _list (final o) = [a; c; b; d; e]).
  { now rewrite Hrun, emit_list. }
  repeat split.
  - exact Hlist.
  - exact Hflags.
  - rewrite Hlist. simpl. rewrite !Hflags, Ha, Hb, Hc, Hd, He. reflexivity.
  - rewrite Hlist. simpl. rewrite !Hflags, Ha, Hb, Hc, Hd, He. reflexivity.
  - intros H. rewrite Hrun. now apply emit_returned.
Qed.

Lemma move_selected_pair_before_fifth_witness :
  let o := _move_layers 1 4 (Sample.bound [0; 1; 2; 3; 4]%nat [1; 3]%nat) in
  _list (final o) = [0; 2; 1; 3; 4]%nat /\ returned o = true.
Proof.
  intros o.
  destruct (move_selected_pair_before_fifth
              (Sample.bound [0; 1; 2; 3; 4]%nat [1; 3]%nat)
              0%nat 1%nat 2%nat 3%nat 4%nat
              eq_refl eq_refl eq_refl eq_refl eq_refl eq_refl)
    as (Hl & _ & _ & _ & Hr).
  split; [exact Hl|]. apply Hr. left. discriminate.
Defined.

(** C3 as the specification has it fails: the call returns and the layers
    are named A, C, B, D, E, not A, C, E, B, D. *)
Lemma move_selected_pair_to_4_is_not_ACEBD :
  let o := _move_layers 1 4 (Sample.bound [0; 1; 2; 3; 4]%nat [1; 3]%nat) in
  returned o = true /\
  Sample.names (final o) = ["A"; "C"; "B"; "D"; "E"]%string /\
  Sample.names (final o) <> ["A"; "C"; "E"; "B"; "D"]%string.
Proof.
  cbv zeta. repeat split; try reflexivity. vm_compute. discriminate.
Qed.

(* ================================================================= *)
(** ** Reordering: validation of the ordering *)

Lemma remove_absent (o : Z) (E : list Z) :
  ~ In o E -> PyList.remove Z.eqb o E = None.
Proof.
  induction E as [|y E IH]; intros H; [reflexivity|]. simpl.
  destruct (Z.eqb y o) eqn:Ey.
  - apply Z.eqb_eq in Ey. exfalso. apply H. now left.
  - rewrite IH; [reflexivity|]. intros ?. apply H. now right.
Qed.

Lemma filter_other_absent (o : Z) (E : list Z) :
  ~ In o E -> filter (fun k => negb (k =? o)) E = E.
Proof.
  intros H. apply forallb_filter_id. apply forallb_forall.
  intros x Hx. apply negb_true_iff, Z.eqb_neq. congruence.
Qed.

Lemma remove_present (o : Z) (E : list Z) :
  NoDup E -> In o E ->
  PyList.remove Z.eqb o E = Some (filter (fun k => negb (k =? o)) E).
Proof.
  induction E as [|y E IH]; intros Hnd Hin; [destruct Hin|].
  inversion Hnd as [|? ? Hy Hnd']; subst. simpl.
  destruct (Z.eqb y o) eqn:Ey; simpl.
  - apply Z.eqb_eq in Ey. subst y. now rewrite filter_other_absent.
  - apply Z.eqb_neq in Ey. destruct Hin as [Hin|Hin]; [congruence|].
    now rewrite IH.
Qed.

Lemma getitem_within (l : list loc) (o : Z) :
  0 <= o < PyList.len l -> PyList.getitem l o = Some (pick l o).
Proof.
  intros H. unfold PyList.len in H.
  rewrite <- (Z2Nat.id o) at 1 by lia.
  apply getitem_nat. unfold pick. apply nth_error_nth'. lia.
Qed.

Lemma in_range (n : nat) (k : Z) :
  In k (PyList.range n) <-> 0 <= k < Z.of_nat n.
Proof.
  unfold PyList.range. rewrite in_map_iff. split.
  - intros (j & <- & Hj). apply in_seq in Hj. lia.
  - intros H. exists (Z.to_nat k). split; [lia|]. apply in_seq. lia.
Qed.

Lemma range_NoDup (n : nat) : NoDup (PyList.range n).
Proof.
  unfold PyList.range.
  apply NoDup_map_NoDup_ForallPairs; [|apply seq_NoDup].
  intros x y _ _. apply Nat2Z.inj.
Qed.

Lemma filter_twice {A} (f g : A -> bool) (l : list A) :
  filter f (filter g l) = filter (fun x => g x && f x) l.
Proof.
  induction l as [|x l IH]; [reflexivity|]. simpl.
  destruct (g x); simpl; [destruct (f x)|]; now rewrite IH.
Qed.

Lemma in_omitted (n : nat) (os : list Z) (k : Z) :
  In k (omitted n os) <-> 0 <= k < Z.of_nat n /\ ~ In k os.
Proof.
  unfold omitted. rewrite filter_In, in_range, negb_true_iff.
  split; intros [H1 H2]; split; try assumption.
  - intros Hin. rewrite <- not_true_iff_false in H2. apply H2.
    apply existsb_exists. exists k. split; [assumption|apply Z.eqb_refl].
  - apply not_true_iff_false. intros He. apply existsb_exists in He.
    destruct He as (x & Hx & Hk). apply Z.eqb_eq in Hk. now subst.
Qed.

(** A list of distinct positions taken from the expected ones goes through
    the generator; what is left of the expected positions decides how it
    ends. *)
Lemma reordered_from_positions s : forall os E,
  NoDup E -> (forall o, In o E -> 0 <= o < __len__ s) ->
  NoDup os -> incl os E ->
  reordered_from s E (map PInt os) =
  match filter (fun k => negb (existsb (Z.eqb k) os)) E with
  | [] => Ok (map (pick (_list s)) os)
  | m => Err (ValueError (VE_indices_not_provided m))
  end.
Proof.
  induction os as [|o os IH]; intros E HE Hval Hos Hincl.
  - simpl. rewrite forallb_filter_id by (now apply forallb_forall).
    now destruct E.
  - inversion Hos as [|? ? Ho Hos']; subst.
    cbn [map reordered_from].
    change (_to_index s (PInt o)) with (@Ok Z o). cbv beta iota.
    assert (HoE : In o E) by (apply Hincl; now left).
    rewrite (remove_present _ _ HE HoE).
    rewrite (getitem_within _ _ (Hval _ HoE)).
    rewrite IH.
    + rewrite filter_twice.
      rewrite (filter_ext (fun k => negb (existsb (Z.eqb k) (o :: os)))
                          (fun k => negb (k =? o)
                                    && negb (existsb (Z.eqb k) os))).
      * now destruct (filter _ E).
      * intros k. simpl. apply negb_orb.
    + now apply NoDup_filter.
    + intros k Hk. apply filter_In in Hk. now apply Hval.
    + assumption.
    + intros k Hk. apply filter_In. split.
      * apply Hincl. now right.
      * apply negb_true_iff, Z.eqb_neq. congruence.
Qed.

(** A list of positions with a repeat, or with a position that is not
    expected, ends the generator with 'duplicate index'. *)
Lemma reordered_from_duplicate s : forall os E,
  NoDup E -> (forall o, In o E -> 0 <= o < __len__ s) ->
  ~ NoDup os \/ ~ incl os E ->
  exists o, In o os /\
    reordered_from s E (map PInt os) = Err (ValueError (VE_duplicate_index o)).
Proof.
  induction os as [|o os IH]; intros E HE Hval Hbad.
  - exfalso. destruct Hbad as [H|H]; apply H; [constructor|intros ? []].
  - cbn [map reordered_from].
    change (_to_index s (PInt o)) with (@Ok Z o). cbv beta iota.
    destruct (in_dec Z.eq_dec o E) as [HoE|HoE].
    + rewrite (remove_present _ _ HE HoE).
      rewrite (getitem_within _ _ (Hval _ HoE)).
      set (E' := filter (fun k => negb (k =? o)) E).
      assert (HoE' : ~ In o E').
      { unfold E'. rewrite filter_In, negb_true_iff, Z.eqb_neq. tauto. }
      destruct (IH E') as (o' & Ho' & Hr).
      * now apply NoDup_filter.
      * intros k Hk. apply filter_In in Hk. now apply Hval.
      * destruct (in_dec Z.eq_dec o os) as [Hoos|Hoos].
        -- right. intros Hi. apply HoE'. now apply Hi.
        -- destruct Hbad as [Hbad|Hbad].
           ++ left. intros Hn. apply Hbad. now constructor.
           ++ right. intros Hi. apply Hbad. intros k [<-|Hk];
                [assumption|].
              apply Hi in Hk. now apply filter_In in Hk.
      * exists o'. split; [now right|]. now rewrite Hr.
    + exists o. split; [now left|]. now rewrite remove_absent.
Qed.

(** C4: [reorder] with a list of positions that repeats one raises
    'duplicate index', and with a list of distinct positions of the
    collection that leaves some out it raises 'indices ... not provided',
    naming the positions left out and no other; either way the call leaves
    the whole state, the sequence included, as it was.  The positional form
    of the call with a repeat fails the same way. *)
Theorem reorder_rejects_bad_orderings (s : state) (os : list Z) :
  ((exists l1 v l2 l3, os = l1 ++ v :: l2 ++ v :: l3) ->
   exists o,
     reorder [positions os] s = Raise (ValueError (VE_duplicate_index o)) s /\
     reorder (map PInt os) s = Raise (ValueError (VE_duplicate_index o)) s) /\
  (NoDup os ->
   (forall o, In o os -> 0 <= o < __len__ s) ->
   (exists k, 0 <= k < __len__ s /\ ~ In k os) ->
   let missing := omitted (length (_list s)) os in
   reorder [positions os] s
     = Raise (ValueError (VE_indices_not_provided missing)) s /\
   (forall k, In k missing <-> 0 <= k < __len__ s /\ ~ In k os)).
Proof.
  assert (Hval : forall o, In o (PyList.range (length (_list s))) ->
                           0 <= o < __len__ s).
  { intros o Ho. now apply in_range in Ho. }
  split.
  - intros (l1 & v & l2 & l3 & Hos).
    destruct (reordered_from_duplicate s os (PyList.range (length (_list s))))
      as (o & _ & Hr).
    + apply range_NoDup.
    + exact Hval.
    + left. intros Hnd. rewrite Hos in Hnd.
      apply NoDup_remove_2 in Hnd. apply Hnd.
      apply in_or_app. right. apply in_or_app. right. now left.
    + exists o.
      assert (Hseq : reorder [positions os] s
                     = Raise (ValueError (VE_duplicate_index o)) s)
        by now apply reorder_fails.
      split; [exact Hseq|].
      destruct os as [|o1 os1]; [now destruct l1|].
      cbn [map]. now rewrite reorder_positional.
  - intros Hnd Hin (k & Hk & Hkos) missing. split.
    + apply reorder_fails. unfold _reordered_list.
      rewrite reordered_from_positions.
      * fold (omitted (length (_list s)) os). fold missing.
        destruct missing as [|m ms] eqn:Hm; [|reflexivity].
        exfalso. assert (Hkm : In k missing) by now apply in_omitted.
        rewrite Hm in Hkm. destruct Hkm.
      * apply range_NoDup.
      * exact Hval.
      * exact Hnd.
      * intros o Ho. apply in_range. now apply Hin.
    + intros j. apply in_omitted.
Qed.

Lemma reorder_rejects_bad_orderings_witness :
  let s := Sample.bound [0; 1; 2; 3]%nat [] in
  (exists o, reorder [positions [1; 0; 1]] s
             = Raise (ValueError (VE_duplicate_index o)) s) /\
  reorder [positions [3; 1]] s
    = Raise (ValueError (VE_indices_not_provided [0; 2])) s.
Proof.
  intros s. split.
  - destruct (proj1 (reorder_rejects_bad_orderings s [1; 0; 1])) as (o & Ho & _).
    + exists [], 1, [0], []. reflexivity.
    + exists o. exact Ho.
  - apply (proj2 (reorder_rejects_bad_orderings s [3; 1])).
    + repeat constructor; simpl; intuition discriminate.
    + intros o [<-|[<-|[]]]; vm_compute; split; congruence.
    + exists 0. split; [vm_compute; split; congruence|].
      simpl. intuition discriminate.
Defined.

(* ================================================================= *)
(** ** Reordering: orderings and their inverses *)

Lemma range_length (n : nat) : length (PyList.range n) = n.
Proof. unfold PyList.range. now rewrite length_map, length_seq. Qed.

Lemma is_ordering_length (n : nat) (p : list Z) :
  is_ordering n p -> length p = n.
Proof.
  intros [Hnd Hin].
  transitivity (length (PyList.range n)); [|apply range_length].
  apply Permutation_length, NoDup_Permutation.
  - exact Hnd.
  - apply range_NoDup.
  - intros k. now rewrite in_range.
Qed.

Lemma omitted_nothing (n : nat) (p : list Z) :
  is_ordering n p -> omitted n p = [].
Proof.
  intros [_ Hin]. destruct (omitted n p) as [|k ks] eqn:E; [reflexivity|].
  assert (Hk : In k (omitted n p)) by (rewrite E; now left).
  apply in_omitted in Hk. destruct Hk as [Hk Hnk].
  exfalso. apply Hnk. now apply Hin.
Qed.

(** An ordering goes through the generator, which gives the layers in the
    order asked for. *)
Lemma reordered_list_ordering s (p : list Z) :
  is_ordering (length (_list s)) p ->
  _reordered_list s (map PInt p) = Ok (map (pick (_list s)) p).
Proof.
  intros Hp. unfold _reordered_list.
  rewrite reordered_from_positions.
  - fold (omitted (length (_list s)) p). now rewrite omitted_nothing.
  - apply range_NoDup.
  - intros o Ho. now apply in_range in Ho.
  - apply Hp.
  - intros o Ho. apply in_range. now apply Hp.
Qed.

Lemma position_of_spec (p : list Z) (k d : Z) :
  In k p ->
  0 <= position_of k p < Z.of_nat (length p) /\
  nth (Z.to_nat (position_of k p)) p d = k.
Proof.
  induction p as [|x t IH]; intros Hin; [destruct Hin|].
  cbn [position_of length]. destruct (Z.eqb x k) eqn:E.
  - apply Z.eqb_eq in E. split; [lia|assumption].
  - apply Z.eqb_neq in E. destruct Hin as [Hin|Hin]; [congruence|].
    destruct (IH Hin) as [Hb Hn]. split; [lia|].
    replace (Z.to_nat (1 + position_of k t))
      with (S (Z.to_nat (position_of k t))) by lia.
    exact Hn.
Qed.

Lemma position_of_nth (p : list Z) : forall (i : nat) (d : Z),
  NoDup p -> (i < length p)%nat -> position_of (nth i p d) p = Z.of_nat i.
Proof.
  induction p as [|x t IH]; intros i d Hnd Hi; [simpl in Hi; lia|].
  inversion Hnd as [|? ? Hx Hnd']; subst.
  destruct i as [|i]; cbn [nth position_of].
  - now rewrite Z.eqb_refl.
  - simpl in Hi.
    assert (Hne : x <> nth i t d).
    { intros ->. apply Hx. apply nth_In. lia. }
    apply Z.eqb_neq in Hne. rewrite Hne, IH by (assumption || lia). lia.
Qed.

Lemma inverse_is_ordering (n : nat) (p : list Z) :
  is_ordering n p -> is_ordering n (inverse_ordering p).
Proof.
  intros Hp. pose proof (is_ordering_length _ _ Hp) as Hlen.
  destruct Hp as [Hnd Hin]. unfold inverse_ordering. rewrite Hlen. split.
  - apply NoDup_map_NoDup_ForallPairs; [|apply range_NoDup].
    intros x y Hx Hy Heq.
    apply in_range, Hin in Hx. apply in_range, Hin in Hy.
    destruct (position_of_spec p x 0 Hx) as [_ <-].
    destruct (position_of_spec p y 0 Hy) as [_ <-].
    now rewrite Heq.
  - intros k. rewrite in_map_iff. split.
    + intros (x & <- & Hx). apply in_range, Hin in Hx.
      destruct (position_of_spec p x 0 Hx) as [Hb _]. lia.
    + intros Hk. exists (nth (Z.to_nat k) p 0). split.
      * rewrite position_of_nth by (assumption || lia). lia.
      * apply in_range, Hin, nth_In. lia.
Qed.

Lemma map_nth_seq {A} (d : A) (l : list A) : forall pre,
  map (fun i => nth i (pre ++ l) d) (seq (length pre) (length l)) = l.
Proof.
  induction l as [|a l IH]; intros pre; [reflexivity|].
  cbn [length seq map]. f_equal.
  - rewrite app_nth2 by lia. now rewrite Nat.sub_diag.
  - specialize (IH (pre ++ [a])).
    rewrite <- app_assoc, length_app, Nat.add_1_r in IH. exact IH.
Qed.

Lemma map_pick_range (l : list loc) :
  map (pick l) (PyList.range (length l)) = l.
Proof.
  unfold PyList.range, pick. rewrite map_map.
  rewrite (map_ext _ (fun i => nth i l 0%nat))
    by (intros i; now rewrite Nat2Z.id).
  exact (map_nth_seq 0%nat l []).
Qed.

(** Picking by the inverse among the layers picked by [p] gives back the
    sequence. *)
Lemma pick_inverse (l : list loc) (p : list Z) :
  is_ordering (length l) p ->
  map (pick (map (pick l) p)) (inverse_ordering p) = l.
Proof.
  intros Hp. pose proof (is_ordering_length _ _ Hp) as Hlen.
  destruct Hp as [Hnd Hin].
  unfold inverse_ordering. rewrite map_map, Hlen.
  transitivity (map (pick l) (PyList.range (length l)));
    [|apply map_pick_range].
  apply map_ext_in. intros k Hk. apply in_range, Hin in Hk.
  destruct (position_of_spec p k 0 Hk) as [Hb Hn].
  unfold pick at 1.
  rewrite (nth_indep _ 0%nat (pick l 0)) by (rewrite length_map; lia).
  now rewrite map_nth, Hn.
Qed.

Lemma emit_callbacks_return ev s :
  callbacks_return s -> callbacks_return (final (emit ev s)).
Proof.
  unfold callbacks_return, viewer. intros H.
  destruct ev; run_callback s; simpl in H;
    solve [ left; discriminate | right; reflexivity
          | destruct H as [H|H]; congruence ].
Qed.

(** C9: for an ordering [p] of the positions of the collection, [reorder(p)]
    puts the layers in the order [p] asks for, and [reorder] with the
    inverse of [p] then puts the sequence back as it was; both calls send
    their notification, and return whenever the callbacks do. *)
Theorem reorder_then_inverse_restores (s : state) (p : list Z) :
  is_ordering (length (_list s)) p ->
  let o1 := reorder [positions p] s in
  let o2 := reorder [positions (inverse_ordering p)] (final o1) in
  _list (final o1) = map (pick (_list s)) p /\
  _list (final o2) = _list s /\
  emitted (final o2) = emitted s ++ [reorder_event; reorder_event] /\
  (callbacks_return s -> returned o1 = true /\ returned o2 = true).
Proof.
  intros Hp o1 o2.
  assert (H1 : o1 = emit reorder_event
                      (with_list (map (pick (_list s)) p) s)).
  { apply reorder_run. now apply reordered_list_ordering. }
  assert (Hl1 : _list (final o1) = map (pick (_list s)) p).
  { now rewrite H1, emit_list. }
  assert (Hn1 : length (_list (final o1)) = length (_list s)).
  { rewrite Hl1, length_map. now apply is_ordering_length. }
  assert (H2 : o2 = emit reorder_event
                      (with_list (map (pick (_list (final o1)))
                                      (inverse_ordering p)) (final o1))).
  { apply reorder_run. apply reordered_list_ordering.
    rewrite Hn1. now apply inverse_is_ordering. }
  split; [exact Hl1|]. split; [|split].
  - rewrite H2, emit_list. cbn [_list with_list].
    rewrite Hl1. now apply pick_inverse.
  - rewrite H2, emit_emitted. cbn [emitted with_list].
    rewrite H1, emit_emitted. cbn [emitted with_list].
    now rewrite <- app_assoc.
  - intros Hc. split.
    + rewrite H1. now apply emit_returned.
    + rewrite H2. apply emit_returned, callbacks_return_with_list.
      rewrite H1. now apply emit_callbacks_return.
Qed.

Lemma reorder_then_inverse_restores_witness :
  let s := Sample.bound [0; 1; 2]%nat [] in
  let o1 := reorder [positions [1; 2; 0]] s in
  let o2 := reorder [positions (inverse_ordering [1; 2; 0])] (final o1) in
  _list (final o1) = [1; 2; 0]%nat /\
  _list (final o2) = [0; 1; 2]%nat /\
  returned o1 = true /\ returned o2 = true.
Proof.
  intros s o1 o2.
  assert (Hp : is_ordering (length (_list s)) [1; 2; 0]).
  { split.
    - repeat constructor; simpl; intuition discriminate.
    - intros k. change (Z.of_nat (length (_list s))) with 3. simpl. lia. }
  destruct (reorder_then_inverse_restores s [1; 2; 0] Hp)
    as (H1 & H2 & _ & Hr).
  split; [exact H1|]. split; [exact H2|].
  apply Hr. left. discriminate.
Defined.

(* ================================================================= *)
(** ** The draw order *)

Lemma remove_some_perm (o : Z) : forall E E',
  PyList.remove Z.eqb o E = Some E' -> Permutation E (o :: E').
Proof.
  induction E as [|y E IH]; intros E' H; [discriminate|]. simpl in H.
  destruct (Z.eqb y o) eqn:Ey.
  - apply Z.eqb_eq in Ey. injection H as <-. now subst.
  - destruct (PyList.remove Z.eqb o E) as [t|]; [|discriminate].
    injection H as <-. rewrite (IH t eq_refl). apply perm_swap.
Qed.

(** Whatever identifiers the ordering is made of, a run of the generator to
    its end has consumed the expected positions, each once. *)
Lemma reordered_from_sound s : forall ordering E new,
  reordered_from s E ordering = Ok new ->
  exists os, Permutation os E /\
             Forall2 (fun o x => PyList.getitem (_list s) o = Some x) os new.
Proof.
  induction ordering as [|obj rest IH]; intros E new H; simpl in H.
  - destruct E; [|discriminate]. injection H as <-. now exists [].
  - destruct (_to_index s obj) as [o|]; [|discriminate].
    destruct (PyList.remove Z.eqb o E) as [E'|] eqn:HE; [|discriminate].
    destruct (PyList.getitem (_list s) o) as [x|] eqn:Hx; [|discriminate].
    destruct (reordered_from s E' rest) as [t|] eqn:Ht; [|discriminate].
    injection H as <-.
    destruct (IH E' t Ht) as (os & Hperm & Hall).
    exists (o :: os). split.
    + rewrite (remove_some_perm _ _ _ HE). now constructor.
    + now constructor.
Qed.

Lemma getitem_range (l : list loc) : forall pre,
  Forall2 (fun o x => PyList.getitem (pre ++ l) o = Some x)
          (map Z.of_nat (seq (length pre) (length l))) l.
Proof.
  induction l as [|a l IH]; intros pre; [constructor|].
  cbn [length seq map]. constructor.
  - apply getitem_nat. rewrite nth_error_app2 by lia.
    now rewrite Nat.sub_diag.
  - specialize (IH (pre ++ [a])).
    rewrite <- app_assoc, length_app, Nat.add_1_r in IH. exact IH.
Qed.

Lemma Forall2_functional {A B} (R : A -> B -> Prop) :
  (forall a b b', R a b -> R a b' -> b = b') ->
  forall l m m', Forall2 R l m -> Forall2 R l m' -> m = m'.
Proof.
  intros HR l m m' H. revert m'.
  induction H as [|a b l m Hab _ IH]; intros m' H'; inversion H'; subst.
  - reflexivity.
  - f_equal; [eapply HR; eassumption | now apply IH].
Qed.

(** What [reorder] installs is a rearrangement of the sequence. *)
Lemma reordered_list_permutation s ordering new :
  _reordered_list s ordering = Ok new -> Permutation new (_list s).
Proof.
  intros H. apply reordered_from_sound in H.
  destruct H as (os & Hperm & Hall).
  destruct (Permutation_Forall2 Hperm Hall) as (new' & Hpn & Hall').
  rewrite Hpn. apply Permutation_refl'.
  eapply Forall2_functional; [|exact Hall'|exact (getitem_range (_list s) [])].
  intros a b b' Hb Hb'. simpl in Hb'. congruence.
Qed.

Lemma reorder_returns args s s' :
  reorder args s = Return tt s' ->
  exists ordering new,
    _reordered_list s ordering = Ok new /\
    emit reorder_event (with_list new s) = Return tt s'.
Proof.
  unfold reorder. destruct args as [|first rest]; [discriminate|].
  unfold bind, lift, modify, ret, raise.
  destruct (is_identifier first).
  - destruct (_reordered_list s (first :: rest)) as [new|] eqn:E;
      [|discriminate].
    intros H. now exists (first :: rest), new.
  - destruct first; try discriminate.
    destruct (_reordered_list s items) as [new|] eqn:E; [|discriminate].
    intros H. now exists items, new.
Qed.

Section ReplaceNth.
Context {A : Type}.
Implicit Types l : list A.

Lemma length_replace_nth k x l :
  length (PyList.replace_nth k x l) = length l.
Proof.
  revert k. induction l as [|a l IH]; intros [|k]; simpl; auto.
Qed.

Lemma nth_error_replace_nth_eq k x l :
  (k < length l)%nat -> nth_error (PyList.replace_nth k x l) k = Some x.
Proof.
  revert k. induction l as [|a l IH]; intros [|k] H; simpl in *;
    try lia; [reflexivity|]. apply IH. lia.
Qed.

Lemma nth_error_replace_nth_neq k m x l :
  m <> k -> nth_error (PyList.replace_nth k x l) m = nth_error l m.
Proof.
  revert k m. induction l as [|a l IH]; intros [|k] [|m] H; simpl;
    try reflexivity; try congruence. apply IH. congruence.
Qed.

Lemma norm_index_same_length l l' i :
  length l = length l' -> PyList.norm_index l i = PyList.norm_index l' i.
Proof. intros H. unfold PyList.norm_index, PyList.len. now rewrite H. Qed.

(** Exchanging two elements keeps the elements distinct. *)
Lemma NoDup_exchange l ki kj xi xj :
  NoDup l ->
  nth_error l ki = Some xi -> nth_error l kj = Some xj ->
  NoDup (PyList.replace_nth kj xi (PyList.replace_nth ki xj l)).
Proof.
  intros Hnd Hi Hj.
  assert (Hki : (ki < length l)%nat) by (apply nth_error_Some; congruence).
  assert (Hkj : (kj < length l)%nat) by (apply nth_error_Some; congruence).
  pose proof (proj1 (NoDup_nth_error l) Hnd) as Hinj.
  assert (Hval : forall m,
    nth_error (PyList.replace_nth kj xi (PyList.replace_nth ki xj l)) m
    = if Nat.eqb m kj then nth_error l ki
      else if Nat.eqb m ki then nth_error l kj
      else nth_error l m).
  { intros m. destruct (Nat.eqb m kj) eqn:E1.
    - apply Nat.eqb_eq in E1. subst m.
      rewrite nth_error_replace_nth_eq, Hi
        by (now rewrite length_replace_nth).
      reflexivity.
    - apply Nat.eqb_neq in E1.
      rewrite nth_error_replace_nth_neq by assumption.
      destruct (Nat.eqb m ki) eqn:E2.
      + apply Nat.eqb_eq in E2. subst m.
        now rewrite nth_error_replace_nth_eq, Hj.
      + apply Nat.eqb_neq in E2.
        now rewrite nth_error_replace_nth_neq. }
  apply NoDup_nth_error. intros a b Ha Hab.
  rewrite !length_replace_nth in Ha. rewrite !Hval in Hab.
  destruct (Nat.eqb a kj) eqn:Ea1; destruct (Nat.eqb a ki) eqn:Ea2;
    destruct (Nat.eqb b kj) eqn:Eb1; destruct (Nat.eqb b ki) eqn:Eb2;
    repeat match goal with
           | H : Nat.eqb _ _ = true |- _ => apply Nat.eqb_eq in H
           | H : Nat.eqb _ _ = false |- _ => apply Nat.eqb_neq in H
           end;
    try lia;
    first [ apply Hinj in Hab; [lia | assumption]
          | symmetry in Hab; apply Hinj in Hab; [lia | assumption] ].
Qed.
End ReplaceNth.

Lemma swap_returns a b s s' :
  swap a b s = Return tt s' ->
  exists ki kj xi xj,
    nth_error (_list s) ki = Some xi /\
    nth_error (_list s) kj = Some xj /\
    emit reorder_event
         (with_list (PyList.replace_nth kj xi
                       (PyList.replace_nth ki xj (_list s))) s)
    = Return tt s'.
Proof.
  unfold swap, bind, lift, list_get, list_set.
  destruct (_to_index s a) as [i|]; [|discriminate].
  destruct (_to_index s b) as [j|]; [|discriminate].
  unfold PyList.getitem, PyList.setitem.
  destruct (PyList.norm_index (_list s) j) as [kj|] eqn:Ej; [|discriminate].
  destruct (nth_error (_list s) kj) as [xj|] eqn:Hxj; [|discriminate].
  destruct (PyList.norm_index (_list s) i) as [ki|] eqn:Ei; [|discriminate].
  destruct (nth_error (_list s) ki) as [xi|] eqn:Hxi; [|discriminate].
  rewrite Ei. cbn [_list with_list].
  rewrite (norm_index_same_length
             (PyList.replace_nth ki xj (_list s)) (_list s) j)
    by apply length_replace_nth.
  rewrite Ej. intros H. now exists ki, kj, xi, xj.
Qed.

(** C1 (amended): on a collection that holds no layer twice, after [swap]
    or [reorder] returns every layer at position [i] has the draw order
    [-i]. *)
Theorem order_invariant_after_rearrangement
        (r : rearrangement) (s s' : state) :
  NoDup (_list s) ->
  rearrange r s = Return tt s' ->
  order_invariant s'.
Proof.
  intros Hnd Hrun.
  assert (Hemit : exists new, NoDup new /\
            emit reorder_event (with_list new s) = Return tt s').
  { destruct r as [a b|args]; simpl in Hrun.
    - apply swap_returns in Hrun.
      destruct Hrun as (ki & kj & xi & xj & Hi & Hj & He).
      eexists. split; [|exact He]. now apply NoDup_exchange.
    - apply reorder_returns in Hrun.
      destruct Hrun as (ordering & new & Hnew & He).
      exists new. split; [|exact He].
      apply reordered_list_permutation in Hnew.
      eapply Permutation_NoDup; [symmetry; exact Hnew|exact Hnd]. }
  destruct Hemit as (new & Hnew & He).
  change s' with (final (Return tt s')). rewrite <- He.
  now apply order_invariant_after_emit_reorder.
Qed.

Lemma order_invariant_after_rearrangement_witness :
  order_invariant
    (final (swap (PStr "A") (PInt (-1)) (Sample.bound [2; 0; 1]%nat []))) /\
  order_invariant
    (final (reorder [PInt 2; PStr "C"; PLayer 0%nat]
                    (Sample.bound [2; 0; 1]%nat []))).
Proof.
  split.
  - apply (order_invariant_after_rearrangement
             (by_swap (PStr "A") (PInt (-1)))
             (Sample.bound [2; 0; 1]%nat [])).
    + repeat constructor; simpl; intuition discriminate.
    + reflexivity.
  - apply (order_invariant_after_rearrangement
             (by_reorder [PInt 2; PStr "C"; PLayer 0%nat])
             (Sample.bound [2; 0; 1]%nat [])).
    + repeat constructor; simpl; intuition discriminate.
    + reflexivity.
Defined.

(** C1 as the specification has it fails.  Each call below returns.
    [append] on the empty collection leaves its layer at position 0 with
    the order -1.  On [A, B] with the orders 0, -1, [insert] at position 0
    gives the new layer the order -3 and leaves the other orders alone.  On
    [A, B, C] with the orders 0, -1, -2, [pop(0)] leaves B and C with the
    orders -1, -2 at positions 0 and 1.  And a layer object that the
    collection holds twice has one order for its two positions, also after
    [reorder]. *)
Lemma order_invariant_counterexamples :
  (let o := append (PLayer 0%nat) (Sample.bound [] []) in
   returned o = true /\ Sample.orders (final o) = [-1] /\
   ~ order_invariant (final o)) /\
  (let s := Sample.bound [0; 1]%nat [] in
   let o := insert (PInt 0) (PLayer 2%nat) s in
   Sample.orders s = [0; -1] /\
   returned o = true /\ Sample.orders (final o) = [-3; 0; -1] /\
   ~ order_invariant (final o)) /\
  (let s := Sample.bound [0; 1; 2]%nat [] in
   let o := pop (PInt 0) s in
   Sample.orders s = [0; -1; -2] /\
   returned o = true /\ Sample.orders (final o) = [-1; -2] /\
   ~ order_invariant (final o)) /\
  (let o := reorder [PInt 1; PInt 0] (Sample.bound [0; 0]%nat []) in
   returned o = true /\ Sample.orders (final o) = [-1; -1] /\
   ~ order_invariant (final o)).
Proof.
  cbv zeta. repeat split; try reflexivity;
    intros H; specialize (H 0%nat _ eq_refl); vm_compute in H; discriminate.
Qed.

(** What [append] does to the orders: the layer added gets minus the new
    length, and no other layer is touched. *)
Lemma append_order (s : state) (l : loc) :
  let s' := final (append (PLayer l) s) in
  _order (layers s' l) = - (__len__ s + 1) /\
  (forall x, x <> l -> layers s' x = layers s x).
Proof.
  cbv zeta. rewrite append_run. split.
  - rewrite emit_add_order. unfold __len__, PyList.len. cbn [_list with_list].
    rewrite length_app. simpl. lia.
  - intros x Hx. now rewrite emit_add_other_layers.
Qed.

Lemma insert_order (s : state) (id : pyobj) (l : loc) (p : Z) :
  _to_index s id = Ok p ->
  PyList.fits_ssize_t (_list s) p = true ->
  let s' := final (insert id (PLayer l) s) in
  _order (layers s' l) = - (__len__ s + 1) /\
  (forall x, x <> l -> layers s' x = layers s x).
Proof.
  intros Hid Hfit. cbv zeta.
  assert (Hins : exists new, PyList.insert (_list s) p l = Ok new /\
                             length new = S (length (_list s))).
  { unfold PyList.insert. rewrite Hfit. eexists. split; [reflexivity|].
    rewrite length_app. cbn [length].
    rewrite length_firstn, length_skipn. lia. }
  destruct Hins as (new & Hins & Hlen).
  rewrite (insert_run _ _ _ _ _ Hid Hins). split.
  - rewrite emit_add_order. unfold __len__, PyList.len.
    cbn [_list with_list]. rewrite Hlen. lia.
  - intros x Hx. now rewrite emit_add_other_layers.
Qed.

(** What [pop] does: the layer at the position leaves the list and gets the
    order 0, and no other layer is touched. *)
Lemma pop_order (s : state) (id : pyobj) (p : Z) (x : loc) (rest : list loc) :
  _to_index s id = Ok p ->
  PyList.pop (_list s) p = Ok (x, rest) ->
  let s' := final (pop id s) in
  _list s' = rest /\
  _order (layers s' x) = 0 /\
  (forall y, y <> x -> layers s' y = layers s y).
Proof.
  intros Hid Hpop. cbv zeta.
  assert (Hrun : final (pop id s)
                 = final (emit (remove_item x) (with_list rest s))).
  { unfold pop, bind, lift, list_pop, ret. rewrite Hid, Hpop.
    now destruct (emit (remove_item x) (with_list rest s)). }
  rewrite Hrun. split; [|split].
  - now rewrite emit_list.
  - apply emit_remove_order.
  - intros y Hy. now rewrite emit_remove_other_layers.
Qed.

(* ================================================================= *)
(** ** Name coercion *)

Section Coercion.
Variable inc : string -> string.
Variable s : state.
Variable layer : option loc.

Lemma coerce_some : forall fuel nm nm',
  _coerce_name inc fuel s nm layer = Some nm' ->
  _name_match s nm' None None layer = None.
Proof.
  induction fuel as [|fuel IH]; intros nm nm' H; [discriminate|].
  simpl in H.
  destruct (_name_match s nm None None layer) eqn:E.
  - now apply IH in H.
  - now injection H as <-.
Qed.

Lemma coerce_none : forall fuel nm,
  _coerce_name inc fuel s nm layer = None ->
  forall c, In c (candidates inc nm fuel) ->
            _name_match s c None None layer <> None.
Proof.
  induction fuel as [|fuel IH]; intros nm H c Hc; [destruct Hc|].
  simpl in H, Hc.
  destruct (_name_match s nm None None layer) eqn:E; [|discriminate].
  destruct Hc as [<-|Hc]; [congruence|]. now apply (IH (inc nm)).
Qed.

Lemma coerce_more_fuel : forall fuel fuel' nm nm',
  _coerce_name inc fuel s nm layer = Some nm' ->
  (fuel <= fuel')%nat ->
  _coerce_name inc fuel' s nm layer = Some nm'.
Proof.
  induction fuel as [|fuel IH]; intros fuel' nm nm' H Hle; [discriminate|].
  destruct fuel' as [|fuel']; [lia|]. simpl in *.
  destruct (_name_match s nm None None layer); [|assumption].
  apply IH; [assumption|lia].
Qed.

Lemma matched_name_in_use (c : string) :
  _name_match s c None None layer <> None ->
  In c (map (fun x => name (layers s x)) (_list s)).
Proof.
  intros H.
  destruct (in_dec string_dec c (map (fun x => name (layers s x)) (_list s)))
    as [Hin|Hout]; [assumption|].
  exfalso. apply H. apply name_match_none_iff. intros x Hx _ Hname.
  apply Hout. apply in_map_iff. now exists x.
Qed.

Lemma candidates_length : forall n nm, length (candidates inc nm n) = n.
Proof. induction n as [|n IH]; intros nm; simpl; [|rewrite IH]; reflexivity. Qed.

(** The loop ends within as many tests as there are layers, plus one,
    when the names it goes through are all different. *)
Lemma coerce_terminates (nm : string) :
  NoDup (candidates inc nm (S (length (_list s)))) ->
  exists nm', _coerce_name inc (S (length (_list s))) s nm layer = Some nm'.
Proof.
  intros Hnd.
  destruct (_coerce_name inc (S (length (_list s))) s nm layer)
    as [nm'|] eqn:E; [now exists nm'|].
  exfalso.
  assert (Hincl : incl (candidates inc nm (S (length (_list s))))
                       (map (fun x => name (layers s x)) (_list s))).
  { intros c Hc. apply matched_name_in_use. eapply coerce_none; eassumption. }
  apply (NoDup_incl_length Hnd) in Hincl.
  rewrite candidates_length, length_map in Hincl. lia.
Qed.

Lemma coerce_unused (nm : string) (fuel : nat) :
  unused s layer nm -> _coerce_name inc (S fuel) s nm layer = Some nm.
Proof.
  intros H. simpl. apply name_match_none_iff in H. now rewrite H.
Qed.
End Coercion.

(** C7: [_coerce_name] returns a name that no layer other than the given one
    carries, provided the names that [inc_name_count] produces in turn are
    all different (as many of them as there are layers, plus one); coercing
    that name again returns it unchanged; and a name that no other layer
    carries is returned unchanged, whatever [inc_name_count] does. *)
Theorem coerce_name_unique_and_idempotent
        (inc_name_count : string -> string) (s : state) (nm : string)
        (layer : option loc) :
  (NoDup (candidates inc_name_count nm (S (length (_list s)))) ->
   exists nm',
     (forall fuel, (length (_list s) < fuel)%nat ->
                   _coerce_name inc_name_count fuel s nm layer = Some nm') /\
     unused s layer nm' /\
     (forall fuel,
         _coerce_name inc_name_count (S fuel) s nm' layer = Some nm')) /\
  (unused s layer nm ->
   forall fuel, _coerce_name inc_name_count (S fuel) s nm layer = Some nm).
Proof.
  split.
  - intros Hnd.
    destruct (coerce_terminates inc_name_count s layer nm Hnd) as [nm' Hnm'].
    assert (Hun : unused s layer nm').
    { apply name_match_none_iff. eapply coerce_some. exact Hnm'. }
    exists nm'. split; [|split].
    + intros fuel Hf. eapply coerce_more_fuel; [exact Hnm'|lia].
    + exact Hun.
    + intros fuel. now apply coerce_unused.
  - intros Hun fuel. now apply coerce_unused.
Qed.

Lemma coerce_name_unique_and_idempotent_witness :
  let s := Sample.bound [0; 1; 2]%nat [] in
  (exists nm',
      _coerce_name Naming.inc_name_count 4 s "B" None = Some nm' /\
      unused s None nm') /\
  _coerce_name Naming.inc_name_count 1 s "B" (Some 1%nat) = Some "B"%string.
Proof.
  intros s. split.
  - destruct (proj1 (coerce_name_unique_and_idempotent
                       Naming.inc_name_count s "B" None))
      as (nm' & Hfuel & Hun & _).
    + vm_compute. repeat constructor; simpl; intuition discriminate.
    + exists nm'. split; [|exact Hun]. apply Hfuel. simpl. lia.
  - apply (proj2 (coerce_name_unique_and_idempotent
                    Naming.inc_name_count s "B" (Some 1%nat))).
    intros x [<-|[<-|[<-|[]]]] Hx E;
      solve [discriminate E | apply Hx; reflexivity].
Defined.

(** The transform on the names of the specification's example. *)
Example inc_name_count_foo :
  Naming.inc_name_count "foo" = "foo [1]"%string /\
  Naming.inc_name_count "foo [1]" = "foo [2]"%string /\
  Naming.inc_name_count "foo [9]" = "foo [10]"%string.
Proof. repeat split. Qed.

Example coerce_name_collision :
  _coerce_name Naming.inc_name_count 4 (Sample.bound [0; 1; 2]%nat []) "B" None
  = Some "B [1]"%string.
Proof. reflexivity. Qed.


(* ================================================================= *)
(** ** The counter of the specification never repeats a name *)

Module NamingFacts.
Import Naming.

Lemma is_digit_bounds (c : ascii) :
  is_digit c = true -> (48 <= nat_of_ascii c <= 57)%nat.
Proof.
  unfold is_digit. intros H. apply andb_true_iff in H.
  destruct H as [H1 H2]. apply Nat.leb_le in H1, H2. lia.
Qed.

Lemma inc_digits_digits (ds : list ascii) :
  forallb is_digit ds = true -> forallb is_digit (inc_digits ds) = true.
Proof.
  induction ds as [|c t IH]; intros H; [reflexivity|].
  simpl in H. apply andb_true_iff in H. destruct H as [Hc Ht].
  simpl. destruct (Ascii.eqb c "9") eqn:E; simpl.
  - now rewrite IH.
  - rewrite Ht, andb_true_r.
    apply Ascii.eqb_neq in E. apply is_digit_bounds in Hc.
    assert (nat_of_ascii c <> 57%nat).
    { intros H57. apply E. rewrite <- (ascii_nat_embedding c), H57.
      reflexivity. }
    unfold is_digit. rewrite nat_ascii_embedding by lia.
    apply andb_true_iff. split; apply Nat.leb_le; lia.
Qed.

Lemma inc_digits_value (ds : list ascii) :
  forallb is_digit ds = true ->
  numeral_value (inc_digits ds) = S (numeral_value ds).
Proof.
  induction ds as [|c t IH]; intros H; [reflexivity|].
  simpl in H. apply andb_true_iff in H. destruct H as [Hc Ht].
  cbn [inc_digits]. destruct (Ascii.eqb c "9") eqn:E.
  - apply Ascii.eqb_eq in E. subst c. cbn [numeral_value].
    rewrite (IH Ht). change (digit_value "9") with 9%nat.
    change (digit_value "0") with 0%nat. lia.
  - apply is_digit_bounds in Hc. cbn [numeral_value]. unfold digit_value.
    rewrite nat_ascii_embedding by lia. lia.
Qed.

Lemma inc_digits_nonempty (ds : list ascii) : inc_digits ds <> [].
Proof. destruct ds as [|c t]; simpl; [|destruct (Ascii.eqb c "9")]; discriminate. Qed.

Lemma span_digits_digits : forall l d r,
  span_digits l = (d, r) -> forallb is_digit d = true.
Proof.
  induction l as [|c t IH]; intros d r H; simpl in H.
  - now injection H as <- <-.
  - destruct (is_digit c) eqn:Ec.
    + destruct (span_digits t) as [d' r'] eqn:Et.
      injection H as <- <-. simpl. rewrite Ec. now apply (IH d' r').
    + now injection H as <- <-.
Qed.

Lemma span_digits_app (ds rest : list ascii) :
  forallb is_digit ds = true ->
  span_digits (ds ++ "["%char :: rest) = (ds, "["%char :: rest).
Proof.
  induction ds as [|c t IH]; intros H; [reflexivity|].
  simpl in H. apply andb_true_iff in H. destruct H as [Hc Ht].
  simpl. now rewrite Hc, IH.
Qed.

Lemma list_ascii_of_string_app (a b : string) :
  list_ascii_of_string (a ++ b)
  = list_ascii_of_string a ++ list_ascii_of_string b.
Proof. induction a as [|c a IH]; simpl; [|rewrite IH]; reflexivity. Qed.

Lemma counter_digits nm ds base :
  counter nm = Some (ds, base) -> forallb is_digit ds = true.
Proof.
  unfold counter.
  destruct (rev (list_ascii_of_string nm)) as [|c t]; [discriminate|].
  destruct (Ascii.eqb c "]") eqn:Ec.
  - apply Ascii.eqb_eq in Ec. subst c.
    destruct (span_digits t) as [d r] eqn:Es.
    apply span_digits_digits in Es.
    destruct d as [|d0 d']; [discriminate|].
    destruct r as [|r0 r']; [discriminate|].
    destruct (Ascii.eqb r0 "[") eqn:E0;
      [apply Ascii.eqb_eq in E0; subst r0|].
    + destruct r' as [|r1 r'']; [discriminate|].
      destruct (Ascii.eqb r1 " ") eqn:E1;
        [apply Ascii.eqb_eq in E1; subst r1|].
      * now intros [= <- <-].
      * apply Ascii.eqb_neq in E1.
        destruct r1 as [[] [] [] [] [] [] [] []]; try discriminate;
          now contradiction E1.
    + apply Ascii.eqb_neq in E0.
      destruct r0 as [[] [] [] [] [] [] [] []]; try discriminate;
        now contradiction E0.
  - apply Ascii.eqb_neq in Ec.
    destruct c as [[] [] [] [] [] [] [] []]; try discriminate;
      now contradiction Ec.
Qed.

Lemma counter_of_reversed (ds base : list ascii) :
  forallb is_digit ds = true -> ds <> [] ->
  counter (string_of_list_ascii
             (rev ("]"%char :: ds ++ "["%char :: " "%char :: base)))
  = Some (ds, base).
Proof.
  intros Hd Hne. unfold counter.
  rewrite list_ascii_of_string_of_list_ascii, rev_involutive.
  rewrite span_digits_app by assumption.
  destruct ds; [congruence|reflexivity].
Qed.

(** Each application raises the rank. *)
Lemma rank_inc (nm : string) : (rank nm < rank (inc_name_count nm))%nat.
Proof.
  unfold rank at 1, inc_name_count.
  destruct (counter nm) as [[ds base]|] eqn:E.
  - pose proof (counter_digits _ _ _ E) as Hd.
    unfold rank. rewrite counter_of_reversed.
    + rewrite inc_digits_value by assumption. lia.
    + now apply inc_digits_digits.
    + apply inc_digits_nonempty.
  - unfold rank.
    replace (counter (nm ++ " [1]"))
      with (Some (["1"%char], rev (list_ascii_of_string nm))).
    + lia.
    + unfold counter. rewrite list_ascii_of_string_app, rev_app_distr.
      reflexivity.
Qed.

Lemma candidates_rank : forall n nm c,
  In c (candidates inc_name_count (inc_name_count nm) n) ->
  (rank nm < rank c)%nat.
Proof.
  induction n as [|n IH]; intros nm c Hc; [destruct Hc|].
  simpl in Hc. destruct Hc as [<-|Hc].
  - apply rank_inc.
  - apply IH in Hc. pose proof (rank_inc nm). lia.
Qed.

Lemma candidates_NoDup : forall n nm,
  NoDup (candidates inc_name_count nm n).
Proof.
  induction n as [|n IH]; intros nm; simpl; constructor.
  - intros Hin. apply candidates_rank in Hin. lia.
  - apply IH.
Qed.

End NamingFacts.

(** With the counter of the specification, the loop of [_coerce_name] ends
    for every name, on a name that no other layer carries. *)
Corollary coerce_name_with_counter (s : state) (nm : string)
          (layer : option loc) :
  exists nm',
    _coerce_name Naming.inc_name_count (S (length (_list s))) s nm layer
      = Some nm' /\
    unused s layer nm'.
Proof.
  destruct (coerce_terminates Naming.inc_name_count s layer nm
              (NamingFacts.candidates_NoDup _ nm)) as [nm' H].
  exists nm'. split; [exact H|].
  apply name_match_none_iff. eapply coerce_some. exact H.
Qed.

(* ================================================================= *)
(** ** What every operation has in common *)

Lemma emit_raise_kind ev s e s' :
  emit ev s = Raise e s' -> e = AttributeError.
Proof.
  destruct ev; run_callback s; intros H;
    solve [discriminate H | now injection H as <- _].
Qed.

Lemma emit_keeps_name_selected ev s x :
  name (layers (final (emit ev s)) x) = name (layers s x) /\
  selected (layers (final (emit ev s)) x) = selected (layers s x).
Proof.
  destruct ev as [it idx|it|].
  - run_callback s; unfold store_update; destruct (Nat.eqb x it);
      now split.
  - run_callback s; unfold store_update; destruct (Nat.eqb x it);
      now split.
  - rewrite emit_reorder_layers. apply renumber_name.
Qed.

Lemma to_index_error s obj e :
  _to_index s obj = Err e -> e <> AttributeError.
Proof.
  unfold _to_index, index.
  destruct obj; simpl; try (intros [= <-]; discriminate).
  - destruct (_name_match s s0 None None None) as [[i x]|];
      intros [= <-]; discriminate.
  - destruct (PyList.index Nat.eqb (_list s) l None None);
      intros [= <-]; discriminate.
Qed.

Lemma reordered_from_error s : forall ordering E e,
  reordered_from s E ordering = Err e -> e <> AttributeError.
Proof.
  induction ordering as [|obj rest IH]; intros E e H; simpl in H.
  - destruct E; [discriminate|]. injection H as <-. discriminate.
  - destruct (_to_index s obj) as [o|e0] eqn:Ho.
    + destruct (PyList.remove Z.eqb o E) as [E'|];
        [|injection H as <-; discriminate].
      destruct (PyList.getitem (_list s) o);
        [|injection H as <-; discriminate].
      destruct (reordered_from s E' rest) as [t|e1] eqn:Hr; [discriminate|].
      injection H as <-. now apply (IH E').
    + injection H as <-. now apply (to_index_error s obj).
Qed.

Lemma layer_at_cases s i :
  (exists x, layer_at i s = Ok x /\ PyList.getitem (_list s) i = Some x) \/
  (layer_at i s = Err (KeyError (PInt i)) /\ PyList.getitem (_list s) i = None).
Proof.
  unfold layer_at, __getitem__, list_subscript.
  destruct (PyList.getitem (_list s) i) as [x|]; [left; now exists x|now right].
Qed.

Lemma reordered_list_viewer s w ordering :
  _reordered_list (with_viewer w s) ordering = _reordered_list s ordering.
Proof.
  unfold _reordered_list. cbn [_list with_viewer].
  generalize (PyList.range (length (_list s))).
  induction ordering as [|obj rest IH]; intros E; cbn [reordered_from].
  - reflexivity.
  - change (_to_index (with_viewer w s) obj) with (_to_index s obj).
    cbn [_list with_viewer].
    destruct (_to_index s obj) as [o|e]; [|reflexivity].
    destruct (PyList.remove Z.eqb o E) as [E'|]; [|reflexivity].
    destruct (PyList.getitem (_list s) o); [|reflexivity].
    now rewrite IH.
Qed.

Lemma reorder_shape_viewer args s w :
  (exists e, e <> AttributeError /\
             reorder args s = Raise e s /\
             reorder args (with_viewer w s) = Raise e (with_viewer w s)) \/
  (exists ev l, notifies (op_reorder args) ev /\
                reorder args s = emit ev (with_list l s) /\
                reorder args (with_viewer w s)
                = emit ev (with_list l (with_viewer w s))).
Proof.
  assert (Hgen : forall ordering,
    (exists e, e <> AttributeError /\
               reorder [PSeq ordering] s = Raise e s /\
               reorder [PSeq ordering] (with_viewer w s)
               = Raise e (with_viewer w s)) \/
    (exists ev l, True /\
                  reorder [PSeq ordering] s = emit ev (with_list l s) /\
                  reorder [PSeq ordering] (with_viewer w s)
                  = emit ev (with_list l (with_viewer w s)) /\
                  ev = reorder_event)).
  { intros ordering.
    destruct (_reordered_list s ordering) as [new|e] eqn:E.
    - right. exists reorder_event, new. split; [exact I|]. split; [|split].
      + now apply reorder_run.
      + apply reorder_run. now rewrite reordered_list_viewer.
      + reflexivity.
    - left. exists e. split; [|split].
      + now apply (reordered_from_error s ordering _ e E).
      + now apply reorder_fails.
      + apply reorder_fails. now rewrite reordered_list_viewer. }
  destruct args as [|first rest].
  - left. exists IndexError. split; [discriminate|split; reflexivity].
  - destruct (is_identifier first) eqn:Hid.
    + rewrite !(reorder_positional _ first rest Hid).
      destruct (Hgen (first :: rest))
        as [(e & He & H1 & H2)|(ev & l & _ & H1 & H2 & ->)].
      * left. now exists e.
      * right. now exists reorder_event, l.
    + destruct first; try discriminate Hid;
        try (left; exists TypeError; split;
             [discriminate|split; unfold reorder; reflexivity]).
      destruct (Hgen items)
        as [(e & He & H1 & H2)|(ev & l & _ & H1 & H2 & ->)].
      * left. now exists e.
      * right. now exists reorder_event, l.
Qed.

Lemma reorder_shape args s :
  (exists e, e <> AttributeError /\ reorder args s = Raise e s) \/
  (exists l, reorder args s = emit reorder_event (with_list l s)).
Proof.
  destruct (reorder_shape_viewer args s (_viewer s))
    as [(e & He & Hr & _)|(ev & l & Hn & Hr & _)].
  - left. now exists e.
  - right. exists l. destruct ev; try contradiction. exact Hr.
Qed.

Lemma list_insert_error {A} (l : list A) i x e :
  PyList.insert l i x = Err e -> e = OverflowError.
Proof.
  unfold PyList.insert. destruct (PyList.fits_ssize_t l i); congruence.
Qed.

Lemma list_pop_error {A} (l : list A) i e :
  PyList.pop l i = Err e -> e = IndexError \/ e = OverflowError.
Proof.
  unfold PyList.pop. destruct (PyList.fits_ssize_t l i).
  - destruct (PyList.norm_index l i) as [k|]; [|intros [= <-]; now left].
    destruct (nth_error l k); [discriminate|intros [= <-]; now left].
  - intros [= <-]. now right.
Qed.

Lemma insert_each_error : forall sel start (rem : list Z) e,
  insert_each start sel rem = Err e -> e = OverflowError.
Proof.
  induction sel as [|m sel IH]; intros start rem e H; cbn [insert_each] in H.
  - discriminate.
  - destruct (PyList.insert rem start m) as [rem'|e0] eqn:E.
    + now apply (IH _ _ _ H).
    + injection H as <-. now apply (list_insert_error _ _ _ _ E).
Qed.

Lemma move_layers_unfold index insert s :
  _move_layers index insert s
  = match layer_at index s with
    | Err e => Raise e s
    | Ok x =>
        let moving := if selected (layers s x)
                      then filter (is_selected s)
                                  (PyList.range (length (_list s)))
                      else [index] in
        match remove_each moving (PyList.range (length (_list s))) with
        | None => Raise (ValueError VE_not_in_list) s
        | Some indices =>
            match insert_each
                    (insert
                     - PyList.len (filter (fun i => i <? insert) moving))
                    moving indices with
            | Err e => Raise e s
            | Ok spliced => reorder [PSeq (map PInt spliced)] s
            end
        end
    end.
Proof.
  unfold _move_layers, bind, gets, lift, ret, raise.
  destruct (layer_at index s) as [x|e]; [|reflexivity].
  destruct (selected (layers s x)); cbv beta iota zeta;
    match goal with
    | |- context [remove_each ?sel ?ind] =>
        destruct (remove_each sel ind) as [indices|]
    end; try reflexivity;
    match goal with
    | |- context [insert_each ?start ?sel ?ind] =>
        destruct (insert_each start sel ind) as [spliced|e]
    end; reflexivity.
Qed.

(** Each operation either stops at a check, raising with the state as it
    was, or changes the list and sends its notification; nothing follows
    the notification but the return.  Which of the two, and the list and
    the notification, do not depend on the viewer. *)
Lemma run_shape_viewer op s w :
  (exists e, e <> AttributeError /\
             run op s = Raise e s /\
             run op (with_viewer w s) = Raise e (with_viewer w s)) \/
  (exists ev l, notifies op ev /\
                run op s = emit ev (with_list l s) /\
                run op (with_viewer w s)
                = emit ev (with_list l (with_viewer w s))).
Proof.
  destruct op as [obj|id obj|id|a b|args|index insert]; cbn [run].
  - destruct obj;
      try (left; exists TypeError; split; [discriminate|split; reflexivity]).
    right. eexists (add_item l _), _. split; [reflexivity|].
    split; [apply append_run|reflexivity].
  - destruct obj;
      try (left; exists TypeError; split; [discriminate|split; reflexivity]).
    destruct (_to_index s id) as [p|e] eqn:E.
    + destruct (PyList.insert (_list s) p l) as [new|e] eqn:Hins.
      * right. eexists (add_item l _), _. split; [reflexivity|]. split.
        -- exact (insert_run _ _ _ _ _ E Hins).
        -- exact (insert_run (with_viewer w s) _ _ _ _ E Hins).
      * left. exists e. split; [|split].
        -- rewrite (list_insert_error _ _ _ _ Hins). discriminate.
        -- exact (insert_fails _ _ _ _ _ E Hins).
        -- exact (insert_fails (with_viewer w s) _ _ _ _ E Hins).
    + left. exists e. split; [now apply (to_index_error s id)|].
      split; unfold insert, bind, lift; simpl.
      * now rewrite E.
      * change (_to_index (with_viewer w s) id) with (_to_index s id).
        now rewrite E.
  - unfold remove, pop, bind, lift, list_pop, ret.
    change (_to_index (with_viewer w s) id) with (_to_index s id).
    destruct (_to_index s id) as [p|e] eqn:E.
    + change (_list (with_viewer w s)) with (_list s).
      destruct (PyList.pop (_list s) p) as [[x rest]|e] eqn:Hpop.
      * right. exists (remove_item x), rest. split; [exact I|]. split.
        -- now destruct (emit (remove_item x) (with_list rest s))
             as [[] ?|? ?].
        -- match goal with
           | |- context [emit ?ev ?st] =>
               now destruct (emit ev st) as [[] ?|? ?]
           end.
      * left. exists e. split; [|split; reflexivity].
        destruct (list_pop_error _ _ _ Hpop) as [->| ->]; discriminate.
    + left. exists e. split; [now apply (to_index_error s id)|].
      split; reflexivity.
  - unfold swap, bind, lift, list_get, list_set.
    change (_to_index (with_viewer w s) a) with (_to_index s a).
    destruct (_to_index s a) as [i|e] eqn:Ea;
      [|left; exists e; split;
        [now apply (to_index_error s a)|split; reflexivity]].
    change (_to_index (with_viewer w s) b) with (_to_index s b).
    destruct (_to_index s b) as [j|e] eqn:Eb;
      [|left; exists e; split;
        [now apply (to_index_error s b)|split; reflexivity]].
    change (_list (with_viewer w s)) with (_list s).
    unfold PyList.getitem, PyList.setitem.
    destruct (PyList.norm_index (_list s) j) as [kj|] eqn:Ej;
      [|left; exists IndexError; split; [discriminate|split; reflexivity]].
    destruct (nth_error (_list s) kj) as [xj|] eqn:Hxj;
      [|left; exists IndexError; split; [discriminate|split; reflexivity]].
    change (_list (with_viewer w s)) with (_list s).
    destruct (PyList.norm_index (_list s) i) as [ki|] eqn:Ei;
      [|left; exists IndexError; split; [discriminate|split; reflexivity]].
    destruct (nth_error (_list s) ki) as [xi|] eqn:Hxi;
      [|left; exists IndexError; split; [discriminate|split; reflexivity]].
    change (_list (with_viewer w s)) with (_list s).
    rewrite Ei. cbn [_list with_list].
    rewrite (norm_index_same_length
               (PyList.replace_nth ki xj (_list s)) (_list s) j)
      by apply length_replace_nth.
    rewrite Ej. right. eexists reorder_event, _. split; [exact I|].
    split; reflexivity.
  - apply reorder_shape_viewer.
  - rewrite !move_layers_unfold.
    change (layer_at index (with_viewer w s)) with (layer_at index s).
    change (is_selected (with_viewer w s)) with (is_selected s).
    change (layers (with_viewer w s)) with (layers s).
    change (_list (with_viewer w s)) with (_list s).
    destruct (layer_at_cases s index) as [(x & -> & _)|[-> _]];
      [|left; eexists; split; [|split; reflexivity]; discriminate].
    cbv zeta.
    match goal with
    | |- context [remove_each ?sel ?ind] =>
        destruct (remove_each sel ind) as [indices|] eqn:Hrem
    end;
      [|left; exists (ValueError VE_not_in_list);
        split; [discriminate|split; reflexivity]].
    match goal with
    | |- context [insert_each ?start ?sel ?ind] =>
        destruct (insert_each start sel ind) as [spliced|e] eqn:Hins
    end.
    + destruct (reorder_shape_viewer [PSeq (map PInt spliced)] s w)
        as [(e & He & H1 & H2)|(ev & l & Hn & H1 & H2)].
      * left. now exists e.
      * right. exists ev, l. split; [|now split].
        destruct ev; try contradiction. exact I.
    + left. exists e. split; [|split; reflexivity].
      rewrite (insert_each_error _ _ _ _ Hins). discriminate.
Qed.

Lemma run_shape op s :
  (exists e, e <> AttributeError /\ run op s = Raise e s) \/
  (exists ev l, notifies op ev /\ run op s = emit ev (with_list l s)).
Proof.
  destruct (run_shape_viewer op s (_viewer s))
    as [(e & He & Hr & _)|(ev & l & Hn & Hr & _)].
  - left. now exists e.
  - right. now exists ev, l.
Qed.

(** X1: an operation that raises has changed nothing, not the sequence, not
    a layer, not the notifications sent, unless what raises is one of the
    collection's own callbacks (which a collection with a viewer rules
    out). *)
Theorem failed_operation_changes_nothing
        (op : operation) (s s' : state) (e : exn) :
  run op s = Raise e s' ->
  callbacks_return s \/ e <> AttributeError ->
  s' = s.
Proof.
  intros Hrun Hc.
  destruct (run_shape op s) as [(e0 & _ & Hr)|(ev & l & _ & Hr)];
    rewrite Hr in Hrun.
  - now injection Hrun.
  - exfalso. destruct Hc as [Hc|Hc].
    + pose proof (emit_returned ev (with_list l s) Hc) as Hret.
      rewrite Hrun in Hret. discriminate.
    + apply Hc. eapply emit_raise_kind. exact Hrun.
Qed.

Lemma failed_operation_changes_nothing_witness :
  let s := Sample.bound [0; 1; 2]%nat [] in
  final (run (op_swap (PStr "B") (PInt 3)) s) = s /\
  final (run (op_insert (PStr "Z") (PLayer 4%nat)) s) = s.
Proof.
  intros s. split.
  - apply (failed_operation_changes_nothing
             (op_swap (PStr "B") (PInt 3)) s _ IndexError).
    + reflexivity.
    + right. discriminate.
  - apply (failed_operation_changes_nothing
             (op_insert (PStr "Z") (PLayer 4%nat)) s _
             (ValueError (VE_query (PStr "Z")))).
    + reflexivity.
    + left. left. discriminate.
Defined.

(** X2: an operation that returns has sent exactly one notification, of
    its kind: add_item with the layer for [append] and [insert],
    remove_item for [pop], [remove] and [__delitem__], reorder for [swap],
    [reorder] and [_move_layers]. *)
Theorem returned_operation_notified_once
        (op : operation) (s s' : state) :
  run op s = Return tt s' ->
  exists ev, notifies op ev /\ emitted s' = emitted s ++ [ev].
Proof.
  intros Hrun.
  destruct (run_shape op s) as [(e0 & _ & Hr)|(ev & l & Hn & Hr)];
    rewrite Hr in Hrun; [discriminate|].
  exists ev. split; [exact Hn|].
  change s' with (final (Return tt s')). rewrite <- Hrun.
  now rewrite emit_emitted.
Qed.

Lemma returned_operation_notified_once_witness :
  exists ev,
    notifies (op_move 0 2) ev /\
    emitted (final (run (op_move 0 2) (Sample.bound [0; 1; 2]%nat [])))
    = [ev].
Proof.
  apply (returned_operation_notified_once
           (op_move 0 2) (Sample.bound [0; 1; 2]%nat [])).
  reflexivity.
Defined.

(** X3: no operation changes the name or the selection flag of any layer,
    in the collection or outside it, whether it returns or raises. *)
Theorem operations_keep_names_and_selection
        (op : operation) (s : state) (x : loc) :
  name (layers (final (run op s)) x) = name (layers s x) /\
  selected (layers (final (run op s)) x) = selected (layers s x).
Proof.
  destruct (run_shape op s) as [(e0 & _ & Hr)|(ev & l & _ & Hr)];
    rewrite Hr.
  - now split.
  - apply (emit_keeps_name_selected ev (with_list l s) x).
Qed.

(* ================================================================= *)
(** ** Lookup by position, by name and by layer *)

Ltac llia := unfold __len__, PyList.len in *; unfold loc in *; lia.

Lemma nth_error_lt {A} (l : list A) (k : nat) (x : A) :
  nth_error l k = Some x -> (k < length l)%nat.
Proof. intros H. apply nth_error_Some. congruence. Qed.

Lemma norm_index_cases {A} (l : list A) (i : Z) :
  PyList.norm_index l i =
  if (- PyList.len l <=? i) && (i <? PyList.len l)
  then Some (Z.to_nat (if i <? 0 then i + PyList.len l else i))
  else None.
Proof.
  unfold PyList.norm_index.
  assert (0 <= PyList.len l) by (unfold PyList.len; lia).
  destruct (i <? 0) eqn:Hi;
    [apply Z.ltb_lt in Hi | apply Z.ltb_ge in Hi];
    repeat match goal with
           | |- context [?a <=? ?b] =>
               let E := fresh "E" in
               destruct (a <=? b) eqn:E;
               [apply Z.leb_le in E | apply Z.leb_gt in E]
           | |- context [?a <? ?b] =>
               let E := fresh "E" in
               destruct (a <? b) eqn:E;
               [apply Z.ltb_lt in E | apply Z.ltb_ge in E]
           end; simpl; try reflexivity; lia.
Qed.

Lemma getitem_int_lookup s i :
  __getitem__ s (PInt i)
  = match PyList.norm_index (_list s) i with
    | Some k =>
        match nth_error (_list s) k with
        | Some x => Ok (a_layer x)
        | None => Err (KeyError (PInt i))
        end
    | None => Err (KeyError (PInt i))
    end.
Proof.
  unfold __getitem__, list_subscript, PyList.getitem.
  destruct (PyList.norm_index (_list s) i) as [k|]; [|reflexivity].
  now destruct (nth_error (_list s) k).
Qed.

Lemma position_within (l : list loc) (i : Z) :
  (- PyList.len l <=? i) && (i <? PyList.len l) = true ->
  Nat.lt (Z.to_nat (if i <? 0 then i + PyList.len l else i)) (length l).
Proof.
  intros E. apply andb_true_iff in E. destruct E as [E1 E2].
  apply Z.leb_le in E1. apply Z.ltb_lt in E2. unfold PyList.len in *.
  destruct (i <? 0) eqn:Hi;
    [apply Z.ltb_lt in Hi | apply Z.ltb_ge in Hi]; lia.
Qed.

(** X4: [collection[i]] for an int gives the layer at position [i] when
    [0 <= i < len], the layer at [i + len] when [-len <= i < 0], and raises
    KeyError for every other [i]. *)
Theorem getitem_int_in_and_out_of_range (s : state) (i : Z) :
  __getitem__ s (PInt i) =
  if (- __len__ s <=? i) && (i <? __len__ s)
  then Ok (a_layer (pick (_list s) (if i <? 0 then i + __len__ s else i)))
  else Err (KeyError (PInt i)).
Proof.
  rewrite getitem_int_lookup, norm_index_cases. unfold __len__.
  destruct ((- PyList.len (_list s) <=? i) && (i <? PyList.len (_list s)))
    eqn:E; [|reflexivity].
  unfold pick.
  now rewrite (nth_error_nth' _ 0%nat) by now apply position_within.
Qed.

Lemma name_scan_spec lay nm start : forall l i,
  match name_scan lay nm None start i l with
  | Some (j, x) =>
      exists k : nat,
        j = i + Z.of_nat k + start /\
        nth_error l k = Some x /\
        name (lay x) = nm /\
        (forall (k' : nat) y, (k' < k)%nat -> nth_error l k' = Some y ->
                              name (lay y) <> nm)
  | None => forall y, In y l -> name (lay y) <> nm
  end.
Proof.
  induction l as [|x l IH]; intros i; simpl.
  - intros y [].
  - destruct (String.eqb (name (lay x)) nm) eqn:E.
    + apply String.eqb_eq in E. exists 0%nat. repeat split.
      * lia.
      * exact E.
      * intros k' y Hk'. lia.
    + apply String.eqb_neq in E. specialize (IH (i + 1)).
      destruct (name_scan lay nm None start (i + 1) l) as [[j y]|].
      * destruct IH as (k & Hj & Hk & Hn & Hfirst).
        exists (S k). repeat split; try assumption.
        -- lia.
        -- intros [|k'] z Hlt Hz; simpl in Hz.
           ++ now injection Hz as <-.
           ++ apply (Hfirst k' z); [lia|assumption].
      * intros y [<-|Hy]; [assumption|now apply IH].
Qed.

Lemma name_scan_existsb lay nm start i l :
  existsb (fun x => String.eqb (name (lay x)) nm) l
  = match name_scan lay nm None start i l with
    | Some _ => true
    | None => false
    end.
Proof.
  revert i. induction l as [|x l IH]; intros i; simpl; [reflexivity|].
  destruct (String.eqb (name (lay x)) nm); simpl; [reflexivity|apply IH].
Qed.

(** X5: [name in collection] is true exactly when some layer carries the
    name, and [i in collection] for an int exactly when
    [-len <= i < len]; neither test ever raises. *)
Theorem contains_name_and_position (s : state) :
  (forall nm,
      __contains__ s (PStr nm)
      = Ok (existsb (fun x => String.eqb (name (layers s x)) nm) (_list s))) /\
  (forall i,
      __contains__ s (PInt i)
      = Ok ((- __len__ s <=? i) && (i <? __len__ s))).
Proof.
  split.
  - intros nm. unfold __contains__, __getitem__, _name_match.
    rewrite slice_whole.
    rewrite (name_scan_existsb (layers s) nm 0 0 (_list s)).
    now destruct (name_scan (layers s) nm None 0 0 (_list s)) as [[j x]|].
  - intros i. unfold __contains__, __len__.
    rewrite getitem_int_lookup, norm_index_cases.
    destruct ((- PyList.len (_list s) <=? i) && (i <? PyList.len (_list s)))
      eqn:E; [|reflexivity].
    now rewrite (nth_error_nth' _ 0%nat) by now apply position_within.
Qed.

Lemma find_from_spec (x : loc) : forall (l : list loc) i,
  match PyList.find_from Nat.eqb i x l with
  | Some j =>
      exists k : nat,
        j = i + Z.of_nat k /\ nth_error l k = Some x /\
        (forall k' : nat, (k' < k)%nat -> nth_error l k' <> Some x)
  | None => ~ In x l
  end.
Proof.
  induction l as [|y l IH]; intros i; simpl.
  - intros [].
  - destruct (Nat.eqb y x) eqn:E.
    + apply Nat.eqb_eq in E. subst y. exists 0%nat. repeat split.
      * lia.
      * intros k' Hk'. lia.
    + apply Nat.eqb_neq in E. specialize (IH (i + 1)).
      destruct (PyList.find_from Nat.eqb (i + 1) x l) as [j|].
      * destruct IH as (k & Hj & Hk & Hfirst).
        exists (S k). repeat split; try assumption.
        -- lia.
        -- intros [|k'] Hlt; simpl.
           ++ congruence.
           ++ apply Hfirst. lia.
      * intros [Hy|Hy]; [congruence|now apply IH].
Qed.

Lemma list_index_whole (l : list loc) (x : loc) :
  PyList.index Nat.eqb l x None None = PyList.find_from Nat.eqb 0 x l.
Proof.
  unfold PyList.index, PyList.len. rewrite Nat2Z.id, firstn_all.
  reflexivity.
Qed.

Lemma index_absent_layer s l :
  ~ In l (_list s) ->
  index s (PLayer l) None None = Err (ValueError VE_not_in_list).
Proof.
  intros Hn. unfold index. rewrite list_index_whole.
  pose proof (find_from_spec l (_list s) 0) as H.
  destruct (PyList.find_from Nat.eqb 0 l (_list s)) as [j|]; [|reflexivity].
  destruct H as (k & _ & Hk & _).
  exfalso. apply Hn. eapply nth_error_In. exact Hk.
Qed.

Lemma index_unknown_name s nm :
  unused s None nm ->
  index s (PStr nm) None None = Err (ValueError (VE_query (PStr nm))).
Proof.
  intros Hun. unfold index.
  now rewrite (proj2 (name_match_none_iff s nm None) Hun).
Qed.

(** X6: [index(layer)] gives the first position that holds the layer, and
    the lookup at that position gives the layer back; for a layer that is
    not in the collection it raises ValueError. *)
Theorem index_of_layer (s : state) (l : loc) :
  (In l (_list s) ->
   exists i,
     index s (PLayer l) None None = Ok i /\
     0 <= i < __len__ s /\
     __getitem__ s (PInt i) = Ok (a_layer l) /\
     (forall j, 0 <= j < i -> pick (_list s) j <> l)) /\
  (~ In l (_list s) ->
   index s (PLayer l) None None = Err (ValueError VE_not_in_list)).
Proof.
  unfold index. rewrite list_index_whole.
  pose proof (find_from_spec l (_list s) 0) as H.
  destruct (PyList.find_from Nat.eqb 0 l (_list s)) as [j|]; split.
  - intros _. destruct H as (k & -> & Hk & Hfirst).
    pose proof (nth_error_lt _ _ _ Hk) as Hlen.
    exists (Z.of_nat k).
    split; [reflexivity|]. split; [llia|]. split.
    + unfold __getitem__, list_subscript.
      now rewrite (getitem_nat _ _ _ Hk).
    + intros j Hj Hp. apply (Hfirst (Z.to_nat j)); [llia|].
      unfold pick in Hp. rewrite <- Hp. apply nth_error_nth'. llia.
  - intros Hn. destruct H as (k & _ & Hk & _).
    exfalso. apply Hn. eapply nth_error_In. exact Hk.
  - intros Hin. now exfalso.
  - reflexivity.
Qed.

Lemma index_of_layer_witness :
  let s := Sample.bound [2; 0; 1; 0]%nat [] in
  (exists i, index s (PLayer 0%nat) None None = Ok i /\
             __getitem__ s (PInt i) = Ok (a_layer 0%nat)) /\
  index s (PLayer 3%nat) None None = Err (ValueError VE_not_in_list).
Proof.
  intros s. split.
  - destruct (proj1 (index_of_layer s 0%nat)) as (i & Hi & _ & Hg & _).
    + simpl. tauto.
    + exists i. now split.
  - apply (proj2 (index_of_layer s 3%nat)).
    simpl. intuition discriminate.
Defined.

(** X7: when a layer carries the name, [index(name)] gives the first
    position whose layer carries it, and the lookups by the name and by
    that position give the same layer.  When none does, [index] raises
    ValueError while [collection[name]] raises KeyError. *)
Theorem index_of_name (s : state) (nm : string) :
  (~ unused s None nm ->
   exists i x,
     index s (PStr nm) None None = Ok i /\
     __getitem__ s (PStr nm) = Ok (a_layer x) /\
     __getitem__ s (PInt i) = Ok (a_layer x) /\
     name (layers s x) = nm /\
     0 <= i < __len__ s /\
     (forall j, 0 <= j < i -> name (layers s (pick (_list s) j)) <> nm)) /\
  (unused s None nm ->
   index s (PStr nm) None None = Err (ValueError (VE_query (PStr nm))) /\
   __getitem__ s (PStr nm) = Err (KeyError (PStr nm))).
Proof.
  unfold index, __getitem__, _name_match. rewrite slice_whole.
  pose proof (name_scan_spec (layers s) nm 0 (_list s) 0) as H.
  destruct (name_scan (layers s) nm None 0 0 (_list s)) as [[j x]|]; split.
  - intros _. destruct H as (k & -> & Hk & Hn & Hfirst).
    pose proof (nth_error_lt _ _ _ Hk) as Hlen.
    replace (0 + Z.of_nat k + 0) with (Z.of_nat k) by lia.
    exists (Z.of_nat k), x.
    split; [reflexivity|]. split; [reflexivity|]. split; [|split; [|split]].
    + unfold list_subscript.
      now rewrite (getitem_nat _ _ _ Hk).
    + exact Hn.
    + unfold __len__, PyList.len. llia.
    + intros i Hi. apply (Hfirst (Z.to_nat i)); [llia|].
      unfold pick. apply nth_error_nth'. llia.
  - intros Hun. destruct H as (k & _ & Hk & Hn & _). exfalso.
    apply (Hun x); [eapply nth_error_In; exact Hk|discriminate|exact Hn].
  - intros Hn. exfalso. apply Hn. intros y Hy _. now apply H.
  - intros _. now split.
Qed.

Lemma index_of_name_witness :
  let s := Sample.bound [2; 0; 1]%nat [] in
  (exists i x, index s (PStr "A") None None = Ok i /\
               __getitem__ s (PStr "A") = Ok (a_layer x) /\
               __getitem__ s (PInt i) = Ok (a_layer x)) /\
  index s (PStr "Z") None None = Err (ValueError (VE_query (PStr "Z"))).
Proof.
  intros s. split.
  - destruct (proj1 (index_of_name s "A")) as (i & x & Hi & Hn & Hp & _).
    + intros Hun. apply (Hun 0%nat); [simpl; tauto|discriminate|reflexivity].
    + exists i, x. now repeat split.
  - apply (proj2 (index_of_name s "Z")).
    intros x [<-|[<-|[<-|[]]]] _; discriminate.
Defined.

(* ================================================================= *)
(** ** Adding and removing: positions, errors and round trips *)

Lemma emit_outcome ev s :
  callbacks_return s -> emit ev s = Return tt (final (emit ev s)).
Proof.
  intros H. pose proof (emit_returned ev s H) as Hr.
  now destruct (emit ev s) as [[] ?|? ?].
Qed.

Lemma emit_add_viewer_none_order l i s x :
  _order (layers (final (emit (add_item l i) s)) x)
  = if Nat.eqb x l then - __len__ s else _order (layers s x).
Proof.
  destruct (Nat.eqb x l) eqn:E.
  - apply Nat.eqb_eq in E. subst x. apply emit_add_order.
  - apply Nat.eqb_neq in E. now rewrite emit_add_other_layers.
Qed.

Lemma emit_remove_layer_viewer l s :
  layer_viewer (layers (final (emit (remove_item l) s)) l) = None.
Proof.
  run_callback s; unfold store_update; rewrite ?Nat.eqb_refl; reflexivity.
Qed.

Lemma list_pop_within (l : list loc) (p : Z) :
  0 <= p < PyList.len l ->
  PyList.pop l p
  = Ok (pick l p, firstn (Z.to_nat p) l ++ skipn (S (Z.to_nat p)) l).
Proof.
  intros H. unfold PyList.pop.
  rewrite fits_ssize_t_within by lia. rewrite norm_index_cases.
  replace ((- PyList.len l <=? p) && (p <? PyList.len l)) with true
    by (symmetry; apply andb_true_iff; split;
        [apply Z.leb_le|apply Z.ltb_lt]; lia).
  replace (p <? 0) with false by (symmetry; apply Z.ltb_ge; lia).
  unfold pick. rewrite (nth_error_nth' l 0%nat); [reflexivity|].
  unfold PyList.len in H. lia.
Qed.

Lemma list_pop_outside (l : list loc) (p : Z) :
  p < - PyList.len l \/ PyList.len l <= p ->
  PyList.fits_ssize_t l p = true ->
  PyList.pop l p = Err IndexError.
Proof.
  intros H Hfit. unfold PyList.pop. rewrite Hfit, norm_index_cases.
  replace ((- PyList.len l <=? p) && (p <? PyList.len l)) with false;
    [reflexivity|].
  symmetry. apply andb_false_iff.
  destruct H; [left; apply Z.leb_gt|right; apply Z.ltb_ge]; lia.
Qed.

Lemma list_pop_overflow (l : list loc) (p : Z) :
  PyList.fits_ssize_t l p = false -> PyList.pop l p = Err OverflowError.
Proof. intros H. unfold PyList.pop. now rewrite H. Qed.

Lemma list_insert_overflow (l : list loc) (p : Z) (x : loc) :
  PyList.fits_ssize_t l p = false ->
  PyList.insert l p x = Err OverflowError.
Proof. intros H. unfold PyList.insert. now rewrite H. Qed.

Lemma list_pop_last (l : list loc) (x : loc) :
  PyList.pop (l ++ [x]) (-1) = Ok (x, l).
Proof.
  unfold PyList.pop.
  rewrite fits_ssize_t_within
    by (unfold PyList.len; rewrite length_app; cbn [length]; lia).
  rewrite norm_index_cases.
  unfold PyList.len. rewrite length_app. cbn [length].
  replace ((- Z.of_nat (length l + 1) <=? -1)
           && (-1 <? Z.of_nat (length l + 1))) with true
    by (symmetry; apply andb_true_iff; split;
        [apply Z.leb_le|apply Z.ltb_lt]; lia).
  change (-1 <? 0) with true. cbv iota.
  replace (Z.to_nat (-1 + Z.of_nat (length l + 1))) with (length l) by lia.
  rewrite nth_error_app2, Nat.sub_diag by lia. cbn [nth_error].
  rewrite firstn_app, Nat.sub_diag, firstn_all. cbn [firstn].
  rewrite app_nil_r.
  rewrite skipn_all2 by (rewrite length_app; simpl; lia).
  now rewrite app_nil_r.
Qed.

Lemma list_pop_inserted (l : list loc) (p : Z) (x : loc) :
  0 <= p <= PyList.len l ->
  PyList.pop (firstn (Z.to_nat p) l ++ x :: skipn (Z.to_nat p) l) p
  = Ok (x, l).
Proof.
  intros H.
  unfold PyList.len in H.
  assert (Hf : length (firstn (Z.to_nat p) l) = Z.to_nat p)
    by (rewrite length_firstn; lia).
  rewrite list_pop_within.
  - unfold pick. rewrite app_nth2 by lia. rewrite Hf, Nat.sub_diag.
    cbn [nth]. f_equal. f_equal.
    rewrite firstn_app, Hf, Nat.sub_diag. cbn [firstn].
    rewrite app_nil_r, firstn_firstn, Nat.min_id.
    rewrite skipn_app, Hf.
    replace (S (Z.to_nat p) - Z.to_nat p)%nat with 1%nat by lia.
    rewrite skipn_all2 by lia. cbn [skipn app].
    apply firstn_skipn.
  - unfold PyList.len. rewrite length_app. cbn [length].
    rewrite Hf, length_skipn. lia.
Qed.

Lemma append_sends s l :
  append (PLayer l) s
  = emit (add_item l (__len__ s)) (with_list (_list s ++ [l]) s).
Proof.
  rewrite append_run. do 2 f_equal.
  unfold __len__, PyList.len. rewrite length_app. cbn [length]. lia.
Qed.

Lemma NoDup_without (l : list loc) (k : nat) (x : loc) :
  NoDup l -> nth_error l k = Some x ->
  ~ In x (firstn k l ++ skipn (S k) l).
Proof.
  intros Hnd Hx Hin.
  apply nth_error_split in Hx. destruct Hx as (l1 & l2 & Hs & Hlen).
  rewrite Hs in Hnd, Hin. apply NoDup_remove_2 in Hnd. apply Hnd.
  rewrite firstn_app, skipn_app in Hin.
  rewrite <- Hlen in Hin.
  rewrite firstn_all, Nat.sub_diag in Hin. cbn [firstn] in Hin.
  rewrite app_nil_r in Hin.
  rewrite skipn_all2 in Hin by lia.
  replace (S (length l1) - length l1)%nat with 1%nat in Hin by lia.
  exact Hin.
Qed.

Lemma pop_run s id p x rest :
  _to_index s id = Ok p ->
  PyList.pop (_list s) p = Ok (x, rest) ->
  pop id s = match emit (remove_item x) (with_list rest s) with
             | Return _ s' => Return x s'
             | Raise e s' => Raise e s'
             end.
Proof.
  intros Hid Hpop. unfold pop, bind, lift, list_pop, ret.
  now rewrite Hid, Hpop.
Qed.

Lemma pop_fails s id p e :
  _to_index s id = Ok p ->
  PyList.pop (_list s) p = Err e ->
  pop id s = Raise e s.
Proof.
  intros Hid Hpop. unfold pop, bind, lift, list_pop, ret.
  now rewrite Hid, Hpop.
Qed.

Lemma pop_run_final s id p x rest :
  _to_index s id = Ok p ->
  PyList.pop (_list s) p = Ok (x, rest) ->
  final (pop id s) = final (emit (remove_item x) (with_list rest s)) /\
  (callbacks_return s -> pop id s = Return x (final (pop id s))).
Proof.
  intros Hid Hpop. rewrite (pop_run _ _ _ _ _ Hid Hpop). split.
  - now destruct (emit (remove_item x) (with_list rest s)).
  - intros Hc. rewrite (emit_outcome _ (with_list rest s) Hc). reflexivity.
Qed.

(** X8: [append] puts the layer last, so that [collection[-1]] is the
    layer, and its add_item notification carries the position of the layer
    (the length before); anything that is not a layer is refused with
    TypeError, the collection untouched. *)
Theorem append_puts_last_and_reports_position (s : state) :
  (forall l,
      let o := append (PLayer l) s in
      _list (final o) = _list s ++ [l] /\
      __getitem__ (final o) (PInt (-1)) = Ok (a_layer l) /\
      emitted (final o) = emitted s ++ [add_item l (__len__ s)] /\
      (callbacks_return s -> o = Return tt (final o))) /\
  (forall obj, (forall l, obj <> PLayer l) -> append obj s = Raise TypeError s).
Proof.
  split.
  - intros l o. unfold o. rewrite append_sends.
    assert (Hl : _list (final (emit (add_item l (__len__ s))
                    (with_list (_list s ++ [l]) s))) = _list s ++ [l])
      by now rewrite emit_list.
    split; [exact Hl|]. split; [|split].
    + rewrite getitem_int_lookup, Hl, norm_index_cases.
      unfold PyList.len. rewrite length_app. cbn [length].
      replace ((- Z.of_nat (length (_list s) + 1) <=? -1)
               && (-1 <? Z.of_nat (length (_list s) + 1))) with true
        by (symmetry; apply andb_true_iff; split;
            [apply Z.leb_le|apply Z.ltb_lt]; lia).
      change (-1 <? 0) with true. cbv iota.
      replace (Z.to_nat (-1 + Z.of_nat (length (_list s) + 1)))
        with (length (_list s)) by lia.
      now rewrite nth_error_app2, Nat.sub_diag by lia.
    + now rewrite emit_emitted.
    + intros Hc. now apply emit_outcome.
  - intros obj Hobj. destruct obj; try reflexivity.
    now contradiction (Hobj l).
Qed.

Lemma append_puts_last_and_reports_position_witness :
  append (PStr "A") (Sample.bound [0; 1]%nat []) =
  Raise TypeError (Sample.bound [0; 1]%nat []).
Proof.
  apply (proj2 (append_puts_last_and_reports_position
                  (Sample.bound [0; 1]%nat []))).
  intros l. discriminate.
Defined.

(** X9: [insert] does not raise for an int position outside the list as
    long as the int fits a C [Py_ssize_t]: a position at or past the end
    appends, one at or below minus the length prepends, a negative one
    within the list counts from its end, and the add_item notification
    still carries the position given minus one.  An int that does not fit
    raises OverflowError, with the collection as it was. *)
Theorem insert_clamps_position (s : state) (p : Z) (l : loc) :
  let o := insert (PInt p) (PLayer l) s in
  (- PyList.max_ssize_t - 1 <= p <= PyList.max_ssize_t ->
   (__len__ s <= p -> _list (final o) = _list s ++ [l]) /\
   (p <= - __len__ s -> _list (final o) = l :: _list s) /\
   (- __len__ s <= p < 0 ->
    _list (final o)
    = firstn (Z.to_nat (p + __len__ s)) (_list s) ++
      l :: skipn (Z.to_nat (p + __len__ s)) (_list s)) /\
   emitted (final o) = emitted s ++ [add_item l (p - 1)] /\
   (callbacks_return s -> o = Return tt (final o))) /\
  (__len__ s <= PyList.max_ssize_t ->
   p < - PyList.max_ssize_t - 1 \/ PyList.max_ssize_t < p ->
   o = Raise OverflowError s).
Proof.
  intros o. unfold o. split.
  - intros Hfit.
    assert (Hins : PyList.insert (_list s) p l
                   = Ok (let n := PyList.len (_list s) in
                         let j := if p <? 0 then Z.max (p + n) 0
                                  else Z.min p n in
                         firstn (Z.to_nat j) (_list s)
                         ++ l :: skipn (Z.to_nat j) (_list s))).
    { unfold PyList.insert. now rewrite fits_ssize_t_small by exact Hfit. }
    rewrite (insert_run s (PInt p) l p _ eq_refl Hins).
    rewrite emit_list, emit_emitted. cbn [_list emitted with_list].
    unfold __len__. cbv zeta.
    assert (Hn : 0 <= PyList.len (_list s)) by (unfold PyList.len; lia).
    split; [|split; [|split; [|split]]].
    + intros Hp.
      replace (p <? 0) with false by (symmetry; apply Z.ltb_ge; lia).
      rewrite Z.min_r by lia. unfold PyList.len. rewrite Nat2Z.id.
      now rewrite firstn_all, skipn_all.
    + intros Hp. destruct (p <? 0) eqn:E.
      * rewrite Z.max_r by lia. reflexivity.
      * apply Z.ltb_ge in E. assert (p = 0) by lia. subst p.
        rewrite Z.min_l by lia. reflexivity.
    + intros Hp.
      replace (p <? 0) with true by (symmetry; apply Z.ltb_lt; lia).
      now rewrite Z.max_l by lia.
    + reflexivity.
    + intros Hc. now apply emit_outcome.
  - intros Hlen Hp.
    apply (insert_fails s (PInt p) l p _ eq_refl).
    apply list_insert_overflow. now apply fits_ssize_t_beyond.
Qed.

Lemma insert_clamps_position_witness :
  let s := Sample.bound [0; 1]%nat [] in
  _list (final (insert (PInt 7) (PLayer 3%nat) s)) = [0; 1; 3]%nat /\
  _list (final (insert (PInt (-7)) (PLayer 3%nat) s)) = [3; 0; 1]%nat /\
  insert (PInt (2 ^ 70)) (PLayer 3%nat) s = Raise OverflowError s.
Proof.
  intros s. split; [|split].
  - destruct (insert_clamps_position s 7 3%nat) as (H & _).
    destruct H as (H & _).
    + vm_compute. split; discriminate.
    + apply H. vm_compute. discriminate.
  - destruct (insert_clamps_position s (-7) 3%nat) as (H & _).
    destruct H as (_ & H & _).
    + vm_compute. split; discriminate.
    + apply H. vm_compute. discriminate.
  - destruct (insert_clamps_position s (2 ^ 70) 3%nat) as (_ & H).
    apply H.
    + vm_compute. discriminate.
    + right. vm_compute. reflexivity.
Defined.

(** X10: [pop] with an identifier that resolves to a position of the
    collection returns the layer there, takes it out of the sequence, leaves
    it with the order 0 and without a viewer, and sends one remove_item
    notification for it; when the collection held it once, it is no longer
    in the collection. *)
Theorem pop_returns_and_resets_layer (s : state) (id : pyobj) (p : Z) :
  _to_index s id = Ok p ->
  0 <= p < __len__ s ->
  let x := pick (_list s) p in
  let o := pop id s in
  _list (final o)
    = firstn (Z.to_nat p) (_list s) ++ skipn (S (Z.to_nat p)) (_list s) /\
  _order (layers (final o) x) = 0 /\
  layer_viewer (layers (final o) x) = None /\
  emitted (final o) = emitted s ++ [remove_item x] /\
  (NoDup (_list s) -> ~ In x (_list (final o))) /\
  (callbacks_return s -> o = Return x (final o)).
Proof.
  intros Hid Hp x o.
  pose proof (list_pop_within (_list s) p Hp) as Hpop. fold x in Hpop.
  destruct (pop_run_final s id p x _ Hid Hpop) as [Hfin Hret].
  unfold o. rewrite Hfin.
  rewrite emit_list, emit_emitted, emit_remove_order,
    emit_remove_layer_viewer.
  cbn [_list emitted with_list].
  repeat (split; [reflexivity|]). split.
  - intros Hnd. apply NoDup_without; [exact Hnd|].
    unfold x, pick. apply nth_error_nth'. llia.
  - rewrite <- Hfin. exact Hret.
Qed.

Lemma pop_returns_and_resets_layer_witness :
  let s := Sample.bound [0; 1; 2]%nat [] in
  _list (final (pop (PStr "B") s)) = [0; 2]%nat /\
  pop (PStr "B") s = Return 1%nat (final (pop (PStr "B") s)).
Proof.
  intros s.
  destruct (pop_returns_and_resets_layer s (PStr "B") 1 eq_refl)
    as (Hl & _ & _ & _ & _ & Hr).
  - vm_compute. split; [discriminate|reflexivity].
  - split; [exact Hl|]. apply Hr. left. discriminate.
Defined.

(** X11: what [pop] raises when the identifier finds nothing, the
    collection untouched in each case: IndexError for [pop()] on an empty
    collection and for an int outside [-len .. len-1] that fits a C
    [Py_ssize_t] (not the KeyError of the lookup), OverflowError for an int
    that does not fit, ValueError for a name that no layer carries and for a
    layer that is not in the collection, TypeError for anything else. *)
Theorem pop_errors (s : state) :
  (_list s = [] -> pop_last s = Raise IndexError s) /\
  (forall i, i < - __len__ s \/ __len__ s <= i ->
             - PyList.max_ssize_t - 1 <= i <= PyList.max_ssize_t ->
             pop (PInt i) s = Raise IndexError s) /\
  (forall i, __len__ s <= PyList.max_ssize_t ->
             i < - PyList.max_ssize_t - 1 \/ PyList.max_ssize_t < i ->
             pop (PInt i) s = Raise OverflowError s) /\
  (forall nm, unused s None nm ->
              pop (PStr nm) s = Raise (ValueError (VE_query (PStr nm))) s) /\
  (forall l, ~ In l (_list s) ->
             pop (PLayer l) s = Raise (ValueError VE_not_in_list) s) /\
  (forall a b c, pop (PSlice a b c) s = Raise TypeError s) /\
  (forall items, pop (PSeq items) s = Raise TypeError s) /\
  pop PObject s = Raise TypeError s.
Proof.
  split; [|split; [|split; [|split; [|split; [|split; [|split]]]]]].
  - intros He. apply (pop_fails s (PInt (-1)) (-1) _ eq_refl).
    now rewrite He.
  - intros i Hi Hfit. apply (pop_fails s (PInt i) i _ eq_refl).
    apply list_pop_outside; [exact Hi|now apply fits_ssize_t_small].
  - intros i Hlen Hi. apply (pop_fails s (PInt i) i _ eq_refl).
    apply list_pop_overflow. now apply fits_ssize_t_beyond.
  - intros nm Hun.
    pose proof (index_unknown_name s nm Hun) as Hi.
    change (index s (PStr nm) None None)
      with (_to_index s (PStr nm)) in Hi.
    unfold pop, bind, lift. now rewrite Hi.
  - intros l Hl.
    pose proof (index_absent_layer s l Hl) as Hi.
    change (index s (PLayer l) None None)
      with (_to_index s (PLayer l)) in Hi.
    unfold pop, bind, lift. now rewrite Hi.
  - reflexivity.
  - reflexivity.
  - reflexivity.
Qed.

Lemma pop_errors_witness :
  pop_last (Sample.bound [] []) = Raise IndexError (Sample.bound [] []) /\
  pop (PInt (-3)) (Sample.bound [0; 1]%nat [])
  = Raise IndexError (Sample.bound [0; 1]%nat []) /\
  pop (PInt (2 ^ 70)) (Sample.bound [0; 1]%nat [])
  = Raise OverflowError (Sample.bound [0; 1]%nat []).
Proof.
  split; [|split].
  - apply (proj1 (pop_errors (Sample.bound [] []))). reflexivity.
  - apply (proj1 (proj2 (pop_errors (Sample.bound [0; 1]%nat [])))).
    + left. vm_compute. reflexivity.
    + vm_compute. split; discriminate.
  - apply (proj1 (proj2 (proj2 (pop_errors (Sample.bound [0; 1]%nat []))))).
    + vm_compute. discriminate.
    + right. vm_compute. reflexivity.
Defined.

(** X12: [append] followed by [pop()] gives back the layer and the sequence
    as it was; the layer comes out with the order 0, and the two
    notifications are add_item then remove_item. *)
Theorem append_then_pop_restores (s : state) (l : loc) :
  let o1 := append (PLayer l) s in
  let o2 := pop_last (final o1) in
  _list (final o2) = _list s /\
  _order (layers (final o2) l) = 0 /\
  emitted (final o2)
    = emitted s ++ [add_item l (__len__ s); remove_item l] /\
  (callbacks_return s -> o2 = Return l (final o2)).
Proof.
  intros o1 o2.
  assert (H1 : o1 = emit (add_item l (__len__ s))
                      (with_list (_list s ++ [l]) s))
    by apply append_sends.
  assert (Hl1 : _list (final o1) = _list s ++ [l])
    by now rewrite H1, emit_list.
  assert (He1 : emitted (final o1) = emitted s ++ [add_item l (__len__ s)])
    by now rewrite H1, emit_emitted.
  assert (Hpop : PyList.pop (_list (final o1)) (-1) = Ok (l, _list s))
    by (rewrite Hl1; apply list_pop_last).
  destruct (pop_run_final (final o1) (PInt (-1)) (-1) l _ eq_refl Hpop)
    as [Hfin Hret].
  unfold o2, pop_last. rewrite Hfin.
  rewrite emit_list, emit_remove_order, emit_emitted.
  cbn [_list emitted with_list]. rewrite He1, <- app_assoc.
  repeat (split; [reflexivity|]).
  intros Hc. rewrite <- Hfin. apply Hret.
  rewrite H1. apply emit_callbacks_return. exact Hc.
Qed.

Lemma append_then_pop_restores_witness :
  let s := Sample.bound [0; 1]%nat [] in
  pop_last (final (append (PLayer 2%nat) s))
  = Return 2%nat (final (pop_last (final (append (PLayer 2%nat) s)))).
Proof.
  intros s. destruct (append_then_pop_restores s 2%nat) as (_ & _ & _ & H).
  apply H. left. discriminate.
Defined.


(** X13: [insert] at a position of the collection (or at its length)
    followed by [pop] at the same position gives back the layer and the
    sequence as it was. *)
Theorem insert_then_pop_restores (s : state) (p : Z) (l : loc) :
  0 <= p <= __len__ s ->
  let o1 := insert (PInt p) (PLayer l) s in
  let o2 := pop (PInt p) (final o1) in
  _list (final o2) = _list s /\
  emitted (final o2) = emitted s ++ [add_item l (p - 1); remove_item l] /\
  (callbacks_return s -> o2 = Return l (final o2)).
Proof.
  intros Hp o1 o2.
  assert (H1 : o1 = emit (add_item l (p - 1))
                      (with_list
                         (firstn (Z.to_nat p) (_list s)
                          ++ l :: skipn (Z.to_nat p) (_list s)) s))
    by exact (insert_run s (PInt p) l p _ eq_refl
                         (list_insert_within _ _ _ Hp)).
  assert (Hl1 : _list (final o1)
                = firstn (Z.to_nat p) (_list s)
                  ++ l :: skipn (Z.to_nat p) (_list s))
    by now rewrite H1, emit_list.
  assert (Hpop : PyList.pop (_list (final o1)) p = Ok (l, _list s))
    by (rewrite Hl1; now apply list_pop_inserted).
  destruct (pop_run_final (final o1) (PInt p) p l _ eq_refl Hpop)
    as [Hfin Hret].
  split; [|split].
  - unfold o2. now rewrite Hfin, emit_list.
  - unfold o2. rewrite Hfin, emit_emitted. cbn [emitted with_list].
    rewrite H1, emit_emitted. cbn [emitted with_list].
    now rewrite <- app_assoc.
  - intros Hc. apply Hret.
    rewrite H1. apply emit_callbacks_return. exact Hc.
Qed.

Lemma insert_then_pop_restores_witness :
  let s := Sample.bound [0; 1; 2]%nat [] in
  let o1 := insert (PInt 1) (PLayer 4%nat) s in
  _list (final (pop (PInt 1) (final o1))) = [0; 1; 2]%nat.
Proof.
  intros s o1.
  apply (insert_then_pop_restores s 1 4%nat).
  vm_compute. split; discriminate.
Defined.

(* ================================================================= *)
(** ** Rearranging: swap, and what every rearrangement keeps *)

Lemma swap_shape a b s :
  (exists e, swap a b s = Raise e s) \/
  (exists i j (ki kj : nat) xi xj,
      _to_index s a = Ok i /\ _to_index s b = Ok j /\
      PyList.norm_index (_list s) i = Some ki /\
      PyList.norm_index (_list s) j = Some kj /\
      nth_error (_list s) ki = Some xi /\
      nth_error (_list s) kj = Some xj /\
      swap a b s
      = emit reorder_event
             (with_list (PyList.replace_nth kj xi
                           (PyList.replace_nth ki xj (_list s))) s)).
Proof.
  unfold swap, bind, lift, list_get, list_set.
  destruct (_to_index s a) as [i|e] eqn:Ea; [|left; now exists e].
  destruct (_to_index s b) as [j|e] eqn:Eb; [|left; now exists e].
  unfold PyList.getitem, PyList.setitem.
  destruct (PyList.norm_index (_list s) j) as [kj|] eqn:Ej;
    [|left; now exists IndexError].
  destruct (nth_error (_list s) kj) as [xj|] eqn:Hxj;
    [|left; now exists IndexError].
  destruct (PyList.norm_index (_list s) i) as [ki|] eqn:Ei;
    [|left; now exists IndexError].
  destruct (nth_error (_list s) ki) as [xi|] eqn:Hxi;
    [|left; now exists IndexError].
  rewrite Ei. cbn [_list with_list].
  rewrite (norm_index_same_length
             (PyList.replace_nth ki xj (_list s)) (_list s) j)
    by apply length_replace_nth.
  rewrite Ej. right. exists i, j, ki, kj, xi, xj. now repeat split.
Qed.

Lemma nth_error_exchange {A} (l : list A) ki kj xi xj :
  nth_error l ki = Some xi -> nth_error l kj = Some xj ->
  forall m,
    nth_error (PyList.replace_nth kj xi (PyList.replace_nth ki xj l)) m
    = if Nat.eqb m kj then nth_error l ki
      else if Nat.eqb m ki then nth_error l kj
      else nth_error l m.
Proof.
  intros Hi Hj m.
  pose proof (nth_error_lt _ _ _ Hi) as Hki.
  pose proof (nth_error_lt _ _ _ Hj) as Hkj.
  destruct (Nat.eqb m kj) eqn:E1.
  - apply Nat.eqb_eq in E1. subst m.
    rewrite nth_error_replace_nth_eq, Hi
      by (now rewrite length_replace_nth).
    reflexivity.
  - apply Nat.eqb_neq in E1.
    rewrite nth_error_replace_nth_neq by assumption.
    destruct (Nat.eqb m ki) eqn:E2.
    + apply Nat.eqb_eq in E2. subst m.
      now rewrite nth_error_replace_nth_eq, Hj.
    + apply Nat.eqb_neq in E2.
      now rewrite nth_error_replace_nth_neq.
Qed.

Lemma count_occ_replace_nth (l : list loc) : forall k x z y,
  nth_error l k = Some z ->
  (count_occ Nat.eq_dec (PyList.replace_nth k x l) y
   + (if Nat.eq_dec z y then 1 else 0)
   = count_occ Nat.eq_dec l y + (if Nat.eq_dec x y then 1 else 0))%nat.
Proof.
  induction l as [|a l IH]; intros [|k] x z y H; simpl in H; try discriminate.
  - injection H as ->. simpl.
    destruct (Nat.eq_dec z y), (Nat.eq_dec x y); lia.
  - simpl. specialize (IH k x z y H).
    destruct (Nat.eq_dec a y); lia.
Qed.

Lemma Permutation_exchange (l : list loc) ki kj xi xj :
  nth_error l ki = Some xi -> nth_error l kj = Some xj ->
  Permutation (PyList.replace_nth kj xi (PyList.replace_nth ki xj l)) l.
Proof.
  intros Hi Hj. apply (Permutation_count_occ Nat.eq_dec). intros y.
  pose proof (count_occ_replace_nth l ki xj xi y Hi) as H1.
  assert (Hj' : nth_error (PyList.replace_nth ki xj l) kj = Some xj).
  { destruct (Nat.eq_dec kj ki) as [->|Hne].
    - apply nth_error_replace_nth_eq. now apply (nth_error_lt _ _ xi).
    - now rewrite nth_error_replace_nth_neq. }
  pose proof (count_occ_replace_nth _ kj xi xj y Hj') as H2.
  lia.
Qed.

Lemma norm_index_position s i :
  - __len__ s <= i < __len__ s ->
  PyList.norm_index (_list s) i = Some (Z.to_nat (position s i)) /\
  0 <= position s i < __len__ s.
Proof.
  intros H. rewrite norm_index_cases. unfold position, __len__ in *.
  replace ((- PyList.len (_list s) <=? i) && (i <? PyList.len (_list s)))
    with true
    by (symmetry; apply andb_true_iff; split;
        [apply Z.leb_le|apply Z.ltb_lt]; lia).
  split; [reflexivity|].
  destruct (i <? 0) eqn:E;
    [apply Z.ltb_lt in E|apply Z.ltb_ge in E]; lia.
Qed.

Lemma pick_nth_error (l : list loc) (k : nat) :
  (k < length l)%nat -> nth_error l k = Some (pick l (Z.of_nat k)).
Proof.
  intros H. unfold pick. rewrite Nat2Z.id. now apply nth_error_nth'.
Qed.

Lemma swap_run_int s i j :
  - __len__ s <= i < __len__ s ->
  - __len__ s <= j < __len__ s ->
  swap (PInt i) (PInt j) s
  = emit reorder_event
         (with_list
            (PyList.replace_nth (Z.to_nat (position s j))
               (pick (_list s) (position s i))
               (PyList.replace_nth (Z.to_nat (position s i))
                  (pick (_list s) (position s j)) (_list s))) s).
Proof.
  intros Hi Hj.
  destruct (norm_index_position s i Hi) as [Ni Pi].
  destruct (norm_index_position s j Hj) as [Nj Pj].
  unfold swap, bind, lift, list_get, list_set.
  change (_to_index s (PInt i)) with (@Ok Z i). cbv beta iota.
  change (_to_index s (PInt j)) with (@Ok Z j). cbv beta iota.
  unfold PyList.getitem, PyList.setitem. rewrite Nj.
  assert (Hxi : nth_error (_list s) (Z.to_nat (position s i))
                = Some (pick (_list s) (position s i))).
  { unfold pick. apply nth_error_nth'. llia. }
  assert (Hxj : nth_error (_list s) (Z.to_nat (position s j))
                = Some (pick (_list s) (position s j))).
  { unfold pick. apply nth_error_nth'. llia. }
  rewrite Hxj. cbv beta iota. rewrite Ni, Hxi. cbv beta iota.
  rewrite Ni. cbv beta iota. cbn [_list with_list].
  rewrite (norm_index_same_length _ (_list s) j)
    by apply length_replace_nth.
  now rewrite Nj.
Qed.

Lemma exchange_pick (l : list loc) (pi pj : Z) :
  0 <= pi < PyList.len l ->
  0 <= pj < PyList.len l ->
  forall k, 0 <= k < PyList.len l ->
    pick (PyList.replace_nth (Z.to_nat pj) (pick l pi)
            (PyList.replace_nth (Z.to_nat pi) (pick l pj) l)) k
    = if k =? pi then pick l pj
      else if k =? pj then pick l pi
      else pick l k.
Proof.
  intros Pi Pj k Hk.
  assert (Hxi : nth_error l (Z.to_nat pi) = Some (pick l pi)).
  { unfold pick. apply nth_error_nth'. llia. }
  assert (Hxj : nth_error l (Z.to_nat pj) = Some (pick l pj)).
  { unfold pick. apply nth_error_nth'. llia. }
  pose proof (nth_error_exchange _ _ _ _ _ Hxi Hxj (Z.to_nat k)) as Hm.
  assert (Hpick : forall l' x,
             nth_error l' (Z.to_nat k) = Some x -> pick l' k = x).
  { intros l' x Hx. unfold pick. now apply nth_error_nth. }
  destruct (k =? pi) eqn:Eki;
    [apply Z.eqb_eq in Eki|apply Z.eqb_neq in Eki].
  - apply Hpick. rewrite Hm.
    destruct (Nat.eqb (Z.to_nat k) (Z.to_nat pj)) eqn:E1.
    + apply Nat.eqb_eq in E1.
      replace pj with pi by lia. exact Hxi.
    + replace (Nat.eqb (Z.to_nat k) (Z.to_nat pi)) with true
        by (symmetry; apply Nat.eqb_eq; now subst).
      exact Hxj.
  - destruct (k =? pj) eqn:Ekj;
      [apply Z.eqb_eq in Ekj|apply Z.eqb_neq in Ekj].
    + apply Hpick. rewrite Hm.
      replace (Nat.eqb (Z.to_nat k) (Z.to_nat pj)) with true
        by (symmetry; apply Nat.eqb_eq; now subst).
      exact Hxi.
    + apply Hpick. rewrite Hm.
      replace (Nat.eqb (Z.to_nat k) (Z.to_nat pj)) with false
        by (symmetry; apply Nat.eqb_neq; lia).
      replace (Nat.eqb (Z.to_nat k) (Z.to_nat pi)) with false
        by (symmetry; apply Nat.eqb_neq; lia).
      unfold pick. apply nth_error_nth'. llia.
Qed.

(** X14: [swap(i, j)] for two subscripts of the collection (negative ones
    counting from the end) puts each of the two layers at the other's
    position and leaves every other position as it was; it sends one reorder
    notification. *)
Theorem swap_exchanges_two_positions (s : state) (i j : Z) :
  - __len__ s <= i < __len__ s ->
  - __len__ s <= j < __len__ s ->
  let o := swap (PInt i) (PInt j) s in
  length (_list (final o)) = length (_list s) /\
  (forall k, 0 <= k < __len__ s ->
     pick (_list (final o)) k
     = if k =? position s i then pick (_list s) (position s j)
       else if k =? position s j then pick (_list s) (position s i)
       else pick (_list s) k) /\
  emitted (final o) = emitted s ++ [reorder_event] /\
  (callbacks_return s -> o = Return tt (final o)).
Proof.
  intros Hi Hj o. unfold o. rewrite (swap_run_int s i j Hi Hj).
  destruct (norm_index_position s i Hi) as [_ Pi].
  destruct (norm_index_position s j Hj) as [_ Pj].
  rewrite emit_list, emit_emitted. cbn [_list emitted with_list].
  split; [now rewrite !length_replace_nth|]. split; [|split].
  - intros k Hk. now apply exchange_pick.
  - reflexivity.
  - intros Hc. now apply emit_outcome.
Qed.

Lemma swap_exchanges_two_positions_witness :
  _list (final (swap (PInt 0) (PInt (-1)) (Sample.bound [0; 1; 2]%nat [])))
  = [2; 1; 0]%nat /\
  swap (PInt 0) (PInt (-1)) (Sample.bound [0; 1; 2]%nat [])
  = Return tt (final (swap (PInt 0) (PInt (-1))
                           (Sample.bound [0; 1; 2]%nat []))).
Proof.
  destruct (swap_exchanges_two_positions
              (Sample.bound [0; 1; 2]%nat []) 0 (-1))
    as (_ & _ & _ & Hr).
  - vm_compute. split; [discriminate|reflexivity].
  - vm_compute. split; [discriminate|reflexivity].
  - split; [reflexivity|]. apply Hr. left. discriminate.
Defined.

(** X15: the same [swap(i, j)] done twice puts the sequence back as it
    was. *)
Theorem swap_twice_restores (s : state) (i j : Z) :
  - __len__ s <= i < __len__ s ->
  - __len__ s <= j < __len__ s ->
  let o1 := swap (PInt i) (PInt j) s in
  let o2 := swap (PInt i) (PInt j) (final o1) in
  _list (final o2) = _list s /\
  emitted (final o2) = emitted s ++ [reorder_event; reorder_event].
Proof.
  intros Hi Hj o1 o2.
  destruct (norm_index_position s i Hi) as [_ Pi].
  destruct (norm_index_position s j Hj) as [_ Pj].
  pose proof (swap_run_int s i j Hi Hj) as H1. fold o1 in H1.
  remember (PyList.replace_nth (Z.to_nat (position s j))
              (pick (_list s) (position s i))
              (PyList.replace_nth (Z.to_nat (position s i))
                 (pick (_list s) (position s j)) (_list s))) as l1 eqn:El1.
  assert (Hl1 : _list (final o1) = l1) by now rewrite H1, emit_list.
  assert (Hem1 : emitted (final o1) = emitted s ++ [reorder_event])
    by now rewrite H1, emit_emitted.
  assert (Hlen1 : length l1 = length (_list s))
    by (rewrite El1; now rewrite !length_replace_nth).
  assert (Hpick1 : forall k, 0 <= k < __len__ s ->
            pick l1 k
            = if k =? position s i then pick (_list s) (position s j)
              else if k =? position s j then pick (_list s) (position s i)
              else pick (_list s) k)
    by (intros k Hk; rewrite El1; now apply exchange_pick).
  assert (Hlen : __len__ (final o1) = __len__ s)
    by (unfold __len__, PyList.len; now rewrite Hl1, Hlen1).
  assert (Hpos : forall z, position (final o1) z = position s z)
    by (intros z; unfold position; now rewrite Hlen).
  assert (H2 : o2 = swap (PInt i) (PInt j) (final o1)) by reflexivity.
  rewrite (swap_run_int (final o1) i j) in H2 by now rewrite Hlen.
  rewrite !Hpos, Hl1 in H2.
  assert (Pi1 : 0 <= position s i < PyList.len l1)
    by (unfold PyList.len; rewrite Hlen1; exact Pi).
  assert (Pj1 : 0 <= position s j < PyList.len l1)
    by (unfold PyList.len; rewrite Hlen1; exact Pj).
  split.
  - rewrite H2, emit_list. cbn [_list with_list].
    apply (@nth_ext loc _ _ 0%nat 0%nat);
      [now rewrite !length_replace_nth|].
    intros n Hn. rewrite !length_replace_nth in Hn.
    assert (Hk : 0 <= Z.of_nat n < __len__ s) by llia.
    assert (Hk1 : 0 <= Z.of_nat n < PyList.len l1)
      by (unfold PyList.len; rewrite Hlen1; exact Hk).
    pose proof (exchange_pick l1 _ _ Pi1 Pj1 (Z.of_nat n) Hk1) as Hp2.
    unfold pick at 1 in Hp2. rewrite Nat2Z.id in Hp2.
    rewrite Hp2. clear Hp2.
    rewrite (Hpick1 (position s i) Pi), (Hpick1 (position s j) Pj).
    rewrite (Hpick1 (Z.of_nat n) Hk).
    assert (Hn' : nth n (_list s) 0%nat = pick (_list s) (Z.of_nat n))
      by (unfold pick; now rewrite Nat2Z.id).
    rewrite Hn'.
    repeat match goal with
           | |- context [?a =? ?b] => destruct (Z.eqb_spec a b)
           end; congruence.
  - rewrite H2, emit_emitted. cbn [emitted with_list].
    rewrite Hem1. now rewrite <- app_assoc.
Qed.

Lemma swap_twice_restores_witness :
  let s := Sample.bound [0; 1; 2]%nat [] in
  _list (final (swap (PInt 0) (PInt 2) (final (swap (PInt 0) (PInt 2) s))))
  = [0; 1; 2]%nat.
Proof.
  intros s. apply (swap_twice_restores s 0 2);
    vm_compute; (split; [discriminate|reflexivity]).
Defined.

Lemma reorder_outcome args s :
  (exists e, reorder args s = Raise e s) \/
  (exists ordering new,
      _reordered_list s ordering = Ok new /\
      reorder args s = emit reorder_event (with_list new s)).
Proof.
  unfold reorder. destruct args as [|first rest].
  - left. now exists IndexError.
  - unfold bind, lift, modify, ret, raise.
    destruct (is_identifier first).
    + destruct (_reordered_list s (first :: rest)) as [new|e] eqn:E.
      * right. now exists (first :: rest), new.
      * left. now exists e.
    + destruct first; try (left; now exists TypeError).
      destruct (_reordered_list s items) as [new|e] eqn:E.
      * right. now exists items, new.
      * left. now exists e.
Qed.

Lemma move_outcome index insert s :
  (exists e, _move_layers index insert s = Raise e s) \/
  (exists indices,
      _move_layers index insert s = reorder [PSeq (map PInt indices)] s).
Proof.
  rewrite move_layers_unfold.
  destruct (layer_at index s) as [x|e]; [|left; now exists e].
  cbv zeta.
  match goal with
  | |- context [remove_each ?sel ?ind] =>
      destruct (remove_each sel ind) as [indices|]
  end; [|left; now exists (ValueError VE_not_in_list)].
  match goal with
  | |- context [insert_each ?start ?sel ?ind] =>
      destruct (insert_each start sel ind) as [spliced|e]
  end; [right; now exists spliced|left; now exists e].
Qed.

(** X16: [swap], [reorder] and [_move_layers] only rearrange: whatever the
    arguments, and whether the call returns or raises, the sequence
    afterwards is a permutation of the sequence before, so that no layer is
    lost or held more often than it was. *)
Theorem rearranging_keeps_the_layers (op : operation) (s : state) :
  rearranges op ->
  Permutation (_list (final (run op s))) (_list s).
Proof.
  assert (Hre : forall args,
             Permutation (_list (final (reorder args s))) (_list s)).
  { intros args.
    destruct (reorder_outcome args s) as [[e ->]|(ordering & new & Hn & ->)].
    - reflexivity.
    - rewrite emit_list. cbn [_list with_list].
      now apply (reordered_list_permutation s ordering). }
  destruct op as [obj|id obj|id|a b|args|index insert]; cbn [run rearranges];
    intros H; try contradiction.
  - destruct (swap_shape a b s)
      as [[e ->]|(i & j & ki & kj & xi & xj & _ & _ & _ & _ & Hi & Hj & ->)].
    + reflexivity.
    + rewrite emit_list. cbn [_list with_list].
      now apply Permutation_exchange.
  - apply Hre.
  - destruct (move_outcome index insert s) as [[e ->]|[indices ->]].
    + reflexivity.
    + apply Hre.
Qed.

Lemma rearranging_keeps_the_layers_witness :
  Permutation
    (_list (final (run (op_move 2 0) (Sample.bound [0; 1; 2; 3]%nat [2; 3]%nat))))
    [0; 1; 2; 3]%nat.
Proof.
  apply (rearranging_keeps_the_layers
           (op_move 2 0) (Sample.bound [0; 1; 2; 3]%nat [2; 3]%nat)).
  exact I.
Defined.

(* ================================================================= *)
(** ** Reordering by the layers themselves, and positions out of range *)

Lemma locate_spec (l : list loc) (x : loc) :
  In x l ->
  0 <= locate l x < PyList.len l /\
  pick l (locate l x) = x /\
  PyList.find_from Nat.eqb 0 x l = Some (locate l x).
Proof.
  intros Hin. unfold locate.
  pose proof (find_from_spec x l 0) as H.
  destruct (PyList.find_from Nat.eqb 0 x l) as [j|]; [|contradiction].
  destruct H as (k & -> & Hk & _).
  pose proof (nth_error_lt _ _ _ Hk) as Hlen.
  unfold PyList.len, pick. simpl (0 + _). rewrite Nat2Z.id.
  split; [lia|]. split; [|reflexivity].
  now apply nth_error_nth.
Qed.

Lemma locate_pick (l : list loc) (k : Z) :
  NoDup l -> 0 <= k < PyList.len l -> locate l (pick l k) = k.
Proof.
  intros Hnd Hk. unfold PyList.len in Hk.
  assert (Hx : nth_error l (Z.to_nat k) = Some (pick l k))
    by (unfold pick; apply nth_error_nth'; lia).
  unfold locate.
  pose proof (find_from_spec (pick l k) l 0) as H.
  destruct (PyList.find_from Nat.eqb 0 (pick l k) l) as [j|].
  - destruct H as (k' & -> & Hk' & _).
    pose proof (nth_error_lt _ _ _ Hk') as Hlen.
    assert (k' = Z.to_nat k).
    { apply (proj1 (NoDup_nth_error l) Hnd); [assumption|congruence]. }
    lia.
  - exfalso. apply H. eapply nth_error_In. exact Hx.
Qed.

Lemma to_index_layer s (x : loc) :
  In x (_list s) -> _to_index s (PLayer x) = Ok (locate (_list s) x).
Proof.
  intros Hin. destruct (locate_spec _ _ Hin) as (_ & _ & Hf).
  unfold _to_index, index. simpl. now rewrite list_index_whole, Hf.
Qed.

Lemma reordered_from_resolved s : forall ordering os,
  Forall2 (fun obj o => _to_index s obj = Ok o) ordering os ->
  forall E, reordered_from s E ordering = reordered_from s E (map PInt os).
Proof.
  induction 1 as [|obj o ordering os Ho _ IH]; intros E; [reflexivity|].
  cbn [map reordered_from]. rewrite Ho.
  change (_to_index s (PInt o)) with (@Ok Z o). cbv beta iota.
  destruct (PyList.remove Z.eqb o E) as [E'|]; [|reflexivity].
  destruct (PyList.getitem (_list s) o); [|reflexivity].
  now rewrite IH.
Qed.

Lemma locate_is_ordering (l l' : list loc) :
  NoDup l -> Permutation l' l ->
  is_ordering (length l) (map (locate l) l').
Proof.
  intros Hnd Hperm.
  assert (Hin : forall x, In x l' <-> In x l).
  { intros x. split; apply Permutation_in;
      [assumption|now apply Permutation_sym]. }
  split.
  - apply NoDup_map_NoDup_ForallPairs.
    + intros x y Hx Hy Heq. apply Hin in Hx, Hy.
      destruct (locate_spec l x Hx) as (_ & <- & _).
      destruct (locate_spec l y Hy) as (_ & <- & _).
      now rewrite Heq.
    + eapply Permutation_NoDup; [apply Permutation_sym; exact Hperm|].
      exact Hnd.
  - intros k. rewrite in_map_iff. split.
    + intros (x & <- & Hx). apply Hin in Hx.
      destruct (locate_spec l x Hx) as (Hb & _). exact Hb.
    + intros Hk. exists (pick l k). split.
      * now apply locate_pick.
      * apply Hin. unfold pick. apply nth_In. lia.
Qed.

(** X17: on a collection that holds no layer twice, [reorder] given the
    layers themselves in the order wanted installs exactly that order, in
    the form with one sequence argument and in the positional form alike. *)
Theorem reorder_by_layers_installs_order (s : state) (l' : list loc) :
  NoDup (_list s) ->
  Permutation l' (_list s) ->
  let o := reorder [PSeq (map PLayer l')] s in
  _list (final o) = l' /\
  emitted (final o) = emitted s ++ [reorder_event] /\
  (l' <> [] -> reorder (map PLayer l') s = o) /\
  (callbacks_return s -> o = Return tt (final o)).
Proof.
  intros Hnd Hperm o.
  assert (Hin : forall x, In x l' -> In x (_list s))
    by (intros x; now apply Permutation_in).
  assert (Hnew : _reordered_list s (map PLayer l') = Ok l').
  { unfold _reordered_list.
    rewrite (reordered_from_resolved s (map PLayer l')
               (map (locate (_list s)) l')).
    - fold (_reordered_list s (map PInt (map (locate (_list s)) l'))).
      rewrite reordered_list_ordering by now apply locate_is_ordering.
      f_equal. rewrite map_map.
      rewrite <- (map_id l') at 2. apply map_ext_in. intros x Hx.
      now destruct (locate_spec _ x (Hin x Hx)) as (_ & Hp & _).
    - clear Hperm. induction l' as [|x l' IH]; simpl; constructor.
      + apply to_index_layer. apply Hin. now left.
      + apply IH. intros y Hy. apply Hin. now right. }
  assert (Hrun : o = emit reorder_event (with_list l' s))
    by now apply reorder_run.
  rewrite Hrun, emit_list, emit_emitted. cbn [_list emitted with_list].
  repeat (split; [reflexivity|]). split.
  - intros Hne. rewrite <- Hrun. destruct l' as [|x t]; [congruence|].
    cbn [map]. now rewrite reorder_positional.
  - intros Hc. now apply emit_outcome.
Qed.

Lemma reorder_by_layers_installs_order_witness :
  _list (final (reorder [PSeq (map PLayer [2; 0; 1]%nat)]
                        (Sample.bound [0; 1; 2]%nat [])))
  = [2; 0; 1]%nat.
Proof.
  apply (reorder_by_layers_installs_order
           (Sample.bound [0; 1; 2]%nat []) [2; 0; 1]%nat).
  - repeat constructor; simpl; intuition discriminate.
  - simpl. apply Permutation_sym.
    apply (perm_trans (perm_skip 0%nat (perm_swap 2%nat 1%nat []))).
    apply perm_swap.
Defined.

Lemma reordered_from_unexpected s : forall os E,
  NoDup os -> NoDup E -> (forall o, In o E -> 0 <= o < __len__ s) ->
  ~ incl os E ->
  exists o, In o os /\ ~ In o E /\
    reordered_from s E (map PInt os) = Err (ValueError (VE_duplicate_index o)).
Proof.
  induction os as [|o os IH]; intros E Hos HE Hval Hbad.
  - exfalso. apply Hbad. intros ? [].
  - inversion Hos as [|? ? Ho Hos']; subst.
    cbn [map reordered_from].
    change (_to_index s (PInt o)) with (@Ok Z o). cbv beta iota.
    destruct (in_dec Z.eq_dec o E) as [HoE|HoE].
    + rewrite (remove_present _ _ HE HoE).
      rewrite (getitem_within _ _ (Hval _ HoE)).
      destruct (IH (filter (fun k => negb (k =? o)) E))
        as (o' & Ho' & Hout & Hr).
      * exact Hos'.
      * now apply NoDup_filter.
      * intros k Hk. apply filter_In in Hk. now apply Hval.
      * intros Hi. apply Hbad. intros k [<-|Hk]; [assumption|].
        apply Hi in Hk. now apply filter_In in Hk.
      * exists o'. split; [now right|]. split; [|now rewrite Hr].
        intros Hin. apply Hout. apply filter_In. split; [assumption|].
        apply negb_true_iff, Z.eqb_neq. congruence.
    + exists o. split; [now left|]. split; [assumption|].
      now rewrite remove_absent.
Qed.

(** X18: [reorder] takes positions from [0 .. len-1] only.  A list of
    distinct ints with one outside that range, a negative one included,
    fails with 'duplicate index', naming a position outside the range
    although nothing is repeated, and the collection is untouched. *)
Theorem reorder_reports_out_of_range_as_duplicate (s : state) (os : list Z) :
  NoDup os ->
  (exists o, In o os /\ (o < 0 \/ __len__ s <= o)) ->
  exists o,
    In o os /\ (o < 0 \/ __len__ s <= o) /\
    reorder [positions os] s
    = Raise (ValueError (VE_duplicate_index o)) s.
Proof.
  intros Hnd (o0 & Ho0 & Hout).
  destruct (reordered_from_unexpected s os (PyList.range (length (_list s))))
    as (o & Ho & HoE & Hr).
  - exact Hnd.
  - apply range_NoDup.
  - intros k Hk. now apply in_range in Hk.
  - intros Hi. apply Hi, in_range in Ho0. llia.
  - exists o. split; [exact Ho|]. split.
    + rewrite in_range in HoE. llia.
    + now apply reorder_fails.
Qed.

Lemma reorder_reports_out_of_range_as_duplicate_witness :
  exists o,
    reorder [positions [1; -1; 0]] (Sample.bound [0; 1; 2]%nat [])
    = Raise (ValueError (VE_duplicate_index o)) (Sample.bound [0; 1; 2]%nat []).
Proof.
  destruct (reorder_reports_out_of_range_as_duplicate
              (Sample.bound [0; 1; 2]%nat []) [1; -1; 0])
    as (o & _ & _ & H).
  - repeat constructor; simpl; intuition discriminate.
  - exists (-1). split; [simpl; tauto|]. left. reflexivity.
  - now exists o.
Defined.

(* ================================================================= *)
(** ** Moving layers by drag and drop: the general form *)

Lemma remove_each_spec : forall sel E,
  NoDup sel -> incl sel E -> NoDup E ->
  remove_each sel E
  = Some (filter (fun k => negb (existsb (Z.eqb k) sel)) E).
Proof.
  induction sel as [|m t IH]; intros E Hsel Hincl HE.
  - simpl. now rewrite forallb_filter_id by (now apply forallb_forall).
  - inversion Hsel as [|? ? Hm Ht]; subst. cbn [remove_each].
    rewrite (remove_present m E HE) by (apply Hincl; now left).
    rewrite IH.
    + rewrite filter_twice. f_equal. apply filter_ext.
      intros k. simpl. symmetry. apply negb_orb.
    + exact Ht.
    + intros k Hk. apply filter_In. split.
      * apply Hincl. now right.
      * apply negb_true_iff, Z.eqb_neq. congruence.
    + now apply NoDup_filter.
Qed.

Lemma max_ssize_t_positive : 0 < PyList.max_ssize_t.
Proof. reflexivity. Qed.

Lemma list_insert_length (l : list Z) (i x : Z) (l' : list Z) :
  PyList.insert l i x = Ok l' -> length l' = S (length l).
Proof.
  unfold PyList.insert. destruct (PyList.fits_ssize_t l i); [|discriminate].
  intros [= <-]. rewrite length_app. cbn [length].
  rewrite length_firstn, length_skipn. lia.
Qed.

(** The insertions go through when the first position is within the list,
    or when the last one still fits a [Py_ssize_t]. *)
Lemma insert_each_spec : forall sel start (rem : list Z),
  0 <= start ->
  start <= PyList.len rem \/
  start + Z.of_nat (length sel) <= PyList.max_ssize_t + 1 ->
  let k := Z.to_nat (Z.min start (PyList.len rem)) in
  insert_each start sel rem = Ok (firstn k rem ++ sel ++ skipn k rem).
Proof.
  induction sel as [|m t IH]; intros start rem Hs Hfit k.
  - simpl. now rewrite firstn_skipn.
  - cbn [insert_each].
    assert (Hk : (k <= length rem)%nat) by (unfold k, PyList.len; lia).
    assert (Hins : PyList.insert rem start m
                   = Ok (firstn k rem ++ m :: skipn k rem)).
    { unfold PyList.insert.
      replace (PyList.fits_ssize_t rem start) with true.
      - replace (start <? 0) with false by (symmetry; apply Z.ltb_ge; lia).
        reflexivity.
      - symmetry. pose proof max_ssize_t_positive.
        destruct Hfit as [Hfit|Hfit].
        + apply fits_ssize_t_within. lia.
        + apply fits_ssize_t_small. cbn [length] in Hfit. lia. }
    assert (Hf : length (firstn k rem) = k)
      by (rewrite length_firstn; lia).
    assert (Hlen : PyList.len (firstn k rem ++ m :: skipn k rem)
                   = PyList.len rem + 1).
    { unfold PyList.len. rewrite length_app. cbn [length].
      rewrite Hf, length_skipn. lia. }
    rewrite Hins, IH; [|lia|rewrite Hlen; cbn [length] in Hfit; lia].
    replace (Z.to_nat (Z.min (start + 1)
               (PyList.len (firstn k rem ++ m :: skipn k rem))))
      with (S k).
    + rewrite firstn_app, skipn_app, Hf.
      rewrite (firstn_all2 (n := S k)) by lia.
      rewrite (skipn_all2 (n := S k)) by lia.
      replace (S k - k)%nat with 1%nat by lia. cbn [firstn skipn app].
      now rewrite <- app_assoc.
    + rewrite Hlen. unfold k, PyList.len. lia.
Qed.

(** They stop with OverflowError when the last position does not fit. *)
Lemma insert_each_overflow : forall sel start (rem : list Z),
  sel <> [] ->
  PyList.max_ssize_t < start + Z.of_nat (length sel) - 1 ->
  PyList.len rem + Z.of_nat (length sel) - 1 <= PyList.max_ssize_t ->
  insert_each start sel rem = Err OverflowError.
Proof.
  induction sel as [|m t IH]; intros start rem Hne Hlast Hlen;
    [contradiction|].
  cbn [insert_each]. cbn [length] in Hlast, Hlen.
  destruct (PyList.insert rem start m) as [rem'|e] eqn:E.
  - destruct t as [|m' t'].
    + exfalso. unfold PyList.insert in E.
      rewrite fits_ssize_t_beyond in E; [discriminate| |right];
        cbn [length] in *; lia.
    + apply IH; [discriminate| |].
      * lia.
      * apply list_insert_length in E. unfold PyList.len in *. lia.
  - now rewrite (list_insert_error _ _ _ _ E).
Qed.

Lemma splice_within_arith (ins : Z) (n cr cm lr cr' : nat) :
  0 <= ins -> ins <= Z.of_nat n ->
  Nat.add cr cm = Z.to_nat (Z.min ins (Z.of_nat n)) ->
  lr = Nat.add cr cr' ->
  ins - Z.of_nat cm <= Z.of_nat lr.
Proof. intros. lia. Qed.

Lemma filter_length_split {A} (f : A -> bool) (l : list A) :
  (length l = length (filter f l) + length (filter (fun x => negb (f x)) l))%nat.
Proof.
  induction l as [|a l IH]; [reflexivity|]. simpl.
  destruct (f a); simpl; lia.
Qed.

Lemma filter_commute {A} (f g : A -> bool) (l : list A) :
  filter f (filter g l) = filter g (filter f l).
Proof.
  rewrite !filter_twice. apply filter_ext. intros x. apply andb_comm.
Qed.

Lemma Permutation_filter_same {A} (f : A -> bool) (l l' : list A) :
  Permutation l l' -> Permutation (filter f l) (filter f l').
Proof.
  induction 1 as [|x l l' _ IH|x y l|l l' l'' _ IH1 _ IH2]; simpl.
  - constructor.
  - destruct (f x); [now constructor|assumption].
  - destruct (f x), (f y); try reflexivity. apply perm_swap.
  - now transitivity (filter f l').
Qed.

(** An ascending run of ints falls into those below [b] and those from
    [b] on, in this order. *)
Lemma ascending_split (b : Z) : forall n a,
  map Z.of_nat (seq a n)
  = filter (fun i => i <? b) (map Z.of_nat (seq a n)) ++
    filter (fun i => b <=? i) (map Z.of_nat (seq a n)).
Proof.
  induction n as [|n IH]; intros a; [reflexivity|].
  cbn [seq map filter].
  destruct (Z.of_nat a <? b) eqn:E.
  - apply Z.ltb_lt in E.
    replace (b <=? Z.of_nat a) with false by (symmetry; apply Z.leb_gt; lia).
    cbn [app]. f_equal. apply IH.
  - apply Z.ltb_ge in E.
    replace (b <=? Z.of_nat a) with true by (symmetry; apply Z.leb_le; lia).
    assert (Hnone : filter (fun i => i <? b) (map Z.of_nat (seq (S a) n)) = []).
    { apply (proj1 (length_zero_iff_nil _)).
      destruct (filter (fun i => i <? b) (map Z.of_nat (seq (S a) n)))
        as [|x t] eqn:Ef; [reflexivity|].
      assert (Hx : In x (x :: t)) by now left.
      rewrite <- Ef in Hx. apply filter_In in Hx. destruct Hx as [Hx Hb].
      apply in_map_iff in Hx. destruct Hx as (j & <- & Hj).
      apply in_seq in Hj. apply Z.ltb_lt in Hb. lia. }
    assert (Hall : filter (fun i => b <=? i) (map Z.of_nat (seq (S a) n))
                   = map Z.of_nat (seq (S a) n)).
    { apply forallb_filter_id, forallb_forall. intros x Hx.
      apply in_map_iff in Hx. destruct Hx as (j & <- & Hj).
      apply in_seq in Hj. apply Z.leb_le. lia. }
    now rewrite Hnone, Hall.
Qed.

Lemma count_below_range (b : Z) (n : nat) :
  0 <= b ->
  length (filter (fun i => i <? b) (PyList.range n))
  = Z.to_nat (Z.min b (Z.of_nat n)).
Proof.
  intros Hb. unfold PyList.range. induction n as [|n IH]; [simpl; lia|].
  rewrite seq_S, map_app, filter_app, length_app, IH. cbn [map filter plus].
  destruct (Z.of_nat n <? b) eqn:E;
    [apply Z.ltb_lt in E|apply Z.ltb_ge in E]; cbn [length]; lia.
Qed.

Lemma splice_arith (ins : Z) (n cr cm lr lm cr' cm' : nat) :
  0 <= ins ->
  Nat.add cr cm = Z.to_nat (Z.min ins (Z.of_nat n)) ->
  Nat.add lr lm = n ->
  lm = Nat.add cm cm' ->
  lr = Nat.add cr cr' ->
  Z.to_nat (Z.min (ins - Z.of_nat cm) (Z.of_nat lr)) = cr.
Proof. intros. lia. Qed.

Section Splice.
Variable n : nat.
Variable moving : list Z.
Variable insert : Z.
Hypothesis moving_NoDup : NoDup moving.
Hypothesis moving_range : forall k, In k moving -> 0 <= k < Z.of_nat n.
Hypothesis insert_nonneg : 0 <= insert.

Let remaining := omitted n moving.
Let offset := PyList.len (filter (fun i => i <? insert) moving).

Lemma moving_in_range_perm :
  Permutation (filter (fun k => existsb (Z.eqb k) moving) (PyList.range n))
              moving.
Proof.
  apply NoDup_Permutation.
  - apply NoDup_filter, range_NoDup.
  - exact moving_NoDup.
  - intros k. rewrite filter_In, in_range. split.
    + intros [_ H]. apply existsb_exists in H.
      destruct H as (x & Hx & Hk). apply Z.eqb_eq in Hk. now subst.
    + intros Hk. split; [now apply moving_range|].
      apply existsb_exists. exists k. split; [assumption|apply Z.eqb_refl].
Qed.

Lemma remaining_below :
  Nat.add (length (filter (fun i => i <? insert) remaining))
          (length (filter (fun i => i <? insert) moving))
  = Z.to_nat (Z.min insert (Z.of_nat n)).
Proof.
  rewrite <- (count_below_range insert n insert_nonneg).
  rewrite (filter_length_split (fun k => negb (existsb (Z.eqb k) moving))
             (filter (fun i => i <? insert) (PyList.range n))).
  unfold remaining, omitted.
  rewrite (filter_commute (fun i => i <? insert)). f_equal.
  rewrite (filter_ext (fun x => negb (negb (existsb (Z.eqb x) moving)))
                      (fun x => existsb (Z.eqb x) moving))
    by (intros x; apply negb_involutive).
  rewrite filter_commute.
  apply Permutation_length, Permutation_filter_same, Permutation_sym.
  apply moving_in_range_perm.
Qed.

Lemma remaining_length :
  (length remaining + length moving = n)%nat.
Proof.
  pose proof (filter_length_split
                (fun k => negb (existsb (Z.eqb k) moving)) (PyList.range n))
    as H.
  rewrite range_length in H. rewrite H at 1.
  unfold remaining, omitted. f_equal.
  rewrite (filter_ext (fun x => negb (negb (existsb (Z.eqb x) moving)))
                      (fun x => existsb (Z.eqb x) moving))
    by (intros x; apply negb_involutive).
  apply Permutation_length, Permutation_sym, moving_in_range_perm.
Qed.

Lemma remaining_split :
  remaining = filter (fun i => i <? insert) remaining ++
              filter (fun i => insert <=? i) remaining.
Proof.
  unfold remaining, omitted.
  rewrite (filter_commute (fun i => i <? insert)).
  rewrite (filter_commute (fun i => insert <=? i)).
  rewrite <- filter_app. f_equal. apply ascending_split.
Qed.

Lemma splice_point :
  Z.to_nat (Z.min (insert - offset) (PyList.len remaining))
  = length (filter (fun i => i <? insert) remaining).
Proof.
  pose proof remaining_below as Hb. pose proof remaining_length as Hl.
  pose proof (filter_length_split (fun i => i <? insert) moving) as Hm.
  pose proof (filter_length_split (fun i => i <? insert) remaining) as Hr.
  unfold offset, PyList.len.
  exact (splice_arith insert n _ _ _ _ _ _ insert_nonneg Hb Hl Hm Hr).
Qed.

Lemma spliced_is_ordering :
  is_ordering n (filter (fun i => i <? insert) remaining ++ moving ++
                 filter (fun i => insert <=? i) remaining).
Proof.
  assert (Hperm : Permutation
            (filter (fun i => i <? insert) remaining ++ moving ++
             filter (fun i => insert <=? i) remaining)
            (moving ++ remaining)).
  { rewrite Permutation_app_swap_app. apply Permutation_app_head.
    now rewrite <- remaining_split. }
  split.
  - apply (Permutation_NoDup (Permutation_sym Hperm)).
    apply NoDup_app.
    + exact moving_NoDup.
    + apply NoDup_filter, range_NoDup.
    + intros k Hk Hr. apply in_omitted in Hr. tauto.
  - intros k. split.
    + intros Hk. apply (Permutation_in _ Hperm), in_app_iff in Hk.
      destruct Hk as [Hk|Hk]; [now apply moving_range|].
      now apply in_omitted in Hk.
    + intros Hk. apply (Permutation_in _ (Permutation_sym Hperm)).
      apply in_app_iff.
      destruct (in_dec Z.eq_dec k moving) as [Hin|Hout]; [now left|].
      right. now apply in_omitted.
Qed.
Hypothesis insert_fits :
  insert <= Z.of_nat n \/ insert <= PyList.max_ssize_t + 1.

Lemma splice_accepted :
  insert - offset <= PyList.len remaining \/
  insert - offset + Z.of_nat (length moving) <= PyList.max_ssize_t + 1.
Proof.
  destruct (Z.le_gt_cases insert (Z.of_nat n)) as [Hle|Hgt].
  - left.
    pose proof remaining_below as Hb.
    pose proof (filter_length_split (fun i => i <? insert) remaining) as Hr.
    unfold offset, PyList.len.
    exact (splice_within_arith insert n _ _ _ _ insert_nonneg Hle Hb Hr).
  - right.
    assert (Hall : filter (fun i => i <? insert) moving = moving).
    { apply forallb_filter_id, forallb_forall. intros k Hk.
      apply Z.ltb_lt. pose proof (moving_range k Hk). lia. }
    unfold offset. rewrite Hall. unfold PyList.len.
    destruct insert_fits; lia.
Qed.

Lemma insert_each_splices :
  insert_each (insert - offset) moving remaining
  = Ok (filter (fun i => i <? insert) remaining ++ moving ++
        filter (fun i => insert <=? i) remaining).
Proof.
  pose proof remaining_below as Hb.
  rewrite insert_each_spec;
    [|unfold offset, PyList.len; lia|exact splice_accepted].
  cbv zeta. rewrite splice_point.
  pose proof remaining_split as Hs.
  set (below := filter (fun i => i <? insert) remaining) in *.
  set (above := filter (fun i => insert <=? i) remaining) in *.
  clearbody below above. rewrite Hs.
  rewrite firstn_app, skipn_app, Nat.sub_diag, firstn_all, skipn_all.
  cbn [firstn skipn app]. now rewrite app_nil_r.
Qed.

End Splice.

Lemma is_selected_within s i :
  0 <= i < __len__ s ->
  layer_at i s = Ok (pick (_list s) i) /\
  is_selected s i = selected (layers s (pick (_list s) i)).
Proof.
  intros Hi.
  assert (H : layer_at i s = Ok (pick (_list s) i)).
  { unfold layer_at, __getitem__, list_subscript.
    now rewrite getitem_within. }
  split; [exact H|]. unfold is_selected. now rewrite H.
Qed.

(** The positions that [_move_layers] carries along. *)
Lemma moving_set_valid s index :
  0 <= index < __len__ s ->
  let n := length (_list s) in
  let moving := if selected (layers s (pick (_list s) index))
                then filter (is_selected s) (PyList.range n)
                else [index] in
  NoDup moving /\ (forall k, In k moving -> 0 <= k < Z.of_nat n).
Proof.
  intros Hi n moving. unfold moving.
  destruct (selected (layers s (pick (_list s) index))).
  - split; [apply NoDup_filter, range_NoDup|].
    intros k Hk. apply filter_In in Hk. now apply in_range.
  - split; [repeat constructor; intros []|].
    intros k [<-|[]]. exact Hi.
Qed.

Lemma move_layers_run (s : state) (index insert : Z) :
  0 <= index < __len__ s ->
  0 <= insert ->
  insert <= __len__ s \/ insert <= PyList.max_ssize_t + 1 ->
  let n := length (_list s) in
  let moving := if selected (layers s (pick (_list s) index))
                then filter (is_selected s) (PyList.range n)
                else [index] in
  let staying := omitted n moving in
  _move_layers index insert s
  = emit reorder_event
      (with_list
         (map (pick (_list s))
            (filter (fun i => i <? insert) staying ++ moving ++
             filter (fun i => insert <=? i) staying)) s).
Proof.
  intros Hi Hins Hfit n moving staying.
  destruct (moving_set_valid s index Hi) as [Hnd Hrange].
  fold n in Hnd, Hrange. fold moving in Hnd, Hrange.
  destruct (is_selected_within s index Hi) as [Hat _].
  assert (Hrem : remove_each moving (PyList.range n) = Some staying).
  { apply remove_each_spec.
    - exact Hnd.
    - intros k Hk. apply in_range. now apply Hrange.
    - apply range_NoDup. }
  rewrite move_layers_unfold, Hat. cbv zeta.
  fold n. fold moving. rewrite Hrem. unfold staying.
  rewrite (insert_each_splices n moving insert Hnd Hrange Hins Hfit).
  apply reorder_run. apply reordered_list_ordering.
  exact (spliced_is_ordering n moving insert Hnd Hrange).
Qed.

Lemma move_layers_overflow (s : state) (index insert : Z) :
  0 <= index < __len__ s ->
  __len__ s <= PyList.max_ssize_t ->
  PyList.max_ssize_t + 1 < insert ->
  _move_layers index insert s = Raise OverflowError s.
Proof.
  intros Hi Hlen Hins.
  set (n := length (_list s)).
  set (moving := if selected (layers s (pick (_list s) index))
                 then filter (is_selected s) (PyList.range n)
                 else [index]).
  destruct (moving_set_valid s index Hi) as [Hnd Hrange].
  fold n in Hnd, Hrange. fold moving in Hnd, Hrange.
  destruct (is_selected_within s index Hi) as [Hat Hsel].
  assert (Hrem : remove_each moving (PyList.range n)
                 = Some (omitted n moving)).
  { apply remove_each_spec.
    - exact Hnd.
    - intros k Hk. apply in_range. now apply Hrange.
    - apply range_NoDup. }
  assert (Hin : In index moving).
  { unfold moving.
    destruct (selected (layers s (pick (_list s) index))) eqn:E.
    - apply filter_In. split; [apply in_range; exact Hi|].
      now rewrite Hsel.
    - now left. }
  assert (Hall : filter (fun i => i <? insert) moving = moving).
  { apply forallb_filter_id, forallb_forall. intros k Hk.
    apply Z.ltb_lt. pose proof (Hrange k Hk). unfold __len__, PyList.len in *.
    fold n in Hlen. lia. }
  pose proof (remaining_length n moving Hnd Hrange) as Hsum.
  rewrite move_layers_unfold, Hat. cbv zeta.
  fold n. fold moving. rewrite Hrem, Hall.
  rewrite insert_each_overflow; [reflexivity| | |].
  - intros He. rewrite He in Hin. contradiction.
  - unfold PyList.len. lia.
  - unfold __len__, PyList.len in *. fold n in Hlen. unfold loc in *. lia.
Qed.

(** X19: for a position [index] of the collection and a drop point
    [insert >= 0] that is at most [sys.maxsize + 1], [_move_layers] leaves,
    in this order: the layers that stay and were below [insert], the layers
    that move (all the selected ones when the layer at [index] is selected,
    else that layer alone) in their former order, then the layers that stay
    and were at [insert] or above.  A drop point past the end puts the
    moving layers last.  The call sends one reorder notification.  A drop
    point beyond [sys.maxsize + 1] raises OverflowError, with the
    collection as it was. *)
Theorem move_layers_splices_moving_block (s : state) (index insert : Z) :
  0 <= index < __len__ s ->
  0 <= insert ->
  let n := length (_list s) in
  let moving := if selected (layers s (pick (_list s) index))
                then filter (is_selected s) (PyList.range n)
                else [index] in
  let staying := omitted n moving in
  let o := _move_layers index insert s in
  (insert <= PyList.max_ssize_t + 1 ->
   _list (final o)
     = map (pick (_list s))
           (filter (fun i => i <? insert) staying ++ moving ++
            filter (fun i => insert <=? i) staying) /\
   emitted (final o) = emitted s ++ [reorder_event] /\
   (callbacks_return s -> o = Return tt (final o))) /\
  (__len__ s <= PyList.max_ssize_t ->
   PyList.max_ssize_t + 1 < insert ->
   o = Raise OverflowError s).
Proof.
  intros Hi Hins n moving staying o. unfold o. split.
  - intros Hfit.
    rewrite (move_layers_run s index insert Hi Hins (or_intror Hfit)).
    rewrite emit_list, emit_emitted. cbn [_list emitted with_list].
    repeat (split; [reflexivity|]).
    intros Hc. now apply emit_outcome.
  - intros Hlen Hover. now apply move_layers_overflow.
Qed.

Lemma move_layers_splices_moving_block_witness :
  _list (final (_move_layers 3 1
                  (Sample.bound [0; 1; 2; 3; 4]%nat [1; 3]%nat)))
  = [0; 1; 3; 2; 4]%nat /\
  _list (final (_move_layers 0 9 (Sample.bound [0; 1; 2]%nat [])))
  = [1; 2; 0]%nat /\
  _move_layers 0 (2 ^ 70) (Sample.bound [0; 1; 2]%nat [])
  = Raise OverflowError (Sample.bound [0; 1; 2]%nat []).
Proof.
  split; [|split].
  - destruct (move_layers_splices_moving_block
                (Sample.bound [0; 1; 2; 3; 4]%nat [1; 3]%nat) 3 1)
      as (H & _).
    + vm_compute. split; [discriminate|reflexivity].
    + discriminate.
    + destruct H as (H & _); [vm_compute; discriminate|exact H].
  - destruct (move_layers_splices_moving_block
                (Sample.bound [0; 1; 2]%nat []) 0 9) as (H & _).
    + vm_compute. split; [discriminate|reflexivity].
    + discriminate.
    + destruct H as (H & _); [vm_compute; discriminate|exact H].
  - destruct (move_layers_splices_moving_block
                (Sample.bound [0; 1; 2]%nat []) 0 (2 ^ 70)) as (_ & H).
    + vm_compute. split; [discriminate|reflexivity].
    + vm_compute. discriminate.
    + apply H; vm_compute; [discriminate|reflexivity].
Defined.

Lemma filter_below_range (b : Z) (n : nat) :
  0 <= b ->
  filter (fun i => i <? b) (PyList.range n)
  = PyList.range (Z.to_nat (Z.min b (Z.of_nat n))).
Proof.
  intros Hb. unfold PyList.range. induction n as [|n IH].
  - simpl. now replace (Z.to_nat (Z.min b 0)) with 0%nat by lia.
  - rewrite seq_S, map_app, filter_app, IH. cbn [map filter plus].
    destruct (Z.of_nat n <? b) eqn:E;
      [apply Z.ltb_lt in E|apply Z.ltb_ge in E].
    + replace (Z.to_nat (Z.min b (Z.of_nat (S n)))) with (S n) by lia.
      replace (Z.to_nat (Z.min b (Z.of_nat n))) with n by lia.
      now rewrite seq_S, map_app.
    + rewrite app_nil_r. f_equal. f_equal. lia.
Qed.

(** X20: dropping a layer that is not selected just before or just after
    itself leaves the sequence as it was. *)
Theorem move_onto_itself_changes_nothing (s : state) (index insert : Z) :
  0 <= index < __len__ s ->
  selected (layers s (pick (_list s) index)) = false ->
  insert = index \/ insert = index + 1 ->
  _list (final (_move_layers index insert s)) = _list s.
Proof.
  intros Hi Hsel Hins.
  rewrite (move_layers_run s index insert Hi) by lia.
  rewrite emit_list. cbn [_list with_list]. rewrite Hsel.
  rewrite <- (map_pick_range (_list s)) at 4. f_equal.
  set (n := length (_list s)).
  assert (Hn : index < Z.of_nat n) by (unfold n; llia).
  assert (Hbelow : filter (fun i => i <? insert) (omitted n [index])
                   = PyList.range (Z.to_nat index)).
  { unfold omitted. rewrite filter_twice.
    rewrite (filter_ext _ (fun i => i <? index)).
    - rewrite filter_below_range by lia. f_equal. lia.
    - intros k. simpl. rewrite orb_false_r.
      destruct (Z.eqb_spec k index), (Z.ltb_spec k insert),
        (Z.ltb_spec k index); simpl; try reflexivity; lia. }
  assert (Habove : filter (fun i => insert <=? i) (omitted n [index])
                   = filter (fun i => index + 1 <=? i) (PyList.range n)).
  { unfold omitted. rewrite filter_twice. apply filter_ext.
    intros k. simpl. rewrite orb_false_r.
    destruct (Z.eqb_spec k index), (Z.leb_spec insert k),
      (Z.leb_spec (index + 1) k); simpl; try reflexivity; lia. }
  rewrite Hbelow, Habove.
  pose proof (ascending_split (index + 1) n 0) as Hsplit.
  fold (PyList.range n) in Hsplit.
  rewrite filter_below_range in Hsplit by lia.
  replace (Z.to_nat (Z.min (index + 1) (Z.of_nat n)))
    with (S (Z.to_nat index)) in Hsplit by lia.
  unfold PyList.range in Hsplit at 2.
  rewrite seq_S, map_app in Hsplit. cbn [map plus] in Hsplit.
  rewrite Z2Nat.id in Hsplit by lia.
  rewrite <- app_assoc in Hsplit. symmetry. exact Hsplit.
Qed.

Lemma move_onto_itself_changes_nothing_witness :
  _list (final (_move_layers 1 2 (Sample.bound [0; 1; 2]%nat [0]%nat)))
  = [0; 1; 2]%nat.
Proof.
  apply (move_onto_itself_changes_nothing
           (Sample.bound [0; 1; 2]%nat [0]%nat) 1 2).
  - vm_compute. split; [discriminate|reflexivity].
  - reflexivity.
  - right. reflexivity.
Defined.

(* ================================================================= *)
(** ** The selection helpers *)

Lemma for_each_app {A} (body : A -> M unit) : forall l1 l2 s,
  for_each (l1 ++ l2) body s
  = match for_each l1 body s with
    | Return _ s' => for_each l2 body s'
    | Raise e s' => Raise e s'
    end.
Proof.
  induction l1 as [|x l1 IH]; intros l2 s; [reflexivity|].
  cbn [app for_each]. unfold bind.
  destruct (body x s) as [[] s1|e s1]; [apply IH|reflexivity].
Qed.

Lemma unselect_loop (l : list loc) : forall s,
  exists s',
    for_each l (fun layer =>
      sel <- gets (fun s => selected (layers s layer)) ;;
      if sel then modify (update_layer layer (set_selected false))
      else ret tt) s = Return tt s' /\
    _list s' = _list s /\ emitted s' = emitted s /\
    _viewer s' = _viewer s /\
    (forall x, In x l -> selected (layers s' x) = false) /\
    (forall x, ~ In x l -> layers s' x = layers s x) /\
    (forall x, name (layers s' x) = name (layers s x) /\
               _order (layers s' x) = _order (layers s x) /\
               (selected (layers s' x) = true ->
                selected (layers s x) = true)).
Proof.
  induction l as [|y l IH]; intros s.
  - exists s. cbn [for_each]. unfold ret.
    repeat split; try reflexivity; try tauto. intros x [].
  - cbn [for_each]. unfold bind at 1. unfold bind at 1. unfold gets at 1.
    set (s1 := if selected (layers s y)
               then update_layer y (set_selected false) s else s).
    assert (Hstep : (if selected (layers s y)
                     then modify (update_layer y (set_selected false))
                     else ret tt) s = Return tt s1).
    { unfold s1. now destruct (selected (layers s y)). }
    rewrite Hstep.
    assert (H1 : _list s1 = _list s /\ emitted s1 = emitted s /\
                 _viewer s1 = _viewer s /\
                 selected (layers s1 y) = false /\
                 (forall x, x <> y -> layers s1 x = layers s x) /\
                 (forall x, name (layers s1 x) = name (layers s x) /\
                            _order (layers s1 x) = _order (layers s x) /\
                            (selected (layers s1 x) = true ->
                             selected (layers s x) = true))).
    { unfold s1. destruct (selected (layers s y)) eqn:E.
      - cbn. unfold store_update. rewrite Nat.eqb_refl.
        repeat split; try reflexivity.
        + intros x Hx. apply Nat.eqb_neq in Hx. now rewrite Hx.
        + now destruct (Nat.eqb x y).
        + now destruct (Nat.eqb x y).
        + destruct (Nat.eqb x y) eqn:Exy; [discriminate|tauto].
      - repeat split; try reflexivity; try assumption; tauto. }
    destruct H1 as (Hl1 & He1 & Hv1 & Hy1 & Ho1 & Hk1).
    destruct (IH s1) as (s' & Hrun & Hl & He & Hv & Hin & Hout & Hk).
    exists s'. split; [exact Hrun|].
    split; [congruence|]. split; [congruence|]. split; [congruence|].
    split; [|split].
    + intros x [<-|Hx]; [|now apply Hin].
      destruct (selected (layers s' y)) eqn:E; [|reflexivity].
      apply (Hk y) in E. congruence.
    + intros x Hx. rewrite Hout by (intros ?; apply Hx; now right).
      apply Ho1. intros ->. apply Hx. now left.
    + intros x. destruct (Hk x) as (Hn & Hor & Hs).
      destruct (Hk1 x) as (Hn1 & Hor1 & Hs1).
      repeat split; try congruence. tauto.
Qed.

(** X21: [unselect_all] always returns, leaves no layer of the collection
    selected, and changes nothing else: not the sequence, not a name or an
    order, not a layer outside the collection, and it sends no
    notification of the collection. *)
Theorem unselect_all_clears_selection (s : state) :
  exists s',
    unselect_all s = Return tt s' /\
    (forall x, In x (_list s') -> selected (layers s' x) = false) /\
    _list s' = _list s /\ emitted s' = emitted s /\
    (forall x, ~ In x (_list s) -> layers s' x = layers s x) /\
    (forall x, name (layers s' x) = name (layers s x) /\
               _order (layers s' x) = _order (layers s x)).
Proof.
  destruct (unselect_loop (_list s) s)
    as (s' & Hrun & Hl & He & _ & Hin & Hout & Hk).
  exists s'. split; [exact Hrun|].
  split; [intros x Hx; apply Hin; now rewrite <- Hl|].
  repeat (split; [assumption|]).
  intros x. destruct (Hk x) as (Hn & Ho & _). now split.
Qed.

Lemma unselect_all_clears_selection_witness :
  exists s',
    unselect_all (Sample.bound [0; 1; 2]%nat [1]%nat) = Return tt s' /\
    selected (layers s' 1%nat) = false.
Proof.
  destruct (unselect_all_clears_selection
              (Sample.bound [0; 1; 2]%nat [1]%nat))
    as (s' & Hrun & Hsel & Hl & _).
  exists s'. split; [exact Hrun|].
  apply Hsel. rewrite Hl. right. left. reflexivity.
Defined.


Lemma list_pop_middle (l1 : list loc) (x : loc) (t : list loc) :
  PyList.pop (l1 ++ x :: t) (Z.of_nat (length l1)) = Ok (x, l1 ++ t).
Proof.
  rewrite list_pop_within.
  - unfold pick. rewrite Nat2Z.id, app_nth2, Nat.sub_diag by lia.
    cbn [nth]. f_equal. f_equal.
    rewrite firstn_app, Nat.sub_diag, firstn_all. cbn [firstn].
    rewrite app_nil_r, skipn_app.
    rewrite skipn_all2 by lia.
    now replace (S (length l1) - length l1)%nat with 1%nat by lia.
  - unfold PyList.len. rewrite length_app. cbn [length]. lia.
Qed.

Lemma emit_remove_keeps_reset l s x :
  _order (layers s x) = 0 /\ layer_viewer (layers s x) = None ->
  _order (layers (final (emit (remove_item l) s)) x) = 0 /\
  layer_viewer (layers (final (emit (remove_item l) s)) x) = None.
Proof.
  intros [Ho Hv]. destruct (Nat.eq_dec x l) as [->|Hne].
  - split; [apply emit_remove_order|apply emit_remove_layer_viewer].
  - rewrite emit_remove_other_layers by assumption. now split.
Qed.

Section RemoveLoop.
Variable sel : loc -> bool.

Lemma remove_loop : forall (l0 tail : list loc) (s : state),
  _list s = l0 ++ tail ->
  callbacks_return s ->
  exists s',
    for_each (rev (filter (fun i => sel (pick l0 i))
                          (PyList.range (length l0))))
             (fun i => pop (PInt i) ;;; ret tt) s = Return tt s' /\
    _list s' = filter (fun x => negb (sel x)) l0 ++ tail /\
    emitted s' = emitted s ++ map remove_item (rev (filter sel l0)) /\
    callbacks_return s' /\
    (forall x, sel x = false -> layers s' x = layers s x) /\
    (forall x, (In x l0 /\ sel x = true) \/
               (_order (layers s x) = 0 /\ layer_viewer (layers s x) = None) ->
               _order (layers s' x) = 0 /\ layer_viewer (layers s' x) = None).
Proof.
  induction l0 as [|x l1 IH] using rev_ind; intros tail s Hl Hc.
  - exists s. cbn. unfold ret. rewrite app_nil_r.
    repeat split; try assumption; try reflexivity; tauto.
  - rewrite length_app. cbn [length]. rewrite Nat.add_1_r.
    unfold PyList.range. rewrite seq_S, map_app, filter_app.
    fold (PyList.range (length l1)). cbn [map filter plus].
    assert (Hx : pick (l1 ++ [x]) (Z.of_nat (length l1)) = x).
    { unfold pick. rewrite Nat2Z.id, app_nth2, Nat.sub_diag by lia.
      reflexivity. }
    rewrite Hx.
    rewrite (filter_ext_in (fun i => sel (pick (l1 ++ [x]) i))
                           (fun i => sel (pick l1 i))).
    2:{ intros i Hi. apply in_range in Hi. unfold pick.
        rewrite app_nth1 by lia. reflexivity. }
    rewrite rev_app_distr, for_each_app.
    rewrite !filter_app, rev_app_distr. cbn [filter].
    rewrite <- app_assoc in Hl. cbn [app] in Hl.
    destruct (sel x) eqn:Ex; cbn [rev app for_each negb].
    + (* the last layer goes first *)
      unfold bind at 1. unfold bind at 1.
      assert (Hpop : PyList.pop (_list s) (Z.of_nat (length l1))
                     = Ok (x, l1 ++ tail))
        by (rewrite Hl; apply list_pop_middle).
      destruct (pop_run_final s (PInt (Z.of_nat (length l1))) _ x _
                  eq_refl Hpop) as [Hfin Hret].
      rewrite (Hret Hc). unfold ret at 1 2.
      remember (final (pop (PInt (Z.of_nat (length l1))) s)) as s1 eqn:Es1.
      clear Es1 Hret.
      assert (Hl1 : _list s1 = l1 ++ tail)
        by (rewrite Hfin; now rewrite emit_list).
      assert (Hc1 : callbacks_return s1).
      { rewrite Hfin. apply emit_callbacks_return. exact Hc. }
      destruct (IH tail s1 Hl1 Hc1)
        as (s' & Hrun & Hl' & He' & Hc' & Hkeep & Hreset).
      exists s'. split; [exact Hrun|]. split; [|split; [|split; [|split]]].
      * rewrite Hl'. now rewrite app_nil_r.
      * rewrite He', Hfin, emit_emitted. cbn [emitted with_list map].
        now rewrite <- app_assoc.
      * exact Hc'.
      * intros y Hy. rewrite (Hkeep y Hy), Hfin.
        rewrite emit_remove_other_layers; [reflexivity|].
        intros ->. congruence.
      * intros y Hy. apply Hreset.
        destruct Hy as [[Hin Hsy]|Hy].
        -- apply in_app_iff in Hin. destruct Hin as [Hin|[<-|[]]].
           ++ left. now split.
           ++ right. rewrite Hfin.
              split; [apply emit_remove_order|apply emit_remove_layer_viewer].
        -- right. rewrite Hfin. now apply emit_remove_keeps_reset.
    + unfold ret at 1.
      destruct (IH (x :: tail) s Hl Hc)
        as (s' & Hrun & Hl' & He' & Hc' & Hkeep & Hreset).
      exists s'. split; [exact Hrun|]. split; [|split; [|split; [|split]]].
      * rewrite Hl'. now rewrite <- app_assoc.
      * exact He'.
      * exact Hc'.
      * exact Hkeep.
      * intros y Hy. apply Hreset.
        destruct Hy as [[Hin Hsy]|Hy]; [|now right].
        apply in_app_iff in Hin. destruct Hin as [Hin|[<-|[]]].
        -- left. now split.
        -- congruence.
Qed.
End RemoveLoop.

Lemma remove_selected_run s :
  remove_selected s
  = for_each (rev (filter (fun i => selected (layers s (pick (_list s) i)))
                          (PyList.range (length (_list s)))))
             (fun i => pop (PInt i) ;;; ret tt) s.
Proof.
  unfold remove_selected, bind, gets. f_equal. f_equal.
  apply filter_ext_in. intros i Hi. apply in_range in Hi.
  apply is_selected_within. llia.
Qed.

(** X22: on a collection whose callbacks return, [remove_selected] takes
    out exactly the selected layers and keeps the others in their order; it
    sends one remove_item notification per layer taken out, from the last
    position to the first; each layer taken out is left with the order 0
    and without a viewer, and the layers that stay are not touched, their
    orders included. *)
Theorem remove_selected_removes_the_selected (s : state) :
  callbacks_return s ->
  exists s',
    remove_selected s = Return tt s' /\
    _list s' = filter (fun x => negb (selected (layers s x))) (_list s) /\
    emitted s'
      = emitted s ++
        map remove_item
            (rev (filter (fun x => selected (layers s x)) (_list s))) /\
    (forall x, selected (layers s x) = false -> layers s' x = layers s x) /\
    (forall x, In x (_list s) -> selected (layers s x) = true ->
               _order (layers s' x) = 0 /\ layer_viewer (layers s' x) = None).
Proof.
  intros Hc. rewrite remove_selected_run.
  destruct (remove_loop (fun x => selected (layers s x)) (_list s) [] s)
    as (s' & Hrun & Hl & He & _ & Hkeep & Hreset).
  - now rewrite app_nil_r.
  - exact Hc.
  - exists s'. split; [exact Hrun|]. split; [|split; [|split]].
    + now rewrite app_nil_r in Hl.
    + exact He.
    + exact Hkeep.
    + intros x Hin Hs. apply Hreset. left. now split.
Qed.

Lemma remove_selected_removes_the_selected_witness :
  exists s',
    remove_selected (Sample.bound [0; 1; 2]%nat [0; 2]%nat) = Return tt s' /\
    _list s' = [1%nat] /\
    emitted s' = [remove_item 2%nat; remove_item 0%nat].
Proof.
  destruct (remove_selected_removes_the_selected
              (Sample.bound [0; 1; 2]%nat [0; 2]%nat))
    as (s' & Hrun & Hl & He & _).
  - left. discriminate.
  - exists s'. split; [exact Hrun|]. split; [exact Hl|exact He].
Defined.

(** X23: when no layer of the collection is selected, [remove_selected]
    returns with the state as it was, with or without a viewer; so it
    always does after [unselect_all]. *)
Theorem remove_selected_after_unselect_all (s : state) :
  ((forall x, In x (_list s) -> selected (layers s x) = false) ->
   remove_selected s = Return tt s) /\
  (exists s', unselect_all s = Return tt s' /\
              remove_selected s' = Return tt s').
Proof.
  assert (Hnone : forall s0,
             (forall x, In x (_list s0) -> selected (layers s0 x) = false) ->
             remove_selected s0 = Return tt s0).
  { intros s0 H. rewrite remove_selected_run.
    replace (filter (fun i => selected (layers s0 (pick (_list s0) i)))
                    (PyList.range (length (_list s0)))) with (@nil Z);
      [reflexivity|].
    symmetry.
    destruct (filter (fun i => selected (layers s0 (pick (_list s0) i)))
                     (PyList.range (length (_list s0)))) as [|i t] eqn:E;
      [reflexivity|].
    assert (Hi : In i (i :: t)) by now left.
    rewrite <- E in Hi. apply filter_In in Hi. destruct Hi as [Hi Hs].
    apply in_range in Hi. rewrite H in Hs; [discriminate|].
    unfold pick. apply nth_In. lia. }
  split; [apply Hnone|].
  destruct (unselect_loop (_list s) s) as (s' & Hrun & Hl & _ & _ & Hin & _).
  exists s'. split; [exact Hrun|].
  apply Hnone. intros x Hx. apply Hin. now rewrite <- Hl.
Qed.

Lemma remove_selected_after_unselect_all_witness :
  remove_selected (Sample.unbound [0; 1; 2]%nat [])
  = Return tt (Sample.unbound [0; 1; 2]%nat []).
Proof.
  apply (proj1 (remove_selected_after_unselect_all
                  (Sample.unbound [0; 1; 2]%nat []))).
  intros x Hx. reflexivity.
Defined.


(* ================================================================= *)
(** ** Searching an interval, and slices *)

Lemma flat_map_ext_in {A B} (f g : A -> list B) (l : list A) :
  (forall a, In a l -> f a = g a) -> flat_map f l = flat_map g l.
Proof.
  intros H. rewrite !flat_map_concat_map. f_equal. now apply map_ext_in.
Qed.

Lemma nth_error_sub {A} (l : list A) (a b k : nat) :
  (a <= b <= length l)%nat -> (k < b - a)%nat ->
  nth_error (skipn a (firstn b l)) k = nth_error l (a + k).
Proof.
  intros Hab Hk. rewrite nth_error_skipn, nth_error_firstn.
  now replace (a + k <? b)%nat with true by (symmetry; apply Nat.ltb_lt; lia).
Qed.

(** [l[a:b]] for [0 <= a <= b <= len l]. *)
Lemma slice_within {A} (l : list A) (a b : Z) :
  0 <= a <= b -> b <= PyList.len l ->
  PyList.slice l (Some a) (Some b) 1
  = skipn (Z.to_nat a) (firstn (Z.to_nat b) l).
Proof.
  intros Hab Hb. unfold PyList.slice, PyList.adjust.
  set (n := PyList.len l) in *.
  assert (Hn : n = Z.of_nat (length l)) by reflexivity.
  change (1 <? 0) with false. cbv iota.
  replace (a <? 0) with false by (symmetry; apply Z.ltb_ge; lia).
  replace (b <? 0) with false by (symmetry; apply Z.ltb_ge; lia).
  assert (Ha : (if n <=? a then n else a) = a)
    by (destruct (Z.leb_spec n a); lia).
  assert (Hb' : (if n <=? b then n else b) = b)
    by (destruct (Z.leb_spec n b); lia).
  rewrite Ha, Hb'.
  set (sub := skipn (Z.to_nat a) (firstn (Z.to_nat b) l)).
  assert (Hlen : length sub = Z.to_nat (b - a)).
  { unfold sub. rewrite length_skipn, length_firstn. lia. }
  replace (Z.to_nat (if a <? b then (b - a - 1) / 1 + 1 else 0))
    with (length sub)
    by (rewrite Hlen; destruct (Z.ltb_spec a b);
        [rewrite Z.div_1_r|]; lia).
  rewrite <- (flat_map_nth_error [] sub) at 2. cbn [app length].
  apply flat_map_ext_in. intros k Hk. apply in_seq in Hk. f_equal.
  unfold sub. rewrite nth_error_sub by lia. f_equal. lia.
Qed.


(** X24: [index(query, start, stop)] with [0 <= start <= stop <= len], for
    a layer or for a name, looks only at the positions from [start] to
    [stop - 1]: it gives the first of them whose layer answers the query,
    and raises ValueError when none of them does, wherever else the layer
    or the name may be. *)
Theorem index_searches_the_interval
        (s : state) (q : pyobj) (start stop : Z) :
  (exists l, q = PLayer l) \/ (exists nm, q = PStr nm) ->
  0 <= start <= stop -> stop <= __len__ s ->
  match index s q (Some start) (Some stop) with
  | Ok i =>
      start <= i < stop /\ answers s q (pick (_list s) i) /\
      (forall j, start <= j < i -> ~ answers s q (pick (_list s) j))
  | Err e =>
      (exists d, e = ValueError d) /\
      (forall j, start <= j < stop -> ~ answers s q (pick (_list s) j))
  end.
Proof.
  intros Hq Hss Hstop. unfold __len__ in Hstop.
  set (sub := skipn (Z.to_nat start) (firstn (Z.to_nat stop) (_list s))).
  assert (Hsub : forall k : nat, (k < Z.to_nat (stop - start))%nat ->
             nth_error sub k = Some (pick (_list s) (start + Z.of_nat k))).
  { intros k Hk. unfold sub. unfold PyList.len in Hstop.
    rewrite nth_error_sub by lia. unfold pick.
    replace (Z.to_nat (start + Z.of_nat k)) with (Z.to_nat start + k)%nat
      by lia.
    apply nth_error_nth'. lia. }
  assert (Hlen : length sub = Z.to_nat (stop - start)).
  { unfold sub, PyList.len in *. rewrite length_skipn, length_firstn. lia. }
  destruct Hq as [[l ->]|[nm ->]]; unfold index.
  - unfold PyList.index.
    replace (start <? 0) with false by (symmetry; apply Z.ltb_ge; lia).
    replace (stop <? 0) with false by (symmetry; apply Z.ltb_ge; lia).
    rewrite Z.min_l by exact Hstop.
    change (PyList.find_from Nat.eqb start l
              (skipn (Z.to_nat start) (firstn (Z.to_nat stop) (_list s))))
      with (PyList.find_from Nat.eqb start l sub).
    pose proof (find_from_spec l sub start) as H.
    destruct (PyList.find_from Nat.eqb start l sub) as [j|]; cbv beta iota.
    + destruct H as (k & -> & Hk & Hfirst).
      pose proof (nth_error_lt _ _ _ Hk) as Hkl.
      rewrite Hsub in Hk by lia. injection Hk as Hk.
      split; [lia|]. split; [exact Hk|].
      intros j Hj Ha. simpl in Ha.
      apply (Hfirst (Z.to_nat (j - start))); [lia|].
      rewrite Hsub by lia.
      replace (start + Z.of_nat (Z.to_nat (j - start))) with j by lia.
      now rewrite Ha.
    + split; [now eexists|]. intros j Hj Ha. simpl in Ha. apply H.
      apply (nth_error_In sub (Z.to_nat (j - start))).
      rewrite Hsub by lia.
      replace (start + Z.of_nat (Z.to_nat (j - start))) with j by lia.
      now rewrite Ha.
  - unfold _name_match. rewrite slice_within by assumption. fold sub.
    pose proof (name_scan_spec (layers s) nm start sub 0) as H.
    destruct (name_scan (layers s) nm None start 0 sub) as [[j x]|];
      cbv beta iota.
    + destruct H as (k & -> & Hk & Hn & Hfirst).
      pose proof (nth_error_lt _ _ _ Hk) as Hkl.
      rewrite Hsub in Hk by lia. injection Hk as Hk.
      replace (0 + Z.of_nat k + start) with (start + Z.of_nat k) by lia.
      split; [lia|]. split; [simpl; now rewrite Hk|].
      intros j Hj Ha. simpl in Ha.
      apply (Hfirst (Z.to_nat (j - start)) (pick (_list s) j)); [lia| |exact Ha].
      rewrite Hsub by lia. do 2 f_equal. lia.
    + split; [now eexists|]. intros j Hj Ha. simpl in Ha.
      apply (H (pick (_list s) j)); [|exact Ha].
      apply (nth_error_In sub (Z.to_nat (j - start))).
      rewrite Hsub by lia. do 2 f_equal. lia.
Qed.

Lemma index_searches_the_interval_witness :
  let s := Sample.bound [0; 1; 2; 0]%nat [] in
  match index s (PStr "A") (Some 1) (Some 4) with
  | Ok i =>
      1 <= i < 4 /\ answers s (PStr "A") (pick (_list s) i) /\
      (forall j, 1 <= j < i -> ~ answers s (PStr "A") (pick (_list s) j))
  | Err e =>
      (exists d, e = ValueError d) /\
      (forall j, 1 <= j < 4 -> ~ answers s (PStr "A") (pick (_list s) j))
  end.
Proof.
  intros s. apply (index_searches_the_interval s (PStr "A") 1 4).
  - right. now exists "A"%string.
  - lia.
  - vm_compute. discriminate.
Defined.

Lemma slice_members {A} (l : list A) a b step :
  incl (PyList.slice l a b step) l.
Proof.
  unfold PyList.slice. intros x Hx. apply in_flat_map in Hx.
  destruct Hx as (k & _ & Hx).
  match type of Hx with
  | In x (PyList.opt_list (nth_error l ?m)) =>
      destruct (nth_error l m) as [y|] eqn:E
  end; simpl in Hx; [|contradiction].
  destruct Hx as [<-|[]]. eapply nth_error_In. exact E.
Qed.

Lemma slice_all {A} (l : list A) : PyList.slice l None None 1 = l.
Proof.
  unfold PyList.slice. change (1 <? 0) with false. cbv iota.
  replace (Z.to_nat (if 0 <? PyList.len l
                     then (PyList.len l - 0 - 1) / 1 + 1 else 0))
    with (length l)
    by (unfold PyList.len; destruct (Z.ltb_spec 0 (Z.of_nat (length l)));
        [rewrite Z.div_1_r|]; lia).
  rewrite (flat_map_ext _ (fun k => PyList.opt_list (nth_error l k))).
  - exact (flat_map_nth_error [] l).
  - intros k. do 2 f_equal. lia.
Qed.

(** X25: [collection[slice]] never raises KeyError: with a step other than
    zero it gives a list of layers of the collection, all of them in order
    for [collection[:]], and with step zero the ValueError of the list
    passes through [__getitem__] (and through [slice in collection]). *)
Theorem getitem_slice_is_not_normalized (s : state) :
  (forall a b c, c <> Some 0 ->
     exists ls, __getitem__ s (PSlice a b c) = Ok (a_list ls) /\
                incl ls (_list s) /\
                __contains__ s (PSlice a b c) = Ok true) /\
  __getitem__ s (PSlice None None None) = Ok (a_list (_list s)) /\
  (forall a b,
     __getitem__ s (PSlice a b (Some 0)) = Err (ValueError VE_slice_step_zero) /\
     __contains__ s (PSlice a b (Some 0)) = Err (ValueError VE_slice_step_zero)).
Proof.
  split; [|split].
  - intros a b c Hc. unfold __contains__, __getitem__, list_subscript.
    destruct c as [z|].
    + destruct (Z.eqb_spec z 0) as [->|Hz]; [congruence|].
      eexists. split; [reflexivity|]. split; [apply slice_members|reflexivity].
    + eexists. split; [reflexivity|]. split; [apply slice_members|reflexivity].
  - unfold __getitem__, list_subscript. simpl. now rewrite slice_all.
  - intros a b. split; reflexivity.
Qed.

Lemma getitem_slice_is_not_normalized_witness :
  exists ls,
    __getitem__ (Sample.bound [0; 1; 2]%nat [])
                (PSlice None None (Some (-1))) = Ok (a_list ls) /\
    incl ls [0; 1; 2]%nat.
Proof.
  destruct (proj1 (getitem_slice_is_not_normalized
                     (Sample.bound [0; 1; 2]%nat []))
                  None None (Some (-1))) as (ls & H & Hi & _).
  - discriminate.
  - exists ls. split; [exact H|exact Hi].
Defined.

(* ================================================================= *)
(** ** Draw orders along the sequence, and the canvas *)

Lemma nth_error_without {A} (l : list A) (p i : nat) :
  nth_error (firstn p l ++ skipn (S p) l) i
  = nth_error l (if (i <? p)%nat then i else S i).
Proof.
  destruct (Nat.ltb_spec i p) as [Hlt|Hge].
  - destruct (Nat.le_gt_cases (length l) p) as [Hp|Hp].
    + rewrite firstn_all2, skipn_all2 by lia. now rewrite app_nil_r.
    + rewrite nth_error_app1 by (rewrite length_firstn; lia).
      rewrite nth_error_firstn.
      now replace (i <? p)%nat with true by (symmetry; apply Nat.ltb_lt; lia).
  - destruct (Nat.le_gt_cases (length l) p) as [Hp|Hp].
    + rewrite firstn_all2, skipn_all2 by lia. rewrite app_nil_r.
      rewrite (proj2 (nth_error_None l i)) by lia.
      symmetry. apply nth_error_None. lia.
    + rewrite nth_error_app2 by (rewrite length_firstn; lia).
      rewrite length_firstn, Nat.min_l by lia.
      rewrite nth_error_skipn. f_equal. lia.
Qed.

(** X26: the draw orders keep going strictly down along the sequence (what
    the drawing needs, short of the exact numbering) through [pop] on a
    collection that holds no layer twice, and through [append] of a new
    layer to a collection that is numbered exactly; an exact numbering is
    itself strictly decreasing. *)
Theorem orders_stay_decreasing (s : state) :
  (order_invariant s -> orders_decreasing s) /\
  (forall id p,
      NoDup (_list s) -> orders_decreasing s ->
      _to_index s id = Ok p -> 0 <= p < __len__ s ->
      orders_decreasing (final (pop id s))) /\
  (forall l,
      ~ In l (_list s) -> order_invariant s ->
      orders_decreasing (final (append (PLayer l) s))).
Proof.
  split; [|split].
  - intros Hinv i j x y Hij Hx Hy.
    rewrite (Hinv i x Hx), (Hinv j y Hy). lia.
  - intros id p Hnd Hdec Hid Hp.
    pose proof (list_pop_within (_list s) p Hp) as Hpop.
    destruct (pop_run_final s id p _ _ Hid Hpop) as [Hfin _].
    assert (Hl : _list (final (pop id s))
                 = firstn (Z.to_nat p) (_list s)
                   ++ skipn (S (Z.to_nat p)) (_list s))
      by now rewrite Hfin, emit_list.
    assert (Hgone : ~ In (pick (_list s) p)
                        (firstn (Z.to_nat p) (_list s)
                         ++ skipn (S (Z.to_nat p)) (_list s))).
    { apply NoDup_without; [exact Hnd|].
      unfold pick. apply nth_error_nth'. llia. }
    rewrite <- Hl in Hgone.
    intros i j x y Hij Hx Hy.
    assert (Hxin : In x (_list (final (pop id s))))
      by (eapply nth_error_In; exact Hx).
    assert (Hyin : In y (_list (final (pop id s))))
      by (eapply nth_error_In; exact Hy).
    rewrite Hl in Hx, Hy. rewrite nth_error_without in Hx, Hy.
    rewrite Hfin.
    rewrite !emit_remove_other_layers by (intros ->; contradiction).
    cbn [layers with_list].
    eapply Hdec; [|exact Hx|exact Hy].
    destruct (Nat.ltb_spec i (Z.to_nat p)), (Nat.ltb_spec j (Z.to_nat p)); lia.
  - intros l Hl Hinv.
    assert (Hlist : _list (final (append (PLayer l) s)) = _list s ++ [l])
      by now rewrite append_sends, emit_list.
    destruct (append_order s l) as [Hnew Hold].
    intros i j x y Hij Hx Hy. rewrite Hlist in Hx, Hy.
    assert (Hi : (i < length (_list s))%nat).
    { pose proof (nth_error_lt _ _ _ Hy) as Hj.
      rewrite length_app in Hj. simpl in Hj. lia. }
    rewrite nth_error_app1 in Hx by assumption.
    assert (Hxl : x <> l)
      by (intros ->; apply Hl; eapply nth_error_In; exact Hx).
    rewrite (Hold x Hxl), (Hinv i x Hx).
    destruct (Nat.lt_ge_cases j (length (_list s))) as [Hj|Hj].
    + rewrite nth_error_app1 in Hy by assumption.
      assert (Hyl : y <> l)
        by (intros ->; apply Hl; eapply nth_error_In; exact Hy).
      rewrite (Hold y Hyl), (Hinv j y Hy). lia.
    + rewrite nth_error_app2 in Hy by assumption.
      destruct (j - length (_list s))%nat as [|m] eqn:E;
        [|destruct m; discriminate].
      injection Hy as <-. rewrite Hnew. llia.
Qed.

Lemma orders_stay_decreasing_witness :
  orders_decreasing
    (final (pop (PInt 1) (Sample.bound [0; 1; 2]%nat []))) /\
  orders_decreasing
    (final (append (PLayer 3%nat) (Sample.bound [0; 1; 2]%nat []))).
Proof.
  assert (Hinv : order_invariant (Sample.bound [0; 1; 2]%nat [])).
  { intros [|[|[|[|i]]]] l H; try discriminate;
      injection H as <-; reflexivity. }
  destruct (orders_stay_decreasing (Sample.bound [0; 1; 2]%nat []))
    as (H1 & H2 & H3).
  split.
  - apply (H2 (PInt 1) 1).
    + repeat constructor; simpl; intuition discriminate.
    + apply H1, Hinv.
    + reflexivity.
    + vm_compute. split; [discriminate|reflexivity].
  - apply H3; [|exact Hinv]. simpl. intuition discriminate.
Defined.

Lemma emit_viewer ev s v :
  viewer s = Some v ->
  viewer (final (emit ev s))
  = Some (match ev with
          | reorder_event =>
              mkViewer (viewer_id v) (clear_and_update (_canvas v))
          | _ => v
          end).
Proof.
  unfold viewer. intros Hv.
  destruct ev; run_callback s; simpl in Hv; congruence.
Qed.

(** X27: on a collection with a viewer, each [swap], [reorder] or
    [_move_layers] that returns has cleared the draw order of the canvas
    once and asked for one update; adding and removing layers leave the
    canvas alone. *)
Theorem canvas_told_once_per_rearrangement
        (op : operation) (s s' : state) (v : Viewer) :
  viewer s = Some v ->
  run op s = Return tt s' ->
  (rearranges op ->
   viewer s'
   = Some (mkViewer (viewer_id v)
                    (mkCanvas (S (draw_order_clears (_canvas v)))
                              (S (updates (_canvas v)))))) /\
  (~ rearranges op -> viewer s' = Some v).
Proof.
  intros Hv Hrun.
  destruct (run_shape op s) as [(e0 & _ & Hr)|(ev & l & Hn & Hr)];
    rewrite Hr in Hrun; [discriminate|].
  assert (Hs' : s' = final (emit ev (with_list l s)))
    by now rewrite Hrun.
  rewrite Hs', (emit_viewer ev (with_list l s) v Hv).
  destruct op as [obj|id obj|id|a b|args|index insert];
    cbn [rearranges]; (split; [intros Hre|intros Hre]);
    try contradiction; try (exfalso; now apply Hre);
    destruct ev; simpl in Hn; try contradiction; try reflexivity;
    destruct obj; contradiction.
Qed.

Lemma canvas_told_once_per_rearrangement_witness :
  viewer (final (run (op_swap (PInt 0) (PInt 1))
                     (Sample.bound [0; 1]%nat [])))
  = Some (mkViewer 0 (mkCanvas 1 1)).
Proof.
  destruct (canvas_told_once_per_rearrangement
              (op_swap (PInt 0) (PInt 1)) (Sample.bound [0; 1]%nat [])
              (final (run (op_swap (PInt 0) (PInt 1))
                          (Sample.bound [0; 1]%nat [])))
              Sample.a_viewer eq_refl eq_refl) as [H _].
  exact (H I).
Defined.

(* ================================================================= *)
(** ** A collection without a viewer *)





